(** * Artsy: the auction storage layer, its routes and the money formatter

    A shallow embedding of

    - [shared/schema.ts]: the three tables and the insert schemas,
    - [server/storage.ts]: [DatabaseStorage],
    - [server/routes.ts]: the handlers that create bids and listings and
      that delete listings and accounts, with the guards of
      [server/roleMiddleware.ts] that stand before them,
    - [server/artworkExpirationService.ts]: the caller of the sweep,
    - [server/utils.ts]: [formatDecimal],
    - the checks of the client on a bid and on a new listing
      ([BidForm.tsx], [artwork-detail.tsx], [upload.tsx]).

    Conventions.

    - A table is a finite map from its primary key [id] to the rest of the
      row; a row read with its [id] is a pair.  The schema declares no
      foreign key, so a bid row may name a listing that is absent.
    - A [decimal(10,2)] column holds a count of cents ([Z]); a write of a
      value of more than ten digits is refused by the database.  Requests
      carry prices as the column reads them; the conversion of the price
      text by the database is outside the model.  The column also takes
      the special value [NaN]; it is not represented, so every price and
      every amount of the model is a number.
    - A timestamp is a count of milliseconds ([Z]).  Every [new Date()] of
      the source is an argument of the function that evaluates it.  A
      timestamp that a request brings reaches the database as the text
      that [toISOString] makes of it, which the database reads for the
      years 0001 to 9999 only.
    - [nanoid()] is an argument as well; an insert under a key that is
      already present is refused by the database.
    - Storage code is [async] and may throw: it lives in a state and error
      monad [M] over the database and the console.  Nothing is rolled
      back when a function throws.
    - Console lines of the storage layer are kept as text, without the
      leading pictograph; those of the route handlers are left out.
    - The formatter inspects its argument character by character: there
      a string is its sequence of UTF-16 code units ([jsstring]), and a
      Number is an exact binary fraction.  Everywhere else a string is
      opaque text.
    - A handler is modelled from the point where the authentication
      middleware has set [req.user]; the WebSocket broadcast that follows
      a created bid does not touch the database and is left out. *)

From Stdlib Require Import ZArith.
From stdpp Require Import base option gmap strings list fin_maps sorting pretty.

Local Open Scope Z_scope.

(** ** shared/schema.ts *)

Inductive ArtworkStatus := PENDING | ACTIVE | SOLD | EXPIRED.
Inductive UserRole := BIDDER | ARTIST | ADMIN.

#[global] Instance ArtworkStatus_eq_dec : EqDecision ArtworkStatus.
Proof. solve_decision. Defined.
#[global] Instance UserRole_eq_dec : EqDecision UserRole.
Proof. solve_decision. Defined.

Definition Time := Z.
Definition Cents := Z.

Record User := mkUser {
  u_clerkId : string;
  u_email : string;
  u_name : option string;
  u_role : UserRole;
  u_createdAt : Time;
  u_updatedAt : Time }.

Record Artwork := mkArtwork {
  a_title : string;
  a_description : string;
  a_imageUrl : string;
  a_imagePublicId : string;
  a_category : option string;
  a_startingPrice : Cents;
  a_currentPrice : Cents;
  a_status : ArtworkStatus;
  a_auctionStart : option Time;
  a_endTime : Time;
  a_isActive : option bool;
  a_artistId : string;
  a_createdAt : Time;
  a_updatedAt : Time }.

Record Bid := mkBid {
  b_artworkId : string;
  b_bidderId : string;
  b_amount : Cents;
  b_createdAt : option Time }.

(** [decimal(_, { precision: 10, scale: 2 })]: at most eight digits before
    the point. *)
Definition fits_decimal (c : Cents) : bool := Z.abs c <? 10 ^ 10.

(** [InsertBid]: [createInsertSchema(bids).omit({ id, createdAt })]. *)
Record InsertBid := mkInsertBid {
  ib_artworkId : string;
  ib_bidderId : string;
  ib_amount : Cents }.

(** [new Date(str)] may be an invalid date. *)
Inductive JSDate := ValidDate (ms : Time) | InvalidDate.

(** The time values whose [toISOString] the database reads as a
    [timestamp]: from 0001-01-01T00:00:00.000Z to 9999-12-31T23:59:59.999Z.
    Before them the text has the year 0000 or a signed year, after them a
    signed year of six digits. *)
Definition timestamp_min : Time := -62135596800000.
Definition timestamp_max : Time := 253402300799999.

Definition fits_timestamp (t : Time) : bool :=
  (timestamp_min <=? t) && (t <=? timestamp_max).

(** [InsertArtwork]: the output type of [insertArtworkSchema]. *)
Record InsertArtwork := mkInsertArtwork {
  ia_title : string;
  ia_description : string;
  ia_imageUrl : string;
  ia_imagePublicId : string;
  ia_category : string;
  ia_startingPrice : Cents;
  ia_endTime : JSDate;
  ia_artistId : string;
  ia_status : ArtworkStatus }.

(** The [artist] and [bidder] objects of [ArtworkWithArtist] and
    [BidWithBidder]; [lastName] is always [NULL]. *)
Record Person := mkPerson {
  p_id : string;
  p_firstName : option string;
  p_lastName : option string;
  p_email : string }.

(** ** The database, the console and the monad *)

Record DB := mkDB {
  users : gmap string User;
  artworks : gmap string Artwork;
  bids : gmap string Bid }.

Record World := mkWorld {
  db : DB;
  console : list string }.

Inductive Err := ZodError | DbError | RangeError | CloudinaryError.

Definition M (A : Type) : Type := World → (Err + A) * World.

Definition ret {A} (a : A) : M A := λ w, (inr a, w).

Definition bind {A B} (m : M A) (f : A → M B) : M B :=
  λ w, match m w with
       | (inl e, w') => (inl e, w')
       | (inr a, w') => f a w'
       end.

Definition throw {A} (e : Err) : M A := λ w, (inl e, w).

(** [try { m } catch (error) { h error }] *)
Definition try_catch {A} (m : M A) (h : Err → M A) : M A :=
  λ w, match m w with
       | (inl e, w') => h e w'
       | (inr a, w') => (inr a, w')
       end.

Declare Scope storage_scope.
Delimit Scope storage_scope with M.
Notation "x <- m ;; k" := (bind m (λ x, k))
  (at level 100, m at next level, right associativity) : storage_scope.
Notation "m ;; k" := (bind m (λ _, k))
  (at level 100, right associativity) : storage_scope.
Local Open Scope storage_scope.

Definition read_db : M DB := λ w, (inr (db w), w).

Definition write_db (f : DB → DB) : M unit :=
  λ w, (inr tt, mkWorld (f (db w)) (console w)).

(** [console.log] and [console.error] *)
Definition log (line : string) : M unit :=
  λ w, (inr tt, mkWorld (db w) (console w ++ [line])).

(** [for (const x of xs) { body x }] *)
Fixpoint for_of {A} (xs : list A) (body : A → M unit) : M unit :=
  match xs with
  | [] => ret tt
  | x :: xs' => body x ;; for_of xs' body
  end.

Definition set_users (f : gmap string User → gmap string User) (d : DB) : DB :=
  mkDB (f (users d)) (artworks d) (bids d).
Definition set_artworks (f : gmap string Artwork → gmap string Artwork) (d : DB) : DB :=
  mkDB (users d) (f (artworks d)) (bids d).
Definition set_bids (f : gmap string Bid → gmap string Bid) (d : DB) : DB :=
  mkDB (users d) (artworks d) (f (bids d)).

(** [.set({ currentPrice, updatedAt })] on one row *)
Definition with_currentPrice (p : Cents) (ts : Time) (a : Artwork) : Artwork :=
  mkArtwork (a_title a) (a_description a) (a_imageUrl a)
    (a_imagePublicId a) (a_category a) (a_startingPrice a) p (a_status a)
    (a_auctionStart a) (a_endTime a) (a_isActive a) (a_artistId a)
    (a_createdAt a) ts.

(** [.set({ status, updatedAt })] on one row *)
Definition with_status (s : ArtworkStatus) (ts : Time) (a : Artwork) : Artwork :=
  mkArtwork (a_title a) (a_description a) (a_imageUrl a)
    (a_imagePublicId a) (a_category a) (a_startingPrice a) (a_currentPrice a) s
    (a_auctionStart a) (a_endTime a) (a_isActive a) (a_artistId a)
    (a_createdAt a) ts.

(** [.leftJoin(users, eq(_, users.id))] *)
Definition join_user (d : DB) (uid : string) : option Person :=
  match users d !! uid with
  | Some u => Some (mkPerson uid (u_name u) None (u_email u))
  | None => None
  end.

(** [desc(createdAt)] on a nullable column: [NULL] sorts first. *)
Definition desc_time (x y : option Time) : bool :=
  match x, y with
  | None, _ => true
  | Some _, None => false
  | Some s, Some t => t <=? s
  end.

(** ** server/storage.ts *)

Definition bool_text (b : bool) : string := if b then "true" else "false".

(** [getArtwork]: the row under [id] with its artist, or [undefined].
    [formatArtworkPrices] rewrites the two price texts of the result; it
    is the identity on a column value. *)
Definition getArtwork (id : string) : M (option (string * Artwork * option Person)) :=
  d <- read_db ;;
  ret (match artworks d !! id with
       | Some a => Some (id, a, join_user d (a_artistId a))
       | None => None
       end).

(** [getUserArtworks]: the rows of one artist, newest first. *)
Definition getUserArtworks (userId : string)
  : M (list (string * Artwork * option Person)) :=
  d <- read_db ;;
  let rows := map_to_list (filter (λ kv, a_artistId kv.2 = userId) (artworks d)) in
  let sorted := merge_sort
    (λ r1 r2, desc_time (Some (a_createdAt r1.2)) (Some (a_createdAt r2.2))) rows in
  ret (map (λ r, (r.1, r.2, join_user d (a_artistId r.2))) sorted).

(** [getArtworkBids]: the bids on one listing with their bidders, newest
    first. *)
Definition getArtworkBids (artworkId : string)
  : M (list (string * Bid * option Person)) :=
  d <- read_db ;;
  let rows := map_to_list (filter (λ kv, b_artworkId kv.2 = artworkId) (bids d)) in
  let sorted := merge_sort
    (λ r1 r2, desc_time (b_createdAt r1.2) (b_createdAt r2.2)) rows in
  ret (map (λ r, (r.1, r.2, join_user d (b_bidderId r.2))) sorted).

(** [createArtwork]: [id] is [nanoid()], the two times are the two
    [new Date()].  [isActive] is absent from [InsertArtwork] and takes the
    column default [true]; [auctionStart] stays [NULL].  An invalid end
    date makes the driver's [toISOString] throw before the insert; the
    text of an end date outside the years 0001 to 9999 is refused by the
    database. *)
Definition createArtwork (artworkData : InsertArtwork) (id : string)
    (created updated : Time) : M (string * Artwork) :=
  d <- read_db ;;
  match ia_endTime artworkData with
  | InvalidDate => throw RangeError
  | ValidDate endTime =>
      match artworks d !! id with
      | Some _ => throw DbError
      | None =>
          if fits_decimal (ia_startingPrice artworkData)
             && fits_timestamp endTime
          then
            let row := mkArtwork (ia_title artworkData)
                         (ia_description artworkData) (ia_imageUrl artworkData)
                         (ia_imagePublicId artworkData)
                         (Some (ia_category artworkData))
                         (ia_startingPrice artworkData)
                         (ia_startingPrice artworkData)
                         (ia_status artworkData) None endTime (Some true)
                         (ia_artistId artworkData) created updated in
            write_db (set_artworks (insert id row)) ;; ret (id, row)
          else throw DbError
      end
  end.

(** [db.update(artworks).set({ currentPrice, updatedAt: new Date() })
       .where(eq(artworks.id, id))] *)
Definition updateArtworkPrice (id : string) (currentPrice : Cents) (now : Time)
  : M unit :=
  if fits_decimal currentPrice
  then write_db (set_artworks (alter (with_currentPrice currentPrice now) id))
  else throw DbError.

(** [deleteFromCloudinary] of [server/cloudinary.ts]; [destroy_ok] tells
    whether the asset store answers the call. *)
Definition deleteFromCloudinary (destroy_ok : string → bool) (publicId : string)
  : M unit :=
  if destroy_ok publicId
  then log ("Cloudinary image deleted: " +:+ publicId)
  else log "Failed to delete from Cloudinary:" ;; throw CloudinaryError.

(** [deleteArtwork]: release the image (best effort), then delete the
    listing row.  No bid row is touched. *)
Definition deleteArtwork (destroy_ok : string → bool) (id : string) : M unit :=
  log ("Starting deleteArtwork process for ID: " +:+ id) ;;
  try_catch
    (artwork <- getArtwork id ;;
     match artwork with
     | Some (_, a, _) =>
         if decide (a_imagePublicId a = "")
         then log ("No Cloudinary image to delete for artwork " +:+ id)
         else
           log ("Deleting image from Cloudinary: " +:+ a_imagePublicId a) ;;
           deleteFromCloudinary destroy_ok (a_imagePublicId a) ;;
           log ("Cloudinary image deleted: " +:+ a_imagePublicId a)
     | None => log ("No Cloudinary image to delete for artwork " +:+ id)
     end)
    (λ _, log "Error deleting image from Cloudinary:") ;;
  log ("Deleting artwork from database: " +:+ id) ;;
  write_db (set_artworks (delete id)) ;;
  log ("Database deletion completed for artwork " +:+ id +:+ ":").

(** [db.update(artworks).set({ status, updatedAt: new Date() })
       .where(eq(artworks.id, id))] *)
Definition updateArtworkStatus (id : string) (status : ArtworkStatus) (now : Time)
  : M unit :=
  write_db (set_artworks (alter (with_status status now) id)).

(** One turn of the loop of [processExpiredArtworks]; [stamp id] is the
    clock reading of the status update of listing [id]. *)
Definition sweep_body (stamp : string → Time) (artwork : string * Artwork)
  : M unit :=
  bids <- getArtworkBids artwork.1 ;;
  if decide (0 < length bids)%nat
  then
    updateArtworkStatus artwork.1 SOLD (stamp artwork.1) ;;
    log ("Artwork " +:+ a_title artwork.2 +:+ " (" +:+ artwork.1
         +:+ ") marked as SOLD with winning bid")
  else
    updateArtworkStatus artwork.1 EXPIRED (stamp artwork.1) ;;
    log ("Artwork " +:+ a_title artwork.2 +:+ " (" +:+ artwork.1
         +:+ ") marked as EXPIRED with no bids").

(** [processExpiredArtworks]: [now] is the clock reading of the sweep. *)
Definition processExpiredArtworks (now : Time) (stamp : string → Time) : M unit :=
  d <- read_db ;;
  let expiredArtworks :=
    map_to_list
      (filter (λ kv, a_status kv.2 = ACTIVE ∧ a_endTime kv.2 < now) (artworks d)) in
  for_of expiredArtworks (sweep_body stamp) ;;
  if decide (0 < length expiredArtworks)%nat
  then log ("Processed " +:+ pretty (length expiredArtworks)
            +:+ " expired artworks")
  else ret tt.

(** [db.insert(bids).values({ ...bidData, id: nanoid() }).returning()];
    [createdAt] takes the column default [now()]. *)
Definition insert_bid (bidData : InsertBid) (id : string) (now : Time)
  : M (string * Bid) :=
  d <- read_db ;;
  match bids d !! id with
  | Some _ => throw DbError
  | None =>
      if fits_decimal (ib_amount bidData)
      then
        let row := mkBid (ib_artworkId bidData) (ib_bidderId bidData)
                     (ib_amount bidData) (Some now) in
        write_db (set_bids (insert id row)) ;; ret (id, row)
      else throw DbError
  end.

(** [createBid]: insert the bid, then set the listing's current price to
    the bid's amount.  [formatBidAmount] rewrites the amount text of the
    returned row; it is the identity on a column value. *)
Definition createBid (bidData : InsertBid) (id : string) (now upd : Time)
  : M (string * Bid) :=
  bid <- insert_bid bidData id now ;;
  updateArtworkPrice (ib_artworkId bidData) (ib_amount bidData) upd ;;
  ret bid.

(** [deleteUserAccount]: [forceDelete] defaults to [false] and is read by
    the first console line only. *)
Definition deleteUserAccount (userId : string) (forceDelete : bool) : M unit :=
  log ("Starting account deletion for user " +:+ userId +:+ " (force: "
       +:+ bool_text forceDelete +:+ ")") ;;
  try_catch
    (log "Deleting user's bids..." ;;
     write_db (set_bids (filter (λ kv, b_bidderId kv.2 ≠ userId))) ;;
     log "Deleting user's artworks..." ;;
     d <- read_db ;;
     let userArtworks :=
       map fst (map_to_list (filter (λ kv, a_artistId kv.2 = userId) (artworks d))) in
     for_of userArtworks
       (λ artwork,
          write_db (set_bids (filter (λ kv, b_artworkId kv.2 ≠ artwork))) ;;
          write_db (set_artworks (delete artwork))) ;;
     log "Deleting user record..." ;;
     write_db (set_users (delete userId)) ;;
     log ("Successfully deleted all data for user " +:+ userId))
    (λ error,
       log ("Error during account deletion for user " +:+ userId +:+ ":") ;;
       throw error).

(** ** server/routes.ts *)

Inductive Response :=
  | Created_bid (bid : string * Bid)
  | Created_artwork (artwork : string * Artwork)
  | NoContent
  | BadRequest (message : string)
  | Unauthenticated (message : string)
  | Forbidden (message : string)
  | NotFound (message : string)
  | ServerError (message : string).

(** The JSON body of [POST /api/bids]; a field is [None] when it is
    missing or is not a string. *)
Record BidBody := mkBidBody {
  bb_artworkId : option string;
  bb_amount : option Cents }.

(** [insertBidSchema.parse({ ...req.body, bidderId: userId })] *)
Definition insertBidSchema_parse (body : BidBody) (userId : string) : M InsertBid :=
  match bb_artworkId body, bb_amount body with
  | Some artworkId, Some amount => ret (mkInsertBid artworkId userId amount)
  | _, _ => throw ZodError
  end.

(** [app.post('/api/bids', requireAuth, ...)] *)
Definition post_bids (userId : string) (body : BidBody) (id : string)
    (now upd : Time) : M Response :=
  try_catch
    (validatedData <- insertBidSchema_parse body userId ;;
     bid <- createBid validatedData id now upd ;;
     ret (Created_bid bid))
    (λ _, ret (ServerError "Failed to create bid")).

(** The multipart fields of [POST /api/artworks]; a field is [None] when
    it is missing.  [fb_endTime] is what [new Date(str)] makes of the end
    time text. *)
Record ArtworkForm := mkArtworkForm {
  fb_title : option string;
  fb_description : option string;
  fb_category : option string;
  fb_startingPrice : option Cents;
  fb_endTime : option JSDate }.

Definition nonempty (s : string) : bool := bool_decide (s ≠ "").

(** [insertArtworkSchema.parse(formData)]: six of the texts are
    [z.string().min(1)], the price and the end time are strings that are
    only transformed, the status has a default. *)
Definition insertArtworkSchema_parse (form : ArtworkForm) (artistId : string)
    (imageUrl imagePublicId : string) (status : ArtworkStatus) : M InsertArtwork :=
  match fb_title form, fb_description form, fb_category form,
        fb_startingPrice form, fb_endTime form with
  | Some title, Some description, Some category, Some startingPrice, Some endTime =>
      if nonempty title && nonempty description && nonempty imageUrl
         && nonempty imagePublicId && nonempty category && nonempty artistId
      then ret (mkInsertArtwork title description imageUrl imagePublicId category
                  startingPrice endTime artistId status)
      else throw ZodError
  | _, _, _, _, _ => throw ZodError
  end.

(** [app.post('/api/artworks', requireAuth, requireRole('ARTIST'),
    upload.single('image'), ...)], from the point where the image is
    stored under [imageUrl] and [imagePublicId]. *)
Definition post_artworks (userId : string) (form : ArtworkForm)
    (imageUrl imagePublicId : string) (id : string) (created updated : Time)
  : M Response :=
  try_catch
    (validatedData <-
       insertArtworkSchema_parse form userId imageUrl imagePublicId ACTIVE ;;
     artwork <- createArtwork validatedData id created updated ;;
     ret (Created_artwork artwork))
    (λ error,
       match error with
       | ZodError => ret (BadRequest "Invalid data")
       | _ => ret (ServerError "Failed to create artwork")
       end).

(** [requireRole('ADMIN')] of [server/roleMiddleware.ts].  [next()]
    starts the handler and returns; what the handler throws later does
    not reach the [catch] of the middleware, so [next] stands after it. *)
Definition requireRole_ADMIN (userId : string) (next : M Response) : M Response :=
  refused <-
    try_catch
      (if decide (userId = "")
       then ret (Some (Unauthenticated "Authentication required"))
       else
         d <- read_db ;;
         match users d !! userId with
         | None => ret (Some (NotFound "User not found"))
         | Some user =>
             if decide (u_role user = ADMIN) then ret None
             else ret (Some (Forbidden "Admin access required"))
         end)
      (λ _, ret (Some (ServerError "Internal server error"))) ;;
  match refused with
  | Some response => ret response
  | None => next
  end.

(** [requireArtworkOwnership()] of [server/roleMiddleware.ts]; [next]
    stands after the [catch], as above. *)
Definition requireArtworkOwnership (userId artworkId : string) (next : M Response)
  : M Response :=
  refused <-
    try_catch
      (if decide (userId = "" ∨ artworkId = "")
       then ret (Some (BadRequest "Invalid request"))
       else
         d <- read_db ;;
         match users d !! userId with
         | None => ret (Some (NotFound "User not found"))
         | Some user =>
             if decide (u_role user = ADMIN) then ret None
             else
               artwork <- getArtwork artworkId ;;
               match artwork with
               | None => ret (Some (NotFound "Artwork not found"))
               | Some (_, a, _) =>
                   if decide (a_artistId a = userId) then ret None
                   else ret (Some (Forbidden "You can only modify your own artworks"))
               end
         end)
      (λ _, ret (Some (ServerError "Internal server error"))) ;;
  match refused with
  | Some response => ret response
  | None => next
  end.

(** [app.delete('/api/artworks/:id', requireAuth,
    requireArtworkOwnership(), ...)] *)
Definition delete_artworks_id (destroy_ok : string → bool) (userId id : string)
    (now : Time) : M Response :=
  requireArtworkOwnership userId id
    (try_catch
       (artwork <- getArtwork id ;;
        match artwork with
        | None => ret (NotFound "Artwork not found")
        | Some (_, a, _) =>
            if decide (a_artistId a = userId)
            then
              if decide (a_endTime a ≤ now)
              then ret (BadRequest "Cannot delete artwork after auction has ended")
              else
                bids <- getArtworkBids id ;;
                if decide (0 < length bids)%nat
                then ret (BadRequest "Cannot delete artwork with existing bids")
                else deleteArtwork destroy_ok id ;; ret NoContent
            else ret (Forbidden "You can only delete your own artworks")
        end)
       (λ _, ret (ServerError "Failed to delete artwork"))).

(** [app.delete('/api/admin/artworks/:id', requireAuth,
    requireRole('ADMIN'), ...)] *)
Definition delete_admin_artworks_id (destroy_ok : string → bool)
    (adminId id : string) : M Response :=
  requireRole_ADMIN adminId
    (try_catch
       (artwork <- getArtwork id ;;
        match artwork with
        | None => ret (NotFound "Artwork not found")
        | Some _ => deleteArtwork destroy_ok id ;; ret NoContent
        end)
       (λ _, ret (ServerError "Failed to delete artwork"))).

(** The loop of [DELETE /api/user/account]: [found] collects the caller's
    listings with at least one bid and an end time after [now id], the
    clock reading of that turn of the loop. *)
Fixpoint activeArtworksWithBids (now : string → Time)
    (userArtworks : list (string * Artwork * option Person))
    (found : list (string * string * nat)) : M (list (string * string * nat)) :=
  match userArtworks with
  | [] => ret found
  | (id, a, _) :: rest =>
      bids <- getArtworkBids id ;;
      if bool_decide (0 < length bids)%nat && bool_decide (now id < a_endTime a)
      then activeArtworksWithBids now rest (found ++ [(id, a_title a, length bids)])
      else activeArtworksWithBids now rest found
  end.

(** [app.delete('/api/user/account', requireAuth, ...)] *)
Definition delete_user_account (userId : string) (now : string → Time)
  : M Response :=
  try_catch
    (userArtworks <- getUserArtworks userId ;;
     found <- activeArtworksWithBids now userArtworks [] ;;
     if decide (0 < length found)%nat
     then ret (BadRequest "Cannot delete account while you have active artworks with bids. Please wait for auctions to end or contact support.")
     else deleteUserAccount userId false ;; ret NoContent)
    (λ _, ret (ServerError "Failed to delete account")).

(** [app.delete('/api/admin/users/:userId', requireAuth,
    requireRole('ADMIN'), ...)] *)
Definition delete_admin_users_id (adminId userId : string) : M Response :=
  requireRole_ADMIN adminId
    (try_catch
       (if decide (adminId = userId)
        then ret (BadRequest "Admins cannot delete their own accounts through this endpoint. Use the regular account deletion.")
        else
          d <- read_db ;;
          match users d !! userId with
          | None => ret (NotFound "User not found")
          | Some _ => deleteUserAccount userId true ;; ret NoContent
          end)
       (λ _, ret (ServerError "Failed to delete user account"))).

(** ** Sequences of storage operations *)

Inductive Op :=
  | Op_createArtwork (artworkData : InsertArtwork) (id : string)
      (created updated : Time)
  | Op_createBid (bidData : InsertBid) (id : string) (now upd : Time)
  | Op_updateArtworkPrice (id : string) (currentPrice : Cents) (now : Time)
  | Op_updateArtworkStatus (id : string) (status : ArtworkStatus) (now : Time)
  | Op_processExpiredArtworks (now : Time) (stamp : string → Time)
  | Op_deleteArtwork (destroy_ok : string → bool) (id : string)
  | Op_deleteUserAccount (userId : string) (forceDelete : bool).

(** The world after one operation; what the operation returns or throws
    is dropped, what it wrote before throwing stays. *)
Definition run_op (op : Op) (w : World) : World :=
  match op with
  | Op_createArtwork artworkData id created updated =>
      (createArtwork artworkData id created updated w).2
  | Op_createBid bidData id now upd => (createBid bidData id now upd w).2
  | Op_updateArtworkPrice id currentPrice now =>
      (updateArtworkPrice id currentPrice now w).2
  | Op_updateArtworkStatus id status now =>
      (updateArtworkStatus id status now w).2
  | Op_processExpiredArtworks now stamp => (processExpiredArtworks now stamp w).2
  | Op_deleteArtwork destroy_ok id => (deleteArtwork destroy_ok id w).2
  | Op_deleteUserAccount userId forceDelete =>
      (deleteUserAccount userId forceDelete w).2
  end.

Fixpoint run_ops (ops : list Op) (w : World) : World :=
  match ops with
  | [] => w
  | op :: ops' => run_ops ops' (run_op op w)
  end.

(** [currentPrice >= startingPrice] on every stored listing *)
Definition price_invariant (w : World) : Prop :=
  ∀ id a, artworks (db w) !! id = Some a → a_startingPrice a ≤ a_currentPrice a.

(** The price an operation writes, if it writes one, is not below the
    starting price of the listing it is written to. *)
Definition writes_price_from_start (w : World) (op : Op) : Prop :=
  match op with
  | Op_createBid bidData _ _ _ =>
      ∀ a, artworks (db w) !! ib_artworkId bidData = Some a →
           a_startingPrice a ≤ ib_amount bidData
  | Op_updateArtworkPrice id currentPrice _ =>
      ∀ a, artworks (db w) !! id = Some a → a_startingPrice a ≤ currentPrice
  | _ => True
  end.

Fixpoint all_write_price_from_start (w : World) (ops : list Op) : Prop :=
  match ops with
  | [] => True
  | op :: ops' =>
      writes_price_from_start w op ∧ all_write_price_from_start (run_op op w) ops'
  end.

(** Every row of [m'] is a row of [m] with the same two prices. *)
Definition prices_kept (m' m : gmap string Artwork) : Prop :=
  ∀ id a', m' !! id = Some a' →
    ∃ a, m !! id = Some a
      ∧ a_startingPrice a' = a_startingPrice a
      ∧ a_currentPrice a' = a_currentPrice a.

(** Some bid row names listing [id]. *)
Definition has_bid (d : DB) (id : string) : Prop :=
  ∃ k b, bids d !! k = Some b ∧ b_artworkId b = id.

(** A bid row names a listing that is not stored. *)
Definition orphan_bid (d : DB) (k : string) : Prop :=
  ∃ b, bids d !! k = Some b ∧ artworks d !! b_artworkId b = None.

(** The bid rows on one listing, and what one sweep makes of a listing. *)
Definition bids_on (d : DB) (id : string) : gmap string Bid :=
  filter (λ kv, b_artworkId kv.2 = id) (bids d).

Definition sweep_status (d : DB) (id : string) : ArtworkStatus :=
  if decide (0 < size (bids_on d id))%nat then SOLD else EXPIRED.

Definition sweep_row (now : Time) (stamp : string → Time) (d : DB) (id : string)
    (a : Artwork) : Artwork :=
  if decide (a_status a = ACTIVE ∧ a_endTime a < now)
  then with_status (sweep_status d id) (stamp id) a
  else a.

(** What one turn of the loop of [deleteUserAccount] and the whole cascade
    write. *)
Definition cascade_step (d : DB) (artwork : string) : DB :=
  set_artworks (delete artwork)
    (set_bids (filter (λ kv, b_artworkId kv.2 ≠ artwork)) d).

Definition cascade_db (userId : string) (d : DB) : DB :=
  let d1 := set_bids (filter (λ kv, b_bidderId kv.2 ≠ userId)) d in
  let userArtworks :=
    map fst (map_to_list (filter (λ kv, a_artistId kv.2 = userId) (artworks d1))) in
  set_users (delete userId) (foldl cascade_step d1 userArtworks).

(** ** Sample data *)

Definition listing100 : Artwork :=
  mkArtwork "Sunset" "Oil on canvas" "https://img/1" "img1" (Some "Paintings")
    10000 10000 ACTIVE None 3600000 (Some true) "artist1" 0 0.

Definition sold200 : Artwork :=
  mkArtwork "Dawn" "Ink" "https://img/2" "img2" (Some "Drawings")
    10000 20000 SOLD None 1000 (Some true) "artist1" 0 2000.

Definition bid200 : Bid := mkBid "L2" "bob" 20000 (Some 500).

Definition admin_user : User :=
  mkUser "root" "root@artsy.test" (Some "Root") ADMIN 0 0.

Definition world_open : World :=
  mkWorld (mkDB ∅ {[ "L1" := listing100 ]} ∅) [].

Definition world_sold : World :=
  mkWorld (mkDB {[ "root" := admin_user ]} {[ "L2" := sold200 ]}
             {[ "b1" := bid200 ]}) [].

(** Two bids on the open listing: one below its price, one that ties the
    price the first one leaves. *)
Definition after_low_bid : (Err + Response) * World :=
  post_bids "bob" (mkBidBody (Some "L1") (Some 9999)) "b1" 10 11 world_open.
Definition after_tied_bid : (Err + Response) * World :=
  post_bids "eve" (mkBidBody (Some "L1") (Some 9999)) "b2" 20 21 after_low_bid.2.

(** A bid on the sold listing, long after its end time. *)
Definition after_late_bid : (Err + Response) * World :=
  post_bids "eve" (mkBidBody (Some "L2") (Some 25000)) "b2" 5000 5001 world_sold.

(** The sold listing set back to ACTIVE, then to PENDING. *)
Definition after_reopen : (Err + unit) * World :=
  updateArtworkStatus "L2" ACTIVE 3000 world_sold.
Definition after_repending : (Err + unit) * World :=
  updateArtworkStatus "L2" PENDING 3001 after_reopen.2.

(** An administrator deletes the sold listing, which has one bid. *)
Definition after_admin_delete : (Err + Response) * World :=
  delete_admin_artworks_id (λ _, true) "root" "L2" world_sold.

Definition empty_world : World := mkWorld (mkDB ∅ ∅ ∅) [].

Definition sunset_form : InsertArtwork :=
  mkInsertArtwork "Sunset" "Oil on canvas" "https://img/1" "img1" "Paintings"
    10000 (ValidDate 3600000) "artist1" ACTIVE.

(** A listing at 100.00, a bid of 150.00, a sweep after the end time. *)
Definition ops_rising : list Op :=
  [ Op_createArtwork sunset_form "L1" 0 0;
    Op_createBid (mkInsertBid "L1" "bob" 15000) "b1" 10 11;
    Op_processExpiredArtworks 3600001 (λ _, 3600005) ].

(** A listing at 100.00 and a bid of 50.00. *)
Definition ops_falling : list Op :=
  [ Op_createArtwork sunset_form "L1" 0 0;
    Op_createBid (mkInsertBid "L1" "bob" 5000) "b1" 10 11 ].

(** A listing form with a negative starting price and an end time that
    lies before the time of the request. *)
Definition late_form : ArtworkForm :=
  mkArtworkForm (Some "Sunset") (Some "Oil on canvas") (Some "Paintings")
    (Some (-500)) (Some (ValidDate 5)).



(** ** server/utils.ts and the built-ins it calls

    [formatDecimal] is [parseFloat], [isNaN] and [Number.prototype.toFixed]
    of the language.  They are modelled on exact integer arithmetic:

    - a string is its sequence of UTF-16 code units;
    - a finite Number is a sign, a significand [m < 2^53] and an exponent
      [e >= -1074], of value [m * 2^e], with [m >= 2^52] unless
      [e = -1074]; both zeros have [m = 0];
    - the Number of a decimal literal is its exact value rounded to the
      nearest Number, ties to the even significand (the language leaves
      the digits after the twentieth to the engine; V8 rounds the exact
      value). *)

Definition jsstring := list N.

Definition js (s : string) : jsstring :=
  (λ c, Ascii.N_of_ascii c) <$> String.list_ascii_of_string s.

Inductive Number :=
  | NaN
  | Infinity (negative : bool)
  | Finite (negative : bool) (m e : Z).

#[global] Instance Number_eq_dec : EqDecision Number.
Proof. solve_decision. Defined.

(** The integer nearest to [n / d], the even one of two ([n >= 0], [d > 0]). *)
Definition round_half_even (n d : Z) : Z :=
  let q := n / d in
  let r := n mod d in
  if 2 * r <? d then q
  else if d <? 2 * r then q + 1
  else if Z.even q then q else q + 1.

(** The Number nearest to [p / q] ([p >= 0], [q > 0]), with the given sign.
    [p / q] is counted in units of [2^-1074]; [sh] is the number of low
    bits that do not fit in 53. *)
Definition Number_of_ratio (negative : bool) (p q : Z) : Number :=
  let P := p * 2 ^ 1074 in
  let sh := Z.max (Z.log2 (P / q) - 52) 0 in
  let m := round_half_even P (q * 2 ^ sh) in
  let sh' := if m =? 2 ^ 53 then sh + 1 else sh in
  let m' := if m =? 2 ^ 53 then 2 ^ 52 else m in
  if 2045 <? sh' then Infinity negative else Finite negative m' (sh' - 1074).

(** The Number of the decimal [digits * 10^exponent]. *)
Definition Number_of_decimal (negative : bool) (digits exponent : Z) : Number :=
  if 0 <=? exponent
  then Number_of_ratio negative (digits * 10 ^ exponent) 1
  else Number_of_ratio negative digits (10 ^ (- exponent)).

(** The value of a finite Number as a fraction. *)
Definition ratio (m e : Z) : Z * Z :=
  if 0 <=? e then (m * 2 ^ e, 1) else (m, 2 ^ (- e)).

(** *** parseFloat *)

(** [WhiteSpace] and [LineTerminator] code units *)
Definition is_white (c : N) : bool :=
  ((9 <=? c) && (c <=? 13) || (c =? 32) || (c =? 160) || (c =? 5760)
   || (8192 <=? c) && (c <=? 8202) || (c =? 8232) || (c =? 8233)
   || (c =? 8239) || (c =? 8287) || (c =? 12288) || (c =? 65279))%N.

Definition is_digit (c : N) : bool := ((48 <=? c) && (c <=? 57))%N.

Definition digit_value (c : N) : Z := Z.of_N c - 48.

Definition digits_value (ds : jsstring) : Z :=
  fold_left (λ acc c, 10 * acc + digit_value c) ds 0.

Fixpoint trim_start (s : jsstring) : jsstring :=
  match s with
  | c :: r => if is_white c then trim_start r else s
  | [] => []
  end.

(** The longest run of digits at the head, and what follows it. *)
Fixpoint span_digits (s : jsstring) : jsstring * jsstring :=
  match s with
  | c :: r =>
      if is_digit c
      then let '(ds, rest) := span_digits r in (c :: ds, rest)
      else ([], s)
  | [] => ([], [])
  end.

(** An optional [+] or [-] *)
Definition sign_part (s : jsstring) : bool * jsstring :=
  match s with
  | c :: r =>
      if (c =? 45)%N then (true, r)
      else if (c =? 43)%N then (false, r)
      else (false, s)
  | [] => (false, [])
  end.

(** [ExponentPart], when it is there: [e] or [E], an optional sign and at
    least one digit; [0] otherwise. *)
Definition exponent_part (s : jsstring) : Z :=
  match s with
  | c :: r =>
      if ((c =? 101) || (c =? 69))%N
      then
        let '(negative, r') := sign_part r in
        match (span_digits r').1 with
        | [] => 0
        | ds => if negative then - digits_value ds else digits_value ds
        end
      else 0
  | [] => 0
  end.

Definition starts_with (prefix s : jsstring) : bool :=
  bool_decide (take (length prefix) s = prefix).

(** The longest prefix that is a [StrUnsignedDecimalLiteral], as a Number:
    [Infinity], or digits with an optional point and an optional exponent
    part, with a digit before or after the point. *)
Definition StrUnsignedDecimalLiteral (negative : bool) (s : jsstring) : Number :=
  if starts_with (js "Infinity") s then Infinity negative
  else
    let '(ip, r1) := span_digits s in
    let '(fp, r2) :=
      match r1 with
      | c :: r => if (c =? 46)%N then span_digits r else ([], r1)
      | [] => ([], [])
      end in
    match ip ++ fp with
    | [] => NaN
    | ds =>
        Number_of_decimal negative (digits_value ds)
          (exponent_part r2 - Z.of_nat (length fp))
    end.

Definition parseFloat (inputString : jsstring) : Number :=
  let '(negative, s) := sign_part (trim_start inputString) in
  StrUnsignedDecimalLiteral negative s.

Definition isNaN (x : Number) : bool :=
  match x with NaN => true | _ => false end.

(** *** Number.prototype.toFixed *)

Definition digit_char (d : Z) : N := Z.to_N (48 + d).

(** The decimal digits of [n], the last one first; [fuel] bounds their
    number. *)
Fixpoint decimal_digits_rev (fuel : nat) (n : Z) : list Z :=
  match fuel with
  | O => []
  | S fuel' =>
      if n <? 10 then [n] else (n mod 10) :: decimal_digits_rev fuel' (n / 10)
  end.

(** The decimal representation of the integer [n >= 0]. *)
Definition decimal_digits (n : Z) : jsstring :=
  digit_char <$> rev (decimal_digits_rev (S (Z.to_nat (Z.log2 n))) n).

(** [Number::toString] on a finite [x >= 10^21], an integer [X] of [n0]
    digits: the least number [k] of digits [s] with [s * 10^(n - k)]
    rounding to [x]; of two such [s] the one nearer to [X], of two as near
    the even one. *)
Definition shortest_at (x : Number) (X n0 k : Z) : option Z :=
  let u := 10 ^ (n0 - k) in
  let lo := X / u in
  let hi := lo + 1 in
  let ok s := bool_decide (Number_of_ratio false (s * u) 1 = x) in
  match ok lo, ok hi with
  | true, false => Some lo
  | false, true => Some hi
  | true, true =>
      if X - lo * u <? hi * u - X then Some lo
      else if hi * u - X <? X - lo * u then Some hi
      else if Z.even lo then Some lo else Some hi
  | false, false => None
  end.

Fixpoint shortest_from (fuel : nat) (x : Number) (X n0 k : Z) : Z * Z :=
  match fuel with
  | O => (X, n0)
  | S fuel' =>
      match shortest_at x X n0 k with
      | Some s => (s, k)
      | None => shortest_from fuel' x X n0 (k + 1)
      end
  end.

Definition Number_toString_large (m e : Z) : jsstring :=
  let X := m * 2 ^ e in
  let n0 := Z.of_nat (length (decimal_digits X)) in
  let '(s, k) := shortest_from (Z.to_nat (n0 - 1)) (Finite false m e) X n0 1 in
  let '(s, n) := if s =? 10 ^ k then (1, n0 + 1) else (s, n0) in
  match decimal_digits s with
  | [] => []
  | [d] => [d] ++ js "e+" ++ decimal_digits (n - 1)
  | d :: ds => [d] ++ js "." ++ ds ++ js "e+" ++ decimal_digits (n - 1)
  end.

(** The digits [m] of toFixed, filled with zeros on the left up to
    [fractionDigits + 1] characters, with the point before the last
    [fractionDigits] ones. *)
Definition insert_point (m : jsstring) (fractionDigits : nat) : jsstring :=
  match fractionDigits with
  | O => m
  | _ =>
      let m := replicate (fractionDigits + 1 - length m) 48%N ++ m in
      let k := length m in
      take (k - fractionDigits) m ++ js "." ++ drop (k - fractionDigits) m
  end.

(** [x.toFixed(fractionDigits)], for [fractionDigits] up to 100: [n] is
    the integer nearest to [x * 10^fractionDigits], the larger one of two. *)
Definition toFixed (x : Number) (fractionDigits : nat) : jsstring :=
  match x with
  | NaN => js "NaN"
  | Infinity negative => if negative then js "-Infinity" else js "Infinity"
  | Finite negative m e =>
      let s := if negative && (0 <? m) then js "-" else [] in
      let '(p, q) := ratio m e in
      if 10 ^ 21 * q <=? p
      then s ++ Number_toString_large m e
      else
        let n := (2 * 10 ^ Z.of_nat fractionDigits * p + q) / (2 * q) in
        s ++ insert_point (decimal_digits n) fractionDigits
  end.

(** *** formatDecimal *)

Definition formatDecimal (value : jsstring) : jsstring :=
  let num := parseFloat value in
  if isNaN num then js "0.00" else toFixed num 2.

(** A sign, at least one digit, a point and exactly two digits. *)
Definition two_decimals (s : jsstring) : Prop :=
  ∃ sign ip d1 d2,
    s = sign ++ ip ++ js "." ++ [d1; d2]
    ∧ (sign = [] ∨ sign = js "-")
    ∧ ip ≠ []
    ∧ Forall (λ c, is_digit c = true) (ip ++ [d1; d2]).

(** The Numbers that toFixed writes in fixed notation, and [NaN]. *)
Definition below_1e21 (x : Number) : Prop :=
  match x with
  | NaN => True
  | Infinity _ => False
  | Finite _ m e => (ratio m e).1 < 10 ^ 21 * (ratio m e).2
  end.

(** The finite Numbers as [Number_of_ratio] makes them. *)
Definition canonical (x : Number) : Prop :=
  match x with
  | Finite _ m e =>
      0 ≤ m < 2 ^ 53 ∧ -1074 ≤ e ≤ 971 ∧ (2 ^ 52 ≤ m ∨ e = -1074)
  | _ => True
  end.

(** The hundredths of a Number, as toFixed counts them. *)
Definition hundredths (m e : Z) : Z :=
  (200 * (ratio m e).1 + (ratio m e).2) / (2 * (ratio m e).2).

(** The text in which the database hands out a [decimal(10,2)] value
    that is a number, [c] hundredths.  The special value of the column
    has the text ["NaN"], which is no [decimal_text]. *)
Definition decimal_text (c : Z) : jsstring :=
  (if c <? 0 then js "-" else []) ++ insert_point (decimal_digits (Z.abs c)) 2.

(** *** Comparison of Numbers *)

(** The value of a finite Number as a signed fraction. *)
Definition signed_ratio (negative : bool) (m e : Z) : Z * Z :=
  ((if negative then - (ratio m e).1 else (ratio m e).1), (ratio m e).2).

(** How two Numbers compare; [None] when one of them is [NaN]. *)
Definition Number_compare (x y : Number) : option comparison :=
  match x, y with
  | NaN, _ | _, NaN => None
  | Infinity nx, Infinity ny =>
      Some (if nx then if ny then Eq else Lt else if ny then Gt else Eq)
  | Infinity nx, Finite _ _ _ => Some (if nx then Lt else Gt)
  | Finite _ _ _, Infinity ny => Some (if ny then Gt else Lt)
  | Finite nx mx ex, Finite ny my ey =>
      let x := signed_ratio nx mx ex in
      let y := signed_ratio ny my ey in
      Some (x.1 * y.2 ?= y.1 * x.2)
  end.

(** [x <= y] and [x > y] of the language *)
Definition Number_le (x y : Number) : bool :=
  match Number_compare x y with
  | Some Lt | Some Eq => true
  | _ => false
  end.



(** ** The guards of the client

    [client/src/components/BidForm.tsx], [client/src/pages/artwork-detail.tsx]
    and [client/src/pages/upload.tsx] hold the only checks on a bid and on
    a new listing. *)

(** [handleSubmit] of [BidForm]: the amount that is posted to
    [/api/bids], or [None] when the form shows "Invalid bid amount" and
    posts nothing. *)
Definition handleSubmit (bidAmount currentPrice : jsstring) : option jsstring :=
  let amount := parseFloat bidAmount in
  let current := parseFloat currentPrice in
  if Number_le amount current then None else Some bidAmount.

(** [canPlaceBid] of the listing page *)
Definition canPlaceBid (isAuthenticated : bool) (artwork : Artwork) (now : Time)
  : bool :=
  isAuthenticated && bool_decide (a_status artwork = ACTIVE)
  && (now <? a_endTime artwork).

(** [getArtworkStatusMessage(artwork).showBidForm] *)
Definition showBidForm (artwork : Artwork) (now : Time) : bool :=
  match a_status artwork with
  | SOLD => false
  | EXPIRED => false
  | status =>
      if a_endTime artwork <=? now then false
      else bool_decide (status = ACTIVE)
  end.

(** Whether the listing page renders the bid form. *)
Definition bid_form_rendered (isAuthenticated : bool) (artwork : Artwork)
    (now : Time) : bool :=
  showBidForm artwork now && canPlaceBid isAuthenticated artwork now.


(** * The rest of the server

    The users, the lists and the counts of [server/storage.ts], the
    middleware of [server/clerkAuth.ts] and [server/roleMiddleware.ts], and
    every route of [server/routes.ts], so that a request can be followed
    from the authentication to the answer.  The console of a [World]
    holds the lines of the storage layer, as before: the lines that the
    middleware and the handlers write are left out. *)

(** ** server/storage.ts: users *)

(** [UpsertUser], the type [typeof users.$inferInsert]: a column that has a
    default or is nullable may be absent ([None]); [name] may also be
    [null] ([Some None]).  [updatedAt] is left out, since both the insert
    and the update overwrite it. *)
Record UpsertUser := mkUpsertUser {
  uu_id : string;
  uu_clerkId : string;
  uu_email : string;
  uu_name : option (option string);
  uu_role : option UserRole;
  uu_createdAt : option Time }.

(** [.set({ role, updatedAt })] on one row *)
Definition with_role (r : UserRole) (ts : Time) (u : User) : User :=
  mkUser (u_clerkId u) (u_email u) (u_name u) r (u_createdAt u) ts.

(** [getUser]: the row under [id], or [undefined]. *)
Definition getUser (id : string) : M (option (string * User)) :=
  d <- read_db ;;
  ret ((λ u, (id, u)) <$> users d !! id).

(** [upsertUser]: [created] and [updated] are the two [new Date()] of
    [.values], [updated'] is the one of [.onConflictDoUpdate].  On a
    conflict only the columns that [userData] holds are written. *)
Definition upsertUser (userData : UpsertUser) (created updated updated' : Time)
  : M (string * User) :=
  d <- read_db ;;
  let row :=
    match users d !! uu_id userData with
    | None =>
        mkUser (uu_clerkId userData) (uu_email userData)
          (default None (uu_name userData))
          (default BIDDER (uu_role userData)) created updated
    | Some u =>
        mkUser (uu_clerkId userData) (uu_email userData)
          (default (u_name u) (uu_name userData))
          (default (u_role u) (uu_role userData))
          (default (u_createdAt u) (uu_createdAt userData)) updated'
    end in
  write_db (set_users (insert (uu_id userData) row)) ;;
  ret (uu_id userData, row).

(** [db.update(users).set({ role, updatedAt: new Date() })
       .where(eq(users.id, userId))] *)
Definition updateUserRole (userId : string) (role : UserRole) (now : Time)
  : M unit :=
  write_db (set_users (alter (with_role role now) userId)).

(** [getAllUsers]: every user, newest first. *)
Definition getAllUsers : M (list (string * User)) :=
  d <- read_db ;;
  ret (merge_sort
         (λ r1 r2, desc_time (Some (u_createdAt r1.2)) (Some (u_createdAt r2.2)))
         (map_to_list (users d))).

(** ** server/storage.ts: lists and counts *)

(** [getAllArtworks]: every listing with its artist, newest first. *)
Definition getAllArtworks : M (list (string * Artwork * option Person)) :=
  d <- read_db ;;
  let sorted := merge_sort
    (λ r1 r2, desc_time (Some (a_createdAt r1.2)) (Some (a_createdAt r2.2)))
    (map_to_list (artworks d)) in
  ret (map (λ r, (r.1, r.2, join_user d (a_artistId r.2))) sorted).

(** [getUserBids]: the bids of one bidder, newest first. *)
Definition getUserBids (userId : string) : M (list (string * Bid)) :=
  d <- read_db ;;
  ret (merge_sort
         (λ r1 r2, desc_time (b_createdAt r1.2) (b_createdAt r2.2))
         (map_to_list (filter (λ kv, b_bidderId kv.2 = userId) (bids d)))).

(** [getAllBids]: every bid with its bidder, newest first. *)
Definition getAllBids : M (list (string * Bid * option Person)) :=
  d <- read_db ;;
  let sorted := merge_sort
    (λ r1 r2, desc_time (b_createdAt r1.2) (b_createdAt r2.2))
    (map_to_list (bids d)) in
  ret (map (λ r, (r.1, r.2, join_user d (b_bidderId r.2))) sorted).

Record Stats := mkStats {
  s_totalArtworks : nat;
  s_totalArtists : nat;
  s_totalSales : string;
  s_totalCollectors : nat }.

(** [getStats]: three [count()]; the artists are counted on [users], the
    collectors on [bids]. *)
Definition getStats : M Stats :=
  d <- read_db ;;
  ret (mkStats (size (artworks d)) (size (users d)) "0.00" (size (bids d))).

Record AdminStats := mkAdminStats {
  as_totalUsers : nat;
  as_totalArtworks : nat;
  as_totalBids : nat;
  as_totalRevenue : jsstring }.

(** [SUM(amount)] over [bids]: [NULL] when there is no row. *)
Definition sum_amount (m : gmap string Bid) : option Cents :=
  if decide (m = ∅) then None
  else Some (map_fold (λ _ b acc, b_amount b + acc) 0 m).

(** [getAdminStats]: [totalRevenueData?.totalRevenue || "0.00"] is the
    text of the sum, or ["0.00"] for [NULL]. *)
Definition getAdminStats : M AdminStats :=
  d <- read_db ;;
  ret (mkAdminStats (size (users d)) (size (artworks d)) (size (bids d))
         (match sum_amount (bids d) with
          | Some total => decimal_text total
          | None => js "0.00"
          end)).

(** ** The answers of the routes *)

(** [req.user], as [requireAuth] sets it. *)
Record UserInfo := mkUserInfo {
  ui_id : string;
  ui_email : string;
  ui_firstName : string;
  ui_lastName : string;
  ui_username : string }.

(** A route answers with one of the answers above, with the 401 of
    [requireAuth] (its JSON has the key [error], that of the role
    middleware the key [message]), through the error handler of the
    application, or with 200 and one of the JSON values that follow. *)
Inductive Reply :=
  | Answer (r : Response)
  | Unauthorized (message : string)
  | Express_error
  | Json_health (timestamp : Time)
  | Json_user (user : string * User)
  | Json_req_user (user : UserInfo)
  | Json_role (role : UserRole)
  | Json_message (message : string)
  | Json_artwork (artwork : string * Artwork * option Person)
  | Json_artworks (artworks : list (string * Artwork * option Person))
  | Json_bids (bids : list (string * Bid * option Person))
  | Json_user_bids (bids : list (string * Bid))
  | Json_stats (stats : Stats)
  | Json_admin_stats (stats : AdminStats)
  | Json_users (users : list (string * User))
  | Json_fixed (message : string) (totalUsers fixedUsers : nat).

Definition answer (m : M Response) : M Reply :=
  r <- m ;; ret (Answer r).

(** ** server/roleMiddleware.ts *)

(** [requireRole(requiredRole)].  [next()] starts the handler and returns;
    what the handler throws later does not reach the [catch] of the
    middleware, so [next] stands after it. *)
Definition requireRole (requiredRole : UserRole) (userId : string)
    (next : M Reply) : M Reply :=
  refused <-
    try_catch
      (if decide (userId = "")
       then ret (Some (Answer (Unauthenticated "Authentication required")))
       else
         user <- getUser userId ;;
         match user with
         | None => ret (Some (Answer (NotFound "User not found")))
         | Some (_, user) =>
             let userRole := u_role user in
             if bool_decide (requiredRole = ADMIN)
                && bool_decide (userRole ≠ ADMIN)
             then ret (Some (Answer (Forbidden "Admin access required")))
             else if bool_decide (requiredRole = ARTIST)
                     && bool_decide (userRole ≠ ARTIST)
                     && bool_decide (userRole ≠ ADMIN)
             then ret (Some (Answer (Forbidden "Artist access required")))
             else ret None
         end)
      (λ _, ret (Some (Answer (ServerError "Internal server error")))) ;;
  match refused with
  | Some reply => ret reply
  | None => next
  end.

Definition permissions (userRole : UserRole) : list string :=
  match userRole with
  | BIDDER => ["bid"; "view"]
  | ARTIST => ["bid"; "view"; "upload"; "edit_own"; "delete_own"]
  | ADMIN => ["bid"; "view"; "upload"; "edit_own"; "delete_own"; "edit_any";
              "delete_any"; "manage_users"; "view_analytics"]
  end.

(** [hasPermission] of the server *)
Definition hasPermission (userRole : UserRole) (permission : string) : bool :=
  bool_decide (permission ∈ permissions userRole).

(** ** server/fileUpload.ts *)

(** [fileFilter]: whether the file is taken. *)
Definition fileFilter (mimetype : string) : bool :=
  bool_decide (mimetype ∈ ["image/jpeg"; "image/png"; "image/jpg"; "image/webp"]).

(** The [filename] of the disk storage; [id] is [nanoid()], [now] is
    [Date.now()], [extname] is [path.extname(file.originalname)]. *)
Definition filename (id : string) (now : Time) (extname : string) : string :=
  "temp_" +:+ id +:+ "-" +:+ pretty now +:+ extname.

(** [limits.fileSize] *)
Definition fileSize : Z := 5 * 1024 * 1024.

(** What [upload.single('image')] and [uploadToCloudinary] find: no file
    part, or a file of some type and size for which the asset store
    returns [secure_url] and [public_id], or fails. *)
Inductive Upload :=
  | NoFile
  | File (mimetype : string) (size : Z) (cloudinaryResult : option (string * string)).

(** ** server/clerkAuth.ts and the routes *)

(** The JSON of the Clerk API for one user: [email_addresses?.[0]
    ?.email_address], [first_name], [last_name] and [username], each
    [None] when it is absent. *)
Record ClerkUser := mkClerkUser {
  cu_email_address : option string;
  cu_first_name : option string;
  cu_last_name : option string;
  cu_username : option string }.

(** What a request brings to [requireAuth]: [req.auth?.()?.userId], the
    answer of the Clerk API ([None] when there is no secret key, when the
    call fails or when it is not [ok]), and the three clock readings of
    [upsertUser]. *)
Record Session := mkSession {
  auth_userId : option string;
  clerkUser : option ClerkUser;
  auth_created : Time;
  auth_updated : Time;
  auth_updated' : Time }.

(** A request: the route, its parameters and body, and the identifiers
    and clock readings that the handler draws. *)
Inductive Call :=
  | GET_health (now : Time)
  | GET_auth_user
  | GET_user_role (created updated updated' : Time)
  | PUT_user_role (role : option string) (now : Time)
  | GET_artworks (category search : option string)
  | GET_artworks_id (id : string)
  | POST_artworks (upload : Upload) (form : ArtworkForm) (id : string)
      (created updated : Time)
  | GET_user_artworks
  | DELETE_artworks_id (destroy_ok : string → bool) (id : string) (now : Time)
  | POST_admin_process_expired_artworks (now : Time) (stamp : string → Time)
  | GET_artworks_id_bids (id : string)
  | POST_bids (body : BidBody) (id : string) (now upd : Time)
  | GET_user_bids
  | GET_stats
  | GET_admin_stats
  | GET_admin_users
  | GET_admin_artworks
  | GET_admin_bids
  | PUT_admin_users_role (userId : string) (role : option string) (now : Time)
  | DELETE_admin_artworks_id (destroy_ok : string → bool) (id : string)
  | POST_admin_fix_user_roles (stamp : string → Time)
  | DELETE_user_account (now : string → Time)
  | DELETE_admin_users_id (userId : string).

(** [["BIDDER", "ARTIST", "ADMIN"].includes(role)], and the role that the
    text names; [None] also for a [role] that is absent or no string. *)
Definition role_of_body (role : option string) : option UserRole :=
  match role with
  | Some text =>
      if decide (text = "BIDDER") then Some BIDDER
      else if decide (text = "ARTIST") then Some ARTIST
      else if decide (text = "ADMIN") then Some ADMIN
      else None
  | None => None
  end.

Section routes.

(** [String.prototype.trim], and [LIKE] of the database with the pattern
    first. *)
Variable trim : string → string.
Variable like : string → string → bool.

(** [`${firstName} ${lastName}`.trim() || username || email] *)
Definition display_name (userInfo : UserInfo) : string :=
  let full := trim (ui_firstName userInfo +:+ " " +:+ ui_lastName userInfo) in
  if nonempty full then full
  else if nonempty (ui_username userInfo) then ui_username userInfo
  else ui_email userInfo.

(** [userInfo] of [requireAuth] *)
Definition userInfo_of (userId : string) (clerk : option ClerkUser) : UserInfo :=
  match clerk with
  | Some userData =>
      mkUserInfo userId (default "" (cu_email_address userData))
        (default "" (cu_first_name userData))
        (default "" (cu_last_name userData))
        (default "" (cu_username userData))
  | None => mkUserInfo userId "" "" "" ""
  end.

(** [requireAuth]: the user gets a row if there is none, and a new name
    if the Clerk API gives another one.  [next] stands after the [catch],
    as in [requireRole]. *)
Definition requireAuth (s : Session) (next : UserInfo → M Reply) : M Reply :=
  match auth_userId s with
  | None => ret (Unauthorized "Authentication required")
  | Some userId =>
      if decide (userId = "")
      then ret (Unauthorized "Authentication required")
      else
        let userInfo := userInfo_of userId (clerkUser s) in
        failed <-
          try_catch
            (dbUser <- getUser userId ;;
             match dbUser with
             | None =>
                 upsertUser
                   (mkUpsertUser userId userId (ui_email userInfo)
                      (Some (Some (display_name userInfo))) (Some BIDDER) None)
                   (auth_created s) (auth_updated s) (auth_updated' s) ;;
                 ret None
             | Some (_, dbUser) =>
                 let newName := display_name userInfo in
                 if nonempty newName
                    && bool_decide (Some newName ≠ u_name dbUser)
                 then
                   upsertUser
                     (mkUpsertUser userId userId
                        (if nonempty (ui_email userInfo)
                         then ui_email userInfo else u_email dbUser)
                        (Some (Some newName)) (Some (u_role dbUser)) None)
                     (auth_created s) (auth_updated s) (auth_updated' s) ;;
                   ret None
                 else ret None
             end)
            (λ _, ret (Some (Answer (ServerError "Internal server error")))) ;;
        match failed with
        | Some reply => ret reply
        | None => next userInfo
        end
  end.

(** [app.get('/api/auth/user', requireAuth, ...)] *)
Definition get_auth_user (user : UserInfo) : M Reply :=
  try_catch
    (row <- getUser (ui_id user) ;;
     ret (match row with
          | Some row => Json_user row
          | None => Json_req_user user
          end))
    (λ _, ret (Answer (ServerError "Failed to fetch user"))).

(** [app.get('/api/user/role', requireAuth, ...)] *)
Definition get_user_role (user : UserInfo) (created updated updated' : Time)
  : M Reply :=
  try_catch
    (row <- getUser (ui_id user) ;;
     match row with
     | Some (_, row) => ret (Json_role (u_role row))
     | None =>
         let userName :=
           if nonempty (ui_firstName user) && nonempty (ui_lastName user)
           then ui_firstName user +:+ " " +:+ ui_lastName user
           else if nonempty (ui_username user) then ui_username user
           else "Anonymous User" in
         row <- upsertUser
                  (mkUpsertUser (ui_id user) (ui_id user) (ui_email user)
                     (Some (Some userName)) (Some BIDDER) None)
                  created updated updated' ;;
         ret (Json_role (u_role row.2))
     end)
    (λ _, ret (Answer (ServerError "Failed to fetch user role"))).

(** [app.put('/api/user/role', requireAuth, ...)] *)
Definition put_user_role (userId : string) (role : option string) (now : Time)
  : M Reply :=
  try_catch
    (match role_of_body role with
     | None => ret (Answer (BadRequest "Invalid role"))
     | Some role =>
         updateUserRole userId role now ;;
         ret (Json_message "Role updated successfully")
     end)
    (λ _, ret (Answer (ServerError "Failed to update user role"))).

(** [getArtworks]: the listings with [isActive = true] that pass the
    filters, newest first.  A filter that is absent or empty is no
    filter. *)
Definition getArtworks (category search : option string)
  : M (list (string * Artwork * option Person)) :=
  d <- read_db ;;
  let whereConditions (a : Artwork) : bool :=
    bool_decide (a_isActive a = Some true)
    && match category with
       | Some category =>
           if nonempty category
           then bool_decide (a_category a = Some category) else true
       | None => true
       end
    && match search with
       | Some search =>
           if nonempty search
           then like ("%" +:+ search +:+ "%") (a_title a)
                || like ("%" +:+ search +:+ "%") (a_description a)
           else true
       | None => true
       end in
  let sorted := merge_sort
    (λ r1 r2, desc_time (Some (a_createdAt r1.2)) (Some (a_createdAt r2.2)))
    (map_to_list (filter (λ kv, whereConditions kv.2 = true) (artworks d))) in
  ret (map (λ r, (r.1, r.2, join_user d (a_artistId r.2))) sorted).

(** [app.get('/api/artworks', ...)] *)
Definition get_artworks (category search : option string) : M Reply :=
  try_catch
    (artworks <- getArtworks category search ;; ret (Json_artworks artworks))
    (λ _, ret (Answer (ServerError "Failed to fetch artworks"))).

(** [app.get('/api/artworks/:id', ...)] *)
Definition get_artworks_id (id : string) : M Reply :=
  try_catch
    (artwork <- getArtwork id ;;
     match artwork with
     | None => ret (Answer (NotFound "Artwork not found"))
     | Some artwork => ret (Json_artwork artwork)
     end)
    (λ _, ret (Answer (ServerError "Failed to fetch artwork"))).

(** [app.post('/api/artworks', requireAuth, requireRole('ARTIST'),
    upload.single('image'), ...)]: a file that [fileFilter] refuses or
    that is larger than [limits.fileSize] ends at the error handler of
    the application; the handler is [post_artworks] once the image is
    stored. *)
Definition post_artworks_upload (userId : string) (upload : Upload)
    (form : ArtworkForm) (id : string) (created updated : Time) : M Reply :=
  requireRole ARTIST userId
    (match upload with
     | NoFile => ret (Answer (BadRequest "Image file is required"))
     | File mimetype size cloudinaryResult =>
         if negb (fileFilter mimetype) || (fileSize <? size)
         then ret Express_error
         else
           match cloudinaryResult with
           | None =>
               ret (Answer (ServerError "Failed to upload image to cloud storage"))
           | Some (secure_url, public_id) =>
               answer (post_artworks userId form secure_url public_id id
                         created updated)
           end
     end).

(** [app.get('/api/user/artworks', requireAuth, ...)] *)
Definition get_user_artworks (userId : string) : M Reply :=
  try_catch
    (artworks <- getUserArtworks userId ;; ret (Json_artworks artworks))
    (λ _, ret (Answer (ServerError "Failed to fetch user artworks"))).

(** [app.post('/api/admin/process-expired-artworks', requireAuth, ...)] *)
Definition post_admin_process_expired_artworks (now : Time)
    (stamp : string → Time) : M Reply :=
  try_catch
    (processExpiredArtworks now stamp ;;
     ret (Json_message "Expired artworks processed successfully"))
    (λ _, ret (Answer (ServerError "Failed to process expired artworks"))).

(** [app.get('/api/artworks/:id/bids', ...)] *)
Definition get_artworks_id_bids (id : string) : M Reply :=
  try_catch
    (bids <- getArtworkBids id ;; ret (Json_bids bids))
    (λ _, ret (Answer (ServerError "Failed to fetch bids"))).

(** [app.get('/api/user/bids', requireAuth, ...)] *)
Definition get_user_bids (userId : string) : M Reply :=
  try_catch
    (bids <- getUserBids userId ;; ret (Json_user_bids bids))
    (λ _, ret (Answer (ServerError "Failed to fetch user bids"))).

(** [app.get('/api/stats', ...)] *)
Definition get_stats : M Reply :=
  try_catch
    (stats <- getStats ;; ret (Json_stats stats))
    (λ _, ret (Answer (ServerError "Failed to fetch stats"))).

(** [app.get('/api/admin/stats', requireAuth, requireRole('ADMIN'), ...)] *)
Definition get_admin_stats (userId : string) : M Reply :=
  requireRole ADMIN userId
    (try_catch
       (stats <- getAdminStats ;; ret (Json_admin_stats stats))
       (λ _, ret (Answer (ServerError "Failed to fetch admin stats")))).

(** [app.get('/api/admin/users', requireAuth, requireRole('ADMIN'), ...)] *)
Definition get_admin_users (userId : string) : M Reply :=
  requireRole ADMIN userId
    (try_catch
       (users <- getAllUsers ;; ret (Json_users users))
       (λ _, ret (Answer (ServerError "Failed to fetch users")))).

(** [app.get('/api/admin/artworks', requireAuth, requireRole('ADMIN'), ...)] *)
Definition get_admin_artworks (userId : string) : M Reply :=
  requireRole ADMIN userId
    (try_catch
       (artworks <- getAllArtworks ;; ret (Json_artworks artworks))
       (λ _, ret (Answer (ServerError "Failed to fetch artworks")))).

(** [app.get('/api/admin/bids', requireAuth, requireRole('ADMIN'), ...)] *)
Definition get_admin_bids (userId : string) : M Reply :=
  requireRole ADMIN userId
    (try_catch
       (bids <- getAllBids ;; ret (Json_bids bids))
       (λ _, ret (Answer (ServerError "Failed to fetch bids")))).

(** [app.put('/api/admin/users/:userId/role', requireAuth,
    requireRole('ADMIN'), ...)] *)
Definition put_admin_users_role (adminId userId : string) (role : option string)
    (now : Time) : M Reply :=
  requireRole ADMIN adminId
    (try_catch
       (match role_of_body role with
        | None => ret (Answer (BadRequest "Invalid role"))
        | Some role =>
            updateUserRole userId role now ;;
            ret (Json_message "User role updated successfully")
        end)
       (λ _, ret (Answer (ServerError "Failed to update user role")))).

(** The loop of [POST /api/admin/fix-user-roles]; [stamp id] is the clock
    reading of the update of user [id]. *)
Fixpoint fix_roles (stamp : string → Time) (allUsers : list (string * User))
    (fixedCount : nat) : M nat :=
  match allUsers with
  | [] => ret fixedCount
  | (id, user) :: rest =>
      if decide (u_role user ≠ ADMIN)
      then updateUserRole id BIDDER (stamp id) ;;
           fix_roles stamp rest (S fixedCount)
      else fix_roles stamp rest fixedCount
  end.

(** [app.post('/api/admin/fix-user-roles', requireAuth,
    requireRole('ADMIN'), ...)] *)
Definition post_admin_fix_user_roles (adminId : string) (stamp : string → Time)
  : M Reply :=
  requireRole ADMIN adminId
    (try_catch
       (allUsers <- getAllUsers ;;
        fixedCount <- fix_roles stamp allUsers 0 ;;
        ret (Json_fixed ("Successfully fixed " +:+ pretty fixedCount
                         +:+ " user roles")
               (length allUsers) fixedCount))
       (λ _, ret (Answer (ServerError "Failed to fix user roles")))).

(** [registerRoutes]: the route of a request, behind its middleware. *)
Definition serve (s : Session) (c : Call) : M Reply :=
  match c with
  | GET_health now => ret (Json_health now)
  | GET_auth_user => requireAuth s get_auth_user
  | GET_user_role created updated updated' =>
      requireAuth s (λ user, get_user_role user created updated updated')
  | PUT_user_role role now =>
      requireAuth s (λ user, put_user_role (ui_id user) role now)
  | GET_artworks category search => get_artworks category search
  | GET_artworks_id id => get_artworks_id id
  | POST_artworks upload form id created updated =>
      requireAuth s
        (λ user, post_artworks_upload (ui_id user) upload form id created updated)
  | GET_user_artworks => requireAuth s (λ user, get_user_artworks (ui_id user))
  | DELETE_artworks_id destroy_ok id now =>
      requireAuth s
        (λ user, answer (delete_artworks_id destroy_ok (ui_id user) id now))
  | POST_admin_process_expired_artworks now stamp =>
      requireAuth s (λ _, post_admin_process_expired_artworks now stamp)
  | GET_artworks_id_bids id => get_artworks_id_bids id
  | POST_bids body id now upd =>
      requireAuth s (λ user, answer (post_bids (ui_id user) body id now upd))
  | GET_user_bids => requireAuth s (λ user, get_user_bids (ui_id user))
  | GET_stats => get_stats
  | GET_admin_stats => requireAuth s (λ user, get_admin_stats (ui_id user))
  | GET_admin_users => requireAuth s (λ user, get_admin_users (ui_id user))
  | GET_admin_artworks => requireAuth s (λ user, get_admin_artworks (ui_id user))
  | GET_admin_bids => requireAuth s (λ user, get_admin_bids (ui_id user))
  | PUT_admin_users_role userId role now =>
      requireAuth s
        (λ user, put_admin_users_role (ui_id user) userId role now)
  | DELETE_admin_artworks_id destroy_ok id =>
      requireAuth s
        (λ user, answer (delete_admin_artworks_id destroy_ok (ui_id user) id))
  | POST_admin_fix_user_roles stamp =>
      requireAuth s (λ user, post_admin_fix_user_roles (ui_id user) stamp)
  | DELETE_user_account now =>
      requireAuth s (λ user, answer (delete_user_account (ui_id user) now))
  | DELETE_admin_users_id userId =>
      requireAuth s (λ user, answer (delete_admin_users_id (ui_id user) userId))
  end.

End routes.

(** ** What a request may write *)

(** The row that [requireAuth] leaves for the user. *)
Definition authenticated_row (trim : string → string) (s : Session)
    (userId : string) (d : DB) : User :=
  let userInfo := userInfo_of userId (clerkUser s) in
  let newName := display_name trim userInfo in
  match users d !! userId with
  | None =>
      mkUser userId (ui_email userInfo) (Some newName) BIDDER
        (auth_created s) (auth_updated s)
  | Some u =>
      if nonempty newName && bool_decide (Some newName ≠ u_name u)
      then mkUser userId
             (if nonempty (ui_email userInfo) then ui_email userInfo
              else u_email u)
             (Some newName) (u_role u) (u_createdAt u) (auth_updated' s)
      else u
  end.

(** One write of a request on the database: a user row written, a role
    set, a listing inserted for a stored artist, a bid inserted for a
    stored bidder together with the price of its listing, a listing
    deleted, a sweep, or the cascade of an account. *)
Inductive write (d : DB) : DB → Prop :=
  | write_user (userId : string) (row : User) :
      write d (set_users (insert userId row) d)
  | write_role (userId : string) (role : UserRole) (now : Time) :
      write d (set_users (alter (with_role role now) userId) d)
  | write_listing (id : string) (row : Artwork) :
      artworks d !! id = None →
      is_Some (users d !! a_artistId row) →
      a_status row = ACTIVE →
      a_isActive row = Some true →
      a_currentPrice row = a_startingPrice row →
      write d (set_artworks (insert id row) d)
  | write_bid (id : string) (row : Bid) (upd : Time) :
      bids d !! id = None →
      is_Some (users d !! b_bidderId row) →
      write d
        (mkDB (users d)
           (alter (with_currentPrice (b_amount row) upd) (b_artworkId row)
              (artworks d))
           (<[id := row]> (bids d)))
  | write_delete (id : string) :
      write d (set_artworks (delete id) d)
  | write_sweep (now : Time) (stamp : string → Time) (d' : DB) :
      users d' = users d →
      bids d' = bids d →
      (∀ j, artworks d' !! j = sweep_row now stamp d j <$> artworks d !! j) →
      write d d'
  | write_cascade (userId : string) :
      write d (cascade_db userId d).

(** A request writes rows of users, and then at most once on the listings
    and the bids. *)
Definition request_writes (d d' : DB) : Prop :=
  ∃ d1, rtc write d d1
    ∧ artworks d1 = artworks d
    ∧ bids d1 = bids d
    ∧ (d' = d1 ∨ write d1 d').

(** Every bid names a bidder that is stored, and every listing an artist
    that is stored. *)
Definition users_referenced (d : DB) : Prop :=
  (∀ k b, bids d !! k = Some b → is_Some (users d !! b_bidderId b))
  ∧ (∀ id a, artworks d !! id = Some a → is_Some (users d !! a_artistId a)).

(** The columns of a listing that no request writes, and the moves of its
    status that a request makes. *)
Definition listing_kept (a a' : Artwork) : Prop :=
  a_title a' = a_title a
  ∧ a_description a' = a_description a
  ∧ a_imageUrl a' = a_imageUrl a
  ∧ a_imagePublicId a' = a_imagePublicId a
  ∧ a_category a' = a_category a
  ∧ a_startingPrice a' = a_startingPrice a
  ∧ a_auctionStart a' = a_auctionStart a
  ∧ a_endTime a' = a_endTime a
  ∧ a_isActive a' = a_isActive a
  ∧ a_artistId a' = a_artistId a
  ∧ a_createdAt a' = a_createdAt a
  ∧ (a_status a' = a_status a
     ∨ a_status a = ACTIVE ∧ (a_status a' = SOLD ∨ a_status a' = EXPIRED)).

(** What holds of a listing that a request has made: it is on the public
    list and it is not PENDING. *)
Definition listings_public (d : DB) : Prop :=
  ∀ id a, artworks d !! id = Some a →
    a_isActive a = Some true ∧ a_status a ≠ PENDING.
(** * The temporary files and the expiration service *)

(** ** server/tempFileCleanup.ts *)

Definition TEMP_FILE_MAX_AGE : Z := 60 * 60 * 1000.

(** The uploads directory, [None] when it is not there, with the time of
    the last change of each entry, and the console. *)
Record Disk := mkDisk {
  uploadsDir : option (gmap string Time);
  disk_console : list string }.

(** One turn of [tempFiles.forEach]: [now file] is [Date.now()] of the
    turn, [unlink_ok file] tells whether [fs.unlinkSync] removes the
    entry. *)
Definition cleanup_file (unlink_ok : string → bool) (now : string → Time)
    (st : gmap string Time * nat * list string) (file : string * Time)
  : gmap string Time * nat * list string :=
  let fileAge := now file.1 - file.2 in
  if TEMP_FILE_MAX_AGE <? fileAge
  then
    if unlink_ok file.1
    then (delete file.1 st.1.1, S st.1.2,
          st.2 ++ ["Cleaned up old temp file: " +:+ file.1])
    else (st.1.1, st.1.2, st.2 ++ ["Failed to cleanup temp file: " +:+ file.1])
  else st.

Definition cleanupOrphanedTempFiles (unlink_ok : string → bool)
    (now : string → Time) (disk : Disk) : Disk :=
  match uploadsDir disk with
  | None => disk
  | Some dir =>
      let files := map_to_list dir in
      let tempFiles := filter (λ file, String.prefix "temp_" file.1 = true) files in
      if decide (length tempFiles = 0%nat) then disk
      else
        let lines :=
          disk_console disk
          ++ ["Checking " +:+ pretty (length tempFiles)
              +:+ " temporary files for cleanup..."] in
        let st := foldl (cleanup_file unlink_ok now) (dir, 0%nat, lines) tempFiles in
        mkDisk (Some st.1.1)
          (if decide (0 < st.1.2)%nat
           then st.2 ++ ["Cleaned up " +:+ pretty st.1.2
                         +:+ " orphaned temporary files"]
           else st.2)
  end.

(** ** server/artworkExpirationService.ts *)

(** The process: the database and the console, [this.intervalId], and
    the intervals that are set. *)
Record Process := mkProcess {
  world : World;
  intervalId : option nat;
  intervals : gset nat }.

(** The private [processExpiredArtworks] of the service *)
Definition service_processExpiredArtworks (now : Time) (stamp : string → Time)
  : M unit :=
  try_catch (processExpiredArtworks now stamp)
    (λ _, log "Error processing expired artworks:").

(** [start()]: [setInterval] returns a handle that is not in use. *)
Definition start (now : Time) (stamp : string → Time) (p : Process) : Process :=
  match intervalId p with
  | Some _ =>
      mkProcess (log "Artwork expiration service is already running" (world p)).2
        (intervalId p) (intervals p)
  | None =>
      let w1 := (log "Starting artwork expiration service..." (world p)).2 in
      let w2 := (service_processExpiredArtworks now stamp w1).2 in
      let handle := fresh (intervals p) in
      mkProcess w2 (Some handle) ({[ handle ]} ∪ intervals p)
  end.

(** [stop()] *)
Definition stop (p : Process) : Process :=
  match intervalId p with
  | Some handle =>
      mkProcess (log "Artwork expiration service stopped" (world p)).2
        None (intervals p ∖ {[ handle ]})
  | None => p
  end.

(** An interval fires: its callback runs if the interval is still set. *)
Definition tick (handle : nat) (now : Time) (stamp : string → Time) (p : Process)
  : Process :=
  if decide (handle ∈ intervals p)
  then mkProcess (service_processExpiredArtworks now stamp (world p)).2
         (intervalId p) (intervals p)
  else p.

Inductive ServiceEvent :=
  | Start (now : Time) (stamp : string → Time)
  | Stop
  | Tick (handle : nat) (now : Time) (stamp : string → Time).

Definition service_step (p : Process) (e : ServiceEvent) : Process :=
  match e with
  | Start now stamp => start now stamp p
  | Stop => stop p
  | Tick handle now stamp => tick handle now stamp p
  end.

(** The process when the server comes up. *)
Definition process_at_boot (w : World) : Process := mkProcess w None ∅.
(** * The client

    [client/src/lib/roleUtils.ts], [client/src/lib/priceUtils.ts] and the
    helpers of the listing card and of the dashboard. *)

Module roleUtils.

(** The keys of an entry of [PERMISSIONS] *)
Module Permission.

Inductive Key :=
  | canBid
  | canViewArtworks
  | canViewProfile
  | canUploadArtworks
  | canDeleteOwnArtworks
  | canEditOwnArtworks
  | canAccessDashboard
  | canViewAllUsers
  | canDeleteAnyArtwork
  | canViewAllBids
  | canManageUsers
  | canViewAnalytics.

End Permission.

(** An entry of [PERMISSIONS] gives a boolean to each key. *)
Definition PERMISSIONS (role : UserRole) (key : Permission.Key) : bool :=
  match role with
  | BIDDER =>
      match key with
      | Permission.canBid => true
      | Permission.canViewArtworks => true
      | Permission.canViewProfile => true
      | Permission.canUploadArtworks => false
      | Permission.canDeleteOwnArtworks => false
      | Permission.canEditOwnArtworks => false
      | Permission.canAccessDashboard => true
      | Permission.canViewAllUsers => false
      | Permission.canDeleteAnyArtwork => false
      | Permission.canViewAllBids => false
      | Permission.canManageUsers => false
      | Permission.canViewAnalytics => false
      end
  | ARTIST =>
      match key with
      | Permission.canBid => true
      | Permission.canViewArtworks => true
      | Permission.canViewProfile => true
      | Permission.canUploadArtworks => true
      | Permission.canDeleteOwnArtworks => true
      | Permission.canEditOwnArtworks => true
      | Permission.canAccessDashboard => true
      | Permission.canViewAllUsers => false
      | Permission.canDeleteAnyArtwork => false
      | Permission.canViewAllBids => false
      | Permission.canManageUsers => false
      | Permission.canViewAnalytics => false
      end
  | ADMIN =>
      match key with
      | Permission.canBid => true
      | Permission.canViewArtworks => true
      | Permission.canViewProfile => true
      | Permission.canUploadArtworks => true
      | Permission.canDeleteOwnArtworks => true
      | Permission.canEditOwnArtworks => true
      | Permission.canAccessDashboard => true
      | Permission.canViewAllUsers => true
      | Permission.canDeleteAnyArtwork => true
      | Permission.canViewAllBids => true
      | Permission.canManageUsers => true
      | Permission.canViewAnalytics => true
      end
  end.

(** [PERMISSIONS[role] || PERMISSIONS.BIDDER]: each of the three roles
    has its entry. *)
Definition getUserPermissions (role : UserRole) : Permission.Key → bool :=
  PERMISSIONS role.

Definition hasPermission (userRole : UserRole) (permission : Permission.Key)
  : bool :=
  let permissions := getUserPermissions userRole in
  permissions permission.

Definition canModifyArtwork (userRole : UserRole) (userId artworkOwnerId : string)
  : bool :=
  if decide (userRole = ADMIN) then true
  else if decide (userRole = ARTIST ∧ userId = artworkOwnerId) then true
  else false.

Definition canDeleteArtwork (userRole : UserRole) (userId artworkOwnerId : string)
  : bool :=
  if decide (userRole = ADMIN) then true
  else if decide (userRole = ARTIST ∧ userId = artworkOwnerId) then true
  else false.

Definition isAdmin (userRole : UserRole) : bool :=
  bool_decide (userRole = ADMIN).

Definition canUploadArtworks (userRole : UserRole) : bool :=
  bool_decide (userRole = ARTIST) || bool_decide (userRole = ADMIN).

Definition getRoleDisplayName (role : UserRole) : string :=
  match role with
  | BIDDER => "Bidder"
  | ARTIST => "Artist"
  | ADMIN => "Admin"
  end.

End roleUtils.

Module priceUtils.

(** [formatPrice]: a price is a string or a number. *)
Definition formatPrice (price : jsstring + Number) : jsstring :=
  let numPrice :=
    match price with
    | inl text => parseFloat text
    | inr number => number
    end in
  if isNaN numPrice then js "0.00" else toFixed numPrice 2.

(** [formatCurrency]; [currency] defaults to ["$"]. *)
Definition formatCurrency (price : jsstring + Number) (currency : jsstring)
  : jsstring :=
  currency ++ formatPrice price.

End priceUtils.

(** ** Time values as Numbers *)

(** [Math.floor(a / b)] for two Numbers that hold the integers [a >= 0]
    and [b > 0]: the quotient is rounded to a Number, then floored.  No
    quotient of two time values is large enough to round to
    [Infinity]. *)
Definition Math_floor_quotient (a b : Z) : Z :=
  match Number_of_ratio false a b with
  | Finite _ m e => (ratio m e).1 / (ratio m e).2
  | _ => 0
  end.

(** [end.getTime() - now.getTime()]: the difference of two integers,
    rounded to a Number; the Number holds an integer. *)
Definition time_difference (t now : Time) : Z :=
  if t - now <? 0 then - Math_floor_quotient (now - t) 1
  else Math_floor_quotient (t - now) 1.

(** The listing card ([ArtworkCard]): [status] is optional in its props,
    [endTime] is what [new Date(artwork.endTime)] makes of the text. *)
Module ArtworkCard.

(** [getTimeLeft]; with an invalid date every Number is [NaN]. *)
Definition getTimeLeft (endTime : JSDate) (now : Time) : string :=
  match endTime with
  | InvalidDate => "NaNh NaNm"
  | ValidDate t =>
      let diff := time_difference t now in
      if diff <=? 0 then "Ended"
      else
        let hours := Math_floor_quotient diff (1000 * 60 * 60) in
        let minutes :=
          Math_floor_quotient (diff mod (1000 * 60 * 60)) (1000 * 60) in
        pretty hours +:+ "h " +:+ pretty minutes +:+ "m"
  end.

(** [getArtworkStatus().label] *)
Definition getArtworkStatus (status : option ArtworkStatus) (endTime : JSDate)
    (now : Time) : string :=
  if decide (status = Some SOLD) then "Sold"
  else if decide (status = Some EXPIRED) then "Expired"
  else if match endTime with
          | ValidDate t => t <=? now
          | InvalidDate => false
          end
  then "Ended"
  else if decide (status = Some ACTIVE) then "Active"
  else "Inactive".

Definition canBid (status : option ArtworkStatus) (endTime : JSDate) (now : Time)
  : bool :=
  bool_decide (status = Some ACTIVE)
  && match endTime with
     | ValidDate t => now <? t
     | InvalidDate => false
     end.

End ArtworkCard.

(** The page of one listing ([ArtworkDetail]); [canPlaceBid] and
    [showBidForm] stand with the guards of the client above. *)
Module ArtworkDetail.

Definition getTimeLeft (endTime : JSDate) (now : Time) : string :=
  match endTime with
  | InvalidDate => "Invalid Date"
  | ValidDate t =>
      let diff := time_difference t now in
      if diff <=? 0 then "Auction Ended"
      else
        let days := Math_floor_quotient diff (1000 * 60 * 60 * 24) in
        let hours :=
          Math_floor_quotient (diff mod (1000 * 60 * 60 * 24)) (1000 * 60 * 60) in
        let minutes :=
          Math_floor_quotient (diff mod (1000 * 60 * 60)) (1000 * 60) in
        let seconds := Math_floor_quotient (diff mod (1000 * 60)) 1000 in
        if 0 <? days
        then pretty days +:+ "d " +:+ pretty hours +:+ "h " +:+ pretty minutes
             +:+ "m"
        else if 0 <? hours
        then pretty hours +:+ "h " +:+ pretty minutes +:+ "m " +:+ pretty seconds
             +:+ "s"
        else pretty minutes +:+ "m " +:+ pretty seconds +:+ "s"
  end.

End ArtworkDetail.

(** The dashboard of an artist or a bidder ([Dashboard]). *)
Module Dashboard.

(** [getArtworkStatus(artwork).label] *)
Definition getArtworkStatus (artwork : Artwork) (now : Time) : string :=
  if decide (a_status artwork = SOLD) then "Sold"
  else if decide (a_status artwork = EXPIRED) then "Expired"
  else if a_endTime artwork <=? now then "Ended"
  else if decide (a_isActive artwork = Some true) then "Active"
  else "Inactive".

(** [canDeleteArtworkItem]; [userId] is [user?.id || ""]. *)
Definition canDeleteArtworkItem (userRole : UserRole) (userId : string)
    (artwork : Artwork) (now : Time) : bool :=
  roleUtils.canDeleteArtwork userRole userId (a_artistId artwork)
  && (0 <? a_endTime artwork - now)
  && bool_decide (a_status artwork = ACTIVE).

End Dashboard.
(** ** Sample data for the routes *)

Definition artist_user : User :=
  mkUser "artist1" "ann@artsy.test" (Some "Ann") ARTIST 0 0.

Definition bidder_user : User :=
  mkUser "bob" "bob@artsy.test" (Some "Bob") BIDDER 0 0.

(** Three users, the open listing and the sold one with its bid. *)
Definition world_members : World :=
  mkWorld
    (mkDB {[ "root" := admin_user; "artist1" := artist_user; "bob" := bidder_user ]}
       {[ "L1" := listing100; "L2" := sold200 ]}
       {[ "b1" := bid200 ]}) [].

(** A session of a user for whom the Clerk API is not asked. *)
Definition session_of (userId : string) : Session :=
  mkSession (Some userId) None 100 101 102.

(** [String.prototype.trim] on a text of ASCII characters: the white
    space and the line ends at both ends are removed. *)
Definition is_white_space (c : Ascii.ascii) : bool :=
  let n := Ascii.nat_of_ascii c in
  ((9 <=? n) && (n <=? 13))%nat || (n =? 32)%nat.

Fixpoint trim_start_ascii (text : string) : string :=
  match text with
  | String c rest => if is_white_space c then trim_start_ascii rest else text
  | EmptyString => EmptyString
  end.

Fixpoint trim_end_ascii (text : string) : string :=
  match text with
  | String c rest =>
      match trim_end_ascii rest with
      | EmptyString => if is_white_space c then EmptyString else String c EmptyString
      | rest' => String c rest'
      end
  | EmptyString => EmptyString
  end.

Definition trim_ascii (text : string) : string :=
  trim_end_ascii (trim_start_ascii text).

(** [LIKE] of the database on texts of ASCII characters: [%] stands for
    any text (code 37), [_] for any one character (code 95), and a
    backslash (code 92) takes the character after it literally.  A pattern that ends with a lone
    backslash is an error of the database; it matches nothing here. *)
Fixpoint like_ascii (pattern text : string) : bool :=
  match pattern with
  | EmptyString =>
      match text with
      | EmptyString => true
      | String _ _ => false
      end
  | String p pattern' =>
      if (Ascii.nat_of_ascii p =? 37)%nat
      then
        (fix from (text : string) : bool :=
           like_ascii pattern' text
           || match text with
              | String _ text' => from text'
              | EmptyString => false
              end) text
      else if (Ascii.nat_of_ascii p =? 95)%nat
      then
        match text with
        | String _ text' => like_ascii pattern' text'
        | EmptyString => false
        end
      else if (Ascii.nat_of_ascii p =? 92)%nat
      then
        match pattern' with
        | String q pattern'' =>
            match text with
            | String c text' => Ascii.eqb q c && like_ascii pattern'' text'
            | EmptyString => false
            end
        | EmptyString => false
        end
      else
        match text with
        | String c text' => Ascii.eqb p c && like_ascii pattern' text'
        | EmptyString => false
        end
  end.

(** * Properties of the storage layer and the routes *)

Arguments fits_decimal : simpl never.

Ltac unfold_M :=
  unfold post_bids, createBid, insert_bid, insertBidSchema_parse,
    updateArtworkPrice, updateArtworkStatus, try_catch, bind, ret, throw,
    read_db, write_db, log in *.

(** ** Bids *)

Lemma createBid_commits (w : World) (bidData : InsertBid) (id : string)
    (now upd : Time) :
  bids (db w) !! id = None →
  fits_decimal (ib_amount bidData) = true →
  let row := mkBid (ib_artworkId bidData) (ib_bidderId bidData)
               (ib_amount bidData) (Some now) in
  createBid bidData id now upd w =
    (inr (id, row),
     mkWorld
       (mkDB (users (db w))
          (alter (with_currentPrice (ib_amount bidData) upd)
             (ib_artworkId bidData) (artworks (db w)))
          (<[id := row]> (bids (db w))))
       (console w)).
Proof.
  intros Hfresh Hfits. unfold_M. cbn. rewrite Hfresh, Hfits. reflexivity.
Qed.

Lemma post_bids_commits (w : World) (userId artworkId id : string)
    (amount : Cents) (now upd : Time) :
  bids (db w) !! id = None →
  fits_decimal amount = true →
  let row := mkBid artworkId userId amount (Some now) in
  post_bids userId (mkBidBody (Some artworkId) (Some amount)) id now upd w =
    (inr (Created_bid (id, row)),
     mkWorld
       (mkDB (users (db w))
          (alter (with_currentPrice amount upd) artworkId (artworks (db w)))
          (<[id := row]> (bids (db w))))
       (console w)).
Proof.
  intros Hfresh Hfits row. unfold post_bids, try_catch, bind at 1. simpl.
  pose proof (createBid_commits w (mkInsertBid artworkId userId amount) id now upd
                Hfresh Hfits) as H.
  simpl in H. unfold insertBidSchema_parse, bind, ret. simpl.
  rewrite H. reflexivity.
Qed.

(** A refused submission leaves the database as it was. *)
Lemma post_bids_refusal_keeps_db (w : World) (userId : string) (body : BidBody)
    (id : string) (now upd : Time) (message : string) :
  (post_bids userId body id now upd w).1 = inr (ServerError message) →
  db (post_bids userId body id now upd w).2 = db w.
Proof.
  unfold_M. destruct body as [[artworkId|] [amount|]]; cbn; try reflexivity.
  destruct (bids (db w) !! id); cbn; try reflexivity.
  destruct (fits_decimal amount) eqn:Hfits; cbn; try reflexivity.
  discriminate.
Qed.

Lemma alter_at_row {A} (f : A → A) (k : string) (a : A) (m : gmap string A) :
  m !! k = Some a → alter f k m = <[k := f a]> m.
Proof.
  intros H. apply map_eq. intros j. rewrite lookup_alter, lookup_insert.
  destruct (decide (k = j)) as [->|]; [rewrite H|]; reflexivity.
Qed.

(** ** The expiration sweep *)

Lemma has_bid_size (d : DB) (id : string) :
  has_bid d id ↔ (0 < size (bids_on d id))%nat.
Proof.
  unfold has_bid, bids_on. split.
  - intros (k & b & Hk & Hb).
    assert (size (filter (λ kv : string * Bid, b_artworkId kv.2 = id) (bids d)) ≠ 0%nat);
      [|lia].
    apply (map_size_ne_0_lookup_2 _ k). exists b.
    apply map_lookup_filter_Some. split; assumption.
  - intros Hsz.
    destruct (map_size_ne_0_lookup_1
                (filter (λ kv : string * Bid, b_artworkId kv.2 = id) (bids d)))
      as (k & b & Hk); [lia|].
    apply map_lookup_filter_Some in Hk as [Hk Hb]. exists k, b. split; assumption.
Qed.

Lemma getArtworkBids_run (id : string) (w : World) :
  ∃ l, getArtworkBids id w = (inr l, w) ∧ length l = size (bids_on (db w) id).
Proof.
  eexists. split; [reflexivity|].
  rewrite length_map, merge_sort_Permutation, length_map_to_list. reflexivity.
Qed.

Lemma with_status_twice (s : ArtworkStatus) (ts : Time) (a : Artwork) :
  with_status s ts (with_status s ts a) = with_status s ts a.
Proof. reflexivity. Qed.

Section sweep.
Variable stamp : string → Time.

Lemma sweep_body_run (artwork : string * Artwork) (w : World) :
  ∃ w', sweep_body stamp artwork w = (inr tt, w')
    ∧ users (db w') = users (db w)
    ∧ bids (db w') = bids (db w)
    ∧ artworks (db w')
        = alter (with_status (sweep_status (db w) artwork.1) (stamp artwork.1))
            artwork.1 (artworks (db w)).
Proof.
  destruct (getArtworkBids_run artwork.1 w) as (l & Hrun & Hlen).
  unfold sweep_body, bind at 1. rewrite Hrun. unfold sweep_status.
  rewrite <- Hlen. destruct (decide (0 < length l)%nat);
    eexists; (split; [reflexivity|]); repeat split.
Qed.

Lemma sweep_loop_run (l : list (string * Artwork)) (w : World) :
  ∃ w', for_of l (sweep_body stamp) w = (inr tt, w')
    ∧ users (db w') = users (db w)
    ∧ bids (db w') = bids (db w)
    ∧ ∀ j, artworks (db w') !! j =
             if decide (j ∈ l.*1)
             then with_status (sweep_status (db w) j) (stamp j)
                    <$> artworks (db w) !! j
             else artworks (db w) !! j.
Proof.
  revert w. induction l as [|x l IH]; intros w.
  - exists w. do 3 (split; [reflexivity|]). intros j.
    rewrite decide_False; [reflexivity|]. cbn. apply not_elem_of_nil.
  - destruct (sweep_body_run x w) as (w1 & Hx & Hu1 & Hb1 & Ha1).
    destruct (IH w1) as (w2 & Hl & Hu2 & Hb2 & Ha2).
    exists w2. cbn [for_of]. unfold bind at 1. rewrite Hx.
    split; [exact Hl|]. split; [congruence|]. split; [congruence|].
    intros j. rewrite Ha2, Ha1. clear Ha2 Ha1.
    assert (sweep_status (db w1) j = sweep_status (db w) j) as ->.
    { unfold sweep_status, bids_on. rewrite Hb1. reflexivity. }
    rewrite lookup_alter. cbn [fmap list_fmap].
    destruct (decide (x.1 = j)) as [->|Hne].
    + destruct (decide (j ∈ j :: l.*1)) as [_|Hout];
        [|exfalso; apply Hout, elem_of_cons; left; reflexivity].
      case_decide; [|reflexivity].
      destruct (artworks (db w) !! j); reflexivity.
    + destruct (decide (j ∈ l.*1)) as [Hin|Hout];
        destruct (decide (j ∈ x.1 :: l.*1)) as [Hin'|Hout']; try reflexivity.
      * exfalso. apply Hout', elem_of_cons. right. exact Hin.
      * exfalso. apply elem_of_cons in Hin' as [->|Hin']; [congruence|contradiction].
Qed.
End sweep.

Lemma expired_keys (now : Time) (m : gmap string Artwork) (j : string) :
  j ∈ (map_to_list
         (filter (λ kv : string * Artwork,
                    a_status kv.2 = ACTIVE ∧ a_endTime kv.2 < now) m)).*1
  ↔ ∃ a, m !! j = Some a ∧ a_status a = ACTIVE ∧ a_endTime a < now.
Proof.
  rewrite list_elem_of_fmap. split.
  - intros ([k a] & -> & Hin). apply elem_of_map_to_list in Hin.
    apply map_lookup_filter_Some in Hin as [Hk Hp]. exists a. split; assumption.
  - intros (a & Hk & Hp). exists (j, a). split; [reflexivity|].
    apply elem_of_map_to_list, map_lookup_filter_Some. split; assumption.
Qed.

Lemma processExpiredArtworks_run (now : Time) (stamp : string → Time) (w : World) :
  ∃ w', processExpiredArtworks now stamp w = (inr tt, w')
    ∧ users (db w') = users (db w)
    ∧ bids (db w') = bids (db w)
    ∧ ∀ j, artworks (db w') !! j
           = sweep_row now stamp (db w) j <$> artworks (db w) !! j.
Proof.
  unfold processExpiredArtworks, bind at 1, read_db.
  set (expired := map_to_list _).
  destruct (sweep_loop_run stamp expired w) as (w1 & Hloop & Hu & Hb & Ha).
  assert (∀ j, artworks (db w1) !! j
               = sweep_row now stamp (db w) j <$> artworks (db w) !! j) as Hrows.
  { intros j. rewrite Ha. unfold sweep_row.
    destruct (decide (j ∈ expired.*1)) as [Hin|Hout].
    - apply expired_keys in Hin as (a & Hj & Hp). rewrite Hj. cbn.
      rewrite decide_True by exact Hp. reflexivity.
    - destruct (artworks (db w) !! j) as [a|] eqn:Hj; [|reflexivity]. cbn.
      rewrite decide_False; [reflexivity|]. intros Hp. apply Hout.
      apply expired_keys. exists a. split; assumption. }
  unfold bind. rewrite Hloop.
  destruct (decide (0 < length expired)%nat);
    eexists; (split; [reflexivity|]); cbn; auto.
Qed.

(** C4: one sweep returns normally; it gives SOLD to every listing that is
    ACTIVE with an end time before [now] and has a bid, EXPIRED to every
    such listing without a bid, leaves every other listing as it is, keeps
    every current price, and adds or removes no listing, bid or user. *)
Theorem processExpiredArtworks_transitions (now : Time) (stamp : string → Time)
    (w : World) :
  ∃ w', processExpiredArtworks now stamp w = (inr tt, w')
    ∧ users (db w') = users (db w)
    ∧ bids (db w') = bids (db w)
    ∧ ∀ id,
        match artworks (db w) !! id with
        | None => artworks (db w') !! id = None
        | Some a =>
            ∃ a', artworks (db w') !! id = Some a'
              ∧ a_currentPrice a' = a_currentPrice a
              ∧ a_status a' =
                  (if decide (a_status a = ACTIVE ∧ a_endTime a < now)
                   then if decide (has_bid (db w) id) then SOLD else EXPIRED
                   else a_status a)
              ∧ (¬ (a_status a = ACTIVE ∧ a_endTime a < now) → a' = a)
        end.
Proof.
  destruct (processExpiredArtworks_run now stamp w) as (w' & Hrun & Hu & Hb & Ha).
  exists w'. do 3 (split; [assumption|]). intros id. rewrite Ha.
  destruct (artworks (db w) !! id) as [a|]; [|reflexivity]. cbn.
  eexists. split; [reflexivity|]. unfold sweep_row.
  destruct (decide (a_status a = ACTIVE ∧ a_endTime a < now)) as [Hp|Hp].
  - split; [reflexivity|]. split; [|contradiction]. cbn. unfold sweep_status.
    destruct (decide (0 < size (bids_on (db w) id))%nat) as [Hs|Hs];
      destruct (decide (has_bid (db w) id)) as [Hh|Hh]; try reflexivity.
    + exfalso. apply Hh, has_bid_size, Hs.
    + exfalso. apply Hs, has_bid_size, Hh.
  - repeat split.
Qed.

Lemma sweep_row_not_expired (now : Time) (stamp : string → Time) (d : DB)
    (id : string) (a : Artwork) :
  ¬ (a_status (sweep_row now stamp d id a) = ACTIVE
     ∧ a_endTime (sweep_row now stamp d id a) < now).
Proof.
  unfold sweep_row. destruct (decide (a_status a = ACTIVE ∧ a_endTime a < now)) as [Hp|Hp].
  - cbn. unfold sweep_status. intros [Hs _].
    destruct (decide (0 < size (bids_on d id))%nat); discriminate.
  - exact Hp.
Qed.

Lemma nothing_expired_after_sweep (now : Time) (stamp : string → Time)
    (w w' : World) :
  (∀ j, artworks (db w') !! j
        = sweep_row now stamp (db w) j <$> artworks (db w) !! j) →
  filter (λ kv : string * Artwork, a_status kv.2 = ACTIVE ∧ a_endTime kv.2 < now)
    (artworks (db w')) = ∅.
Proof.
  intros Hrows. apply map_empty. intros j. apply map_lookup_filter_None.
  right. intros a' Hj. rewrite Hrows in Hj.
  destruct (artworks (db w) !! j) as [a|]; [|discriminate].
  injection Hj as <-. apply sweep_row_not_expired.
Qed.

(** C8: a second sweep under the same clock reading, right after a first
    one, finds no listing to move: both sweeps return normally and the
    second leaves the world, console included, exactly as the first left
    it. *)
Theorem processExpiredArtworks_idempotent (now : Time)
    (stamp stamp' : string → Time) (w : World) :
  ∃ w1, processExpiredArtworks now stamp w = (inr tt, w1)
    ∧ processExpiredArtworks now stamp' w1 = (inr tt, w1).
Proof.
  destruct (processExpiredArtworks_run now stamp w) as (w1 & Hrun & _ & _ & Ha).
  exists w1. split; [exact Hrun|].
  unfold processExpiredArtworks, bind at 1, read_db.
  rewrite (nothing_expired_after_sweep now stamp w w1 Ha), map_to_list_empty.
  destruct w1; reflexivity.
Qed.

(** ** Status updates *)

(** C7, as stated, fails: a SOLD listing is set back to ACTIVE, and then
    to PENDING, without an error. *)
Lemma updateArtworkStatus_moves_backward :
  a_status <$> artworks (db world_sold) !! "L2" = Some SOLD
  ∧ after_reopen.1 = inr tt
  ∧ a_status <$> artworks (db after_reopen.2) !! "L2" = Some ACTIVE
  ∧ after_repending.1 = inr tt
  ∧ a_status <$> artworks (db after_repending.2) !! "L2" = Some PENDING.
Proof. vm_compute. repeat split; reflexivity. Qed.

(** C7, amended: [updateArtworkStatus] checks no transition and never
    fails.  For every stored listing and every requested status, whatever
    the current status is, the stored status becomes the requested one; the
    update time is set and nothing else in the database changes.  The
    forward order lies in what its one caller asks for: the sweep changes
    a status from ACTIVE to SOLD or to EXPIRED only. *)
Theorem updateArtworkStatus_sets_any_status (w : World) (id : string)
    (status : ArtworkStatus) (now : Time) (a : Artwork) :
  artworks (db w) !! id = Some a →
  (∃ w',
     updateArtworkStatus id status now w = (inr tt, w')
     ∧ artworks (db w') = <[id := with_status status now a]> (artworks (db w))
     ∧ a_status (with_status status now a) = status
     ∧ a_currentPrice (with_status status now a) = a_currentPrice a
     ∧ a_startingPrice (with_status status now a) = a_startingPrice a
     ∧ a_endTime (with_status status now a) = a_endTime a
     ∧ bids (db w') = bids (db w)
     ∧ users (db w') = users (db w)
     ∧ console w' = console w)
  ∧ ∀ sweep_now stamp j b b',
      artworks (db w) !! j = Some b →
      artworks (db (processExpiredArtworks sweep_now stamp w).2) !! j = Some b' →
      a_status b' ≠ a_status b →
      a_status b = ACTIVE ∧ (a_status b' = SOLD ∨ a_status b' = EXPIRED).
Proof.
  intros Ha. split.
  - eexists. split; [reflexivity|]. cbn.
    rewrite (alter_at_row _ _ _ _ Ha). repeat split.
  - intros sweep_now stamp j b b' Hb.
    destruct (processExpiredArtworks_run sweep_now stamp w)
      as (w' & -> & _ & _ & Hrows).
    cbn [snd]. rewrite Hrows, Hb. cbn. intros [= <-]. unfold sweep_row.
    destruct (decide (a_status b = ACTIVE ∧ a_endTime b < sweep_now)) as [[Hs _]|_];
      [|congruence].
    intros _. split; [exact Hs|]. cbn. unfold sweep_status.
    case_decide; auto.
Qed.

Lemma updateArtworkStatus_sets_any_status_witness :
  artworks (db world_sold) !! "L2" = Some sold200
  ∧ (∃ w',
       updateArtworkStatus "L2" ACTIVE 3000 world_sold = (inr tt, w')
       ∧ artworks (db w')
           = <["L2" := with_status ACTIVE 3000 sold200]> (artworks (db world_sold))
       ∧ a_status (with_status ACTIVE 3000 sold200) = ACTIVE
       ∧ a_currentPrice (with_status ACTIVE 3000 sold200) = a_currentPrice sold200
       ∧ a_startingPrice (with_status ACTIVE 3000 sold200) = a_startingPrice sold200
       ∧ a_endTime (with_status ACTIVE 3000 sold200) = a_endTime sold200
       ∧ bids (db w') = bids (db world_sold)
       ∧ users (db w') = users (db world_sold)
       ∧ console w' = console world_sold)
  ∧ ∀ sweep_now stamp j b b',
      artworks (db world_sold) !! j = Some b →
      artworks (db (processExpiredArtworks sweep_now stamp world_sold).2) !! j
        = Some b' →
      a_status b' ≠ a_status b →
      a_status b = ACTIVE ∧ (a_status b' = SOLD ∨ a_status b' = EXPIRED).
Proof.
  split; [reflexivity|].
  apply (updateArtworkStatus_sets_any_status world_sold "L2" ACTIVE 3000 sold200).
  reflexivity.
Defined.

(** ** Deletion *)

Lemma cascade_loop_run (l : list string) (w : World) :
  for_of l
    (λ artwork,
       write_db (set_bids (filter (λ kv, b_artworkId kv.2 ≠ artwork))) ;;
       write_db (set_artworks (delete artwork))) w
  = (inr tt, mkWorld (foldl cascade_step (db w) l) (console w)).
Proof.
  revert w. induction l as [|x l IH]; intros w.
  - destruct w. reflexivity.
  - cbn [for_of foldl]. unfold bind at 1. unfold bind at 1. cbn.
    rewrite IH. reflexivity.
Qed.

Lemma deleteUserAccount_run (userId : string) (forceDelete : bool) (w : World) :
  deleteUserAccount userId forceDelete w
  = (inr tt,
     mkWorld (cascade_db userId (db w))
       (console w
        ++ ["Starting account deletion for user " +:+ userId +:+ " (force: "
            +:+ bool_text forceDelete +:+ ")"]
        ++ ["Deleting user's bids..."]
        ++ ["Deleting user's artworks..."]
        ++ ["Deleting user record..."]
        ++ ["Successfully deleted all data for user " +:+ userId])).
Proof.
  unfold deleteUserAccount, try_catch, bind at 1. cbn [log fst snd].
  unfold bind at 1. cbn [log]. unfold bind at 1. cbn [write_db db console].
  unfold bind at 1. cbn [log db console]. unfold bind at 1.
  cbn [read_db db console]. unfold bind at 1.
  rewrite cascade_loop_run. cbn.
  unfold cascade_db. rewrite <- !app_assoc. reflexivity.
Qed.

(** C10: [deleteUserAccount] returns the same result and leaves the same
    database under [forceDelete = false] and under [forceDelete = true]. *)
Theorem deleteUserAccount_ignores_force (userId : string) (w : World) :
  (deleteUserAccount userId false w).1 = (deleteUserAccount userId true w).1
  ∧ db (deleteUserAccount userId false w).2
    = db (deleteUserAccount userId true w).2.
Proof. rewrite !deleteUserAccount_run. split; reflexivity. Qed.

(** The flag does reach the console. *)
Lemma deleteUserAccount_logs_force :
  console (deleteUserAccount "artist1" false world_open).2
  ≠ console (deleteUserAccount "artist1" true world_open).2.
Proof. vm_compute. discriminate. Qed.

Lemma cascade_steps_users (l : list string) (d : DB) :
  users (foldl cascade_step d l) = users d.
Proof. revert d. induction l as [|x l IH]; intros d; [reflexivity|]. cbn. rewrite IH. reflexivity. Qed.

Lemma cascade_steps_artworks (l : list string) (d : DB) (j : string) :
  artworks (foldl cascade_step d l) !! j
  = if decide (j ∈ l) then None else artworks d !! j.
Proof.
  revert d. induction l as [|x l IH]; intros d.
  - cbn. rewrite decide_False by apply not_elem_of_nil. reflexivity.
  - cbn [foldl]. rewrite IH. cbn. rewrite lookup_delete.
    destruct (decide (j ∈ l)) as [Hin|Hout].
    + rewrite decide_True by (apply elem_of_cons; right; exact Hin). reflexivity.
    + destruct (decide (x = j)) as [->|Hne].
      * rewrite decide_True by (apply elem_of_cons; left; reflexivity). reflexivity.
      * rewrite decide_False; [reflexivity|].
        intros [->|Hin]%elem_of_cons; [congruence|contradiction].
Qed.

Lemma cascade_steps_bids (l : list string) (d : DB) (k : string) (b : Bid) :
  bids (foldl cascade_step d l) !! k = Some b
  ↔ bids d !! k = Some b ∧ b_artworkId b ∉ l.
Proof.
  revert d. induction l as [|x l IH]; intros d.
  - cbn. split; [intros H; split; [exact H|apply not_elem_of_nil]|intros [H _]; exact H].
  - cbn [foldl]. rewrite IH. cbn. rewrite map_lookup_filter_Some. cbn.
    rewrite not_elem_of_cons. tauto.
Qed.

(** The account cascade removes the listings of the user and leaves no bid
    row that names one of them. *)
Lemma deleteUserAccount_leaves_no_orphan (userId : string) (forceDelete : bool)
    (w : World) (id : string) (a : Artwork) :
  artworks (db w) !! id = Some a →
  a_artistId a = userId →
  let w' := (deleteUserAccount userId forceDelete w).2 in
  artworks (db w') !! id = None ∧ ¬ has_bid (db w') id.
Proof.
  intros Ha Hown. rewrite deleteUserAccount_run. cbn [snd db]. unfold cascade_db.
  set (d1 := set_bids _ (db w)).
  set (ids := map fst _).
  assert (id ∈ ids) as Hin.
  { unfold ids. apply list_elem_of_fmap. exists (id, a). split; [reflexivity|].
    apply elem_of_map_to_list, map_lookup_filter_Some. split; assumption. }
  cbn. split.
  - rewrite cascade_steps_artworks, decide_True by exact Hin. reflexivity.
  - intros (k & b & Hk & Hb). apply cascade_steps_bids in Hk as [_ Hout].
    rewrite Hb in Hout. contradiction.
Qed.

Lemma getArtwork_run (id : string) (w : World) :
  getArtwork id w
  = (inr (match artworks (db w) !! id with
          | Some a => Some (id, a, join_user (db w) (a_artistId a))
          | None => None
          end), w).
Proof. reflexivity. Qed.

Lemma deleteArtwork_run (destroy_ok : string → bool) (id : string) (w : World) :
  ∃ w', deleteArtwork destroy_ok id w = (inr tt, w')
    ∧ db w' = set_artworks (delete id) (db w).
Proof.
  unfold deleteArtwork, bind at 1. cbn [log]. unfold bind at 1.
  unfold try_catch, bind at 1. rewrite getArtwork_run. cbn [db console].
  destruct (artworks (db w) !! id) as [a|].
  - destruct (decide (a_imagePublicId a = "")).
    + eexists. split; reflexivity.
    + unfold deleteFromCloudinary, bind, log, throw. cbn.
      destruct (destroy_ok (a_imagePublicId a)); eexists; split; reflexivity.
  - eexists. split; reflexivity.
Qed.

(** The handler of the owner's route, after the ownership middleware. *)
Lemma owner_delete_handler_leaves_no_orphan (destroy_ok : string → bool)
    (userId id : string) (now : Time) (w w' : World) :
  try_catch
    (artwork <- getArtwork id ;;
     match artwork with
     | None => ret (NotFound "Artwork not found")
     | Some (_, a, _) =>
         if decide (a_artistId a = userId)
         then
           if decide (a_endTime a ≤ now)
           then ret (BadRequest "Cannot delete artwork after auction has ended")
           else
             bids <- getArtworkBids id ;;
             if decide (0 < length bids)%nat
             then ret (BadRequest "Cannot delete artwork with existing bids")
             else deleteArtwork destroy_ok id ;; ret NoContent
         else ret (Forbidden "You can only delete your own artworks")
     end)
    (λ _, ret (ServerError "Failed to delete artwork")) w
  = (inr NoContent, w') →
  artworks (db w') !! id = None
  ∧ bids (db w') = bids (db w)
  ∧ ¬ has_bid (db w') id.
Proof.
  unfold try_catch, bind at 1. rewrite getArtwork_run.
  destruct (artworks (db w) !! id) as [a|]; [|cbn; discriminate].
  destruct (decide (a_artistId a = userId)); [|cbn; discriminate].
  destruct (decide (a_endTime a ≤ now)); [cbn; discriminate|].
  destruct (getArtworkBids_run id w) as (l & Hl & Hlen).
  unfold bind at 1. rewrite Hl.
  destruct (decide (0 < length l)%nat) as [|Hnone]; [cbn; discriminate|].
  destruct (deleteArtwork_run destroy_ok id w) as (w1 & Hdel & Hdb).
  unfold bind. rewrite Hdel. cbn. intros [= <-]. rewrite Hdb. cbn.
  split; [apply lookup_delete_eq|]. split; [reflexivity|].
  intros Hh. apply Hnone. rewrite Hlen.
  apply (has_bid_size (db w) id). exact Hh.
Qed.

(** The two guards of [server/roleMiddleware.ts], run. *)
Lemma requireRole_ADMIN_run (userId : string) (next : M Response) (w : World) :
  requireRole_ADMIN userId next w
  = if decide (userId = "")
    then (inr (Unauthenticated "Authentication required"), w)
    else
      match users (db w) !! userId with
      | None => (inr (NotFound "User not found"), w)
      | Some u =>
          if decide (u_role u = ADMIN) then next w
          else (inr (Forbidden "Admin access required"), w)
      end.
Proof.
  unfold requireRole_ADMIN, bind at 1, try_catch.
  destruct (decide (userId = "")); [reflexivity|].
  unfold bind at 1, read_db. cbv beta iota.
  destruct (users (db w) !! userId) as [u|]; [|reflexivity].
  destruct (decide (u_role u = ADMIN)); reflexivity.
Qed.

Lemma requireArtworkOwnership_run (userId artworkId : string)
    (next : M Response) (w : World) :
  requireArtworkOwnership userId artworkId next w
  = if decide (userId = "" ∨ artworkId = "")
    then (inr (BadRequest "Invalid request"), w)
    else
      match users (db w) !! userId with
      | None => (inr (NotFound "User not found"), w)
      | Some u =>
          if decide (u_role u = ADMIN) then next w
          else
            match artworks (db w) !! artworkId with
            | None => (inr (NotFound "Artwork not found"), w)
            | Some a =>
                if decide (a_artistId a = userId) then next w
                else (inr (Forbidden "You can only modify your own artworks"), w)
            end
      end.
Proof.
  unfold requireArtworkOwnership, bind at 1, try_catch.
  destruct (decide (userId = "" ∨ artworkId = "")); [reflexivity|].
  unfold bind at 1, read_db. cbv beta iota.
  destruct (users (db w) !! userId) as [u|]; [|reflexivity].
  destruct (decide (u_role u = ADMIN)); [reflexivity|].
  unfold bind at 1. rewrite getArtwork_run.
  destruct (artworks (db w) !! artworkId) as [a|]; [|reflexivity].
  destruct (decide (a_artistId a = userId)); reflexivity.
Qed.

(** The owner's route deletes a listing only when no bid row names it. *)
Lemma delete_artworks_id_leaves_no_orphan (destroy_ok : string → bool)
    (userId id : string) (now : Time) (w w' : World) :
  delete_artworks_id destroy_ok userId id now w = (inr NoContent, w') →
  artworks (db w') !! id = None
  ∧ bids (db w') = bids (db w)
  ∧ ¬ has_bid (db w') id.
Proof.
  unfold delete_artworks_id. rewrite requireArtworkOwnership_run.
  destruct (decide (userId = "" ∨ id = "")); [discriminate|].
  destruct (users (db w) !! userId) as [user|]; [|discriminate].
  destruct (decide (u_role user = ADMIN)).
  - apply owner_delete_handler_leaves_no_orphan.
  - destruct (artworks (db w) !! id) as [a|]; [|discriminate].
    destruct (decide (a_artistId a = userId)); [|discriminate].
    apply owner_delete_handler_leaves_no_orphan.
Qed.

(** C5 fails on the administrator's route: [DELETE /api/admin/artworks/:id]
    answers 204, the listing is gone, and its bid is still stored, naming
    the deleted listing. *)
Theorem delete_admin_artworks_id_orphans_bid :
  has_bid (db world_sold) "L2"
  ∧ ¬ orphan_bid (db world_sold) "b1"
  ∧ after_admin_delete.1 = inr NoContent
  ∧ artworks (db after_admin_delete.2) !! "L2" = None
  ∧ bids (db after_admin_delete.2) !! "b1" = Some bid200
  ∧ orphan_bid (db after_admin_delete.2) "b1".
Proof.
  split; [exists "b1", bid200; split; reflexivity|].
  split; [intros (b & Hb & Ha); vm_compute in Hb; injection Hb as <-; discriminate|].
  split; [reflexivity|]. split; [reflexivity|]. split; [reflexivity|].
  exists bid200. split; reflexivity.
Qed.

(** ** Prices *)

Lemma prices_kept_invariant (w w' : World) :
  prices_kept (artworks (db w')) (artworks (db w)) →
  price_invariant w → price_invariant w'.
Proof.
  intros Hk Hinv id a' Ha'. destruct (Hk id a' Ha') as (a & Ha & -> & ->).
  exact (Hinv id a Ha).
Qed.

Lemma prices_kept_refl (m : gmap string Artwork) : prices_kept m m.
Proof. intros id a Ha. exists a. repeat split. exact Ha. Qed.

Lemma prices_kept_delete (id : string) (m : gmap string Artwork) :
  prices_kept (delete id m) m.
Proof.
  intros j a Ha. apply lookup_delete_Some in Ha as [_ Ha]. exists a.
  repeat split. exact Ha.
Qed.

Lemma createArtwork_run (artworkData : InsertArtwork) (id : string)
    (created updated : Time) (w : World) (r : string * Artwork) (w' : World) :
  createArtwork artworkData id created updated w = (inr r, w') →
  r.1 = id
  ∧ artworks (db w) !! id = None
  ∧ db w' = set_artworks (insert id r.2) (db w)
  ∧ a_currentPrice r.2 = ia_startingPrice artworkData
  ∧ a_startingPrice r.2 = ia_startingPrice artworkData
  ∧ a_status r.2 = ia_status artworkData
  ∧ a_isActive r.2 = Some true
  ∧ ia_endTime artworkData = ValidDate (a_endTime r.2)
  ∧ fits_timestamp (a_endTime r.2) = true
  ∧ fits_decimal (a_startingPrice r.2) = true.
Proof.
  unfold createArtwork, bind at 1. cbn [read_db].
  destruct (ia_endTime artworkData) as [endTime|]; [|discriminate].
  destruct (artworks (db w) !! id) eqn:Hfresh; [discriminate|].
  destruct (fits_decimal (ia_startingPrice artworkData)) eqn:Hfits; [|discriminate].
  destruct (fits_timestamp endTime) eqn:Hrange; [|discriminate].
  cbn. intros [= <- <-]. repeat split; assumption.
Qed.

Lemma createArtwork_failure_keeps_world (artworkData : InsertArtwork)
    (id : string) (created updated : Time) (w : World) (e : Err) (w' : World) :
  createArtwork artworkData id created updated w = (inl e, w') → w' = w.
Proof.
  unfold createArtwork, bind at 1. cbn [read_db].
  destruct (ia_endTime artworkData) as [endTime|]; [|intros [= _ <-]; reflexivity].
  destruct (artworks (db w) !! id); [intros [= _ <-]; reflexivity|].
  destruct (fits_decimal (ia_startingPrice artworkData) && fits_timestamp endTime);
    [discriminate|intros [= _ <-]; reflexivity].
Qed.

Lemma run_op_keeps_price_invariant (op : Op) (w : World) :
  price_invariant w → writes_price_from_start w op → price_invariant (run_op op w).
Proof.
  intros Hinv Hop. destruct op as
    [artworkData id created updated | bidData id now upd | id price now
    | id status now | now stamp | destroy_ok id | userId forceDelete];
    cbn [run_op writes_price_from_start] in *.
  - destruct (createArtwork artworkData id created updated w) as [[e|r] w'] eqn:Hrun.
    + apply createArtwork_failure_keeps_world in Hrun as ->. exact Hinv.
    + apply createArtwork_run in Hrun as (_ & _ & Hdb & Hc & Hs & _). cbn.
      intros j a. rewrite Hdb. cbn. rewrite lookup_insert.
      destruct (decide (id = j)); [intros [= <-]; lia|apply Hinv].
  - unfold createBid, insert_bid, bind at 1. unfold bind at 1. cbn [read_db].
    destruct (bids (db w) !! id); [exact Hinv|].
    unfold updateArtworkPrice.
    destruct (fits_decimal (ib_amount bidData)) eqn:Hfits; [|exact Hinv].
    unfold bind. cbn. rewrite ?Hfits. cbn. intros j a'. cbn.
    rewrite lookup_alter. destruct (decide (ib_artworkId bidData = j)) as [<-|].
    + destruct (artworks (db w) !! ib_artworkId bidData) as [a|] eqn:Ha; [|discriminate].
      cbn. intros [= <-]. cbn. apply Hop. reflexivity.
    + apply Hinv.
  - unfold updateArtworkPrice. destruct (fits_decimal price); [|exact Hinv].
    intros j a'. cbn. rewrite lookup_alter. destruct (decide (id = j)) as [<-|].
    + destruct (artworks (db w) !! id) as [a|] eqn:Ha; [|discriminate].
      cbn. intros [= <-]. cbn. apply Hop. reflexivity.
    + apply Hinv.
  - refine (prices_kept_invariant w _ _ Hinv). intros j a'. cbn.
    rewrite lookup_alter. destruct (decide (id = j)) as [<-|].
    + destruct (artworks (db w) !! id) as [a|] eqn:Ha; [|discriminate].
      cbn. intros [= <-]. exists a. repeat split.
    + intros Ha. exists a'. repeat split. exact Ha.
  - destruct (processExpiredArtworks_run now stamp w) as (w' & -> & _ & _ & Hrows).
    refine (prices_kept_invariant w _ _ Hinv). intros j a'. cbn. rewrite Hrows.
    destruct (artworks (db w) !! j) as [a|]; [|discriminate]. cbn.
    intros [= <-]. exists a. split; [reflexivity|]. unfold sweep_row.
    case_decide; split; reflexivity.
  - destruct (deleteArtwork_run destroy_ok id w) as (w' & -> & Hdb).
    refine (prices_kept_invariant w _ _ Hinv). cbn. rewrite Hdb.
    apply prices_kept_delete.
  - rewrite deleteUserAccount_run. refine (prices_kept_invariant w _ _ Hinv).
    cbn. intros j a'. unfold cascade_db. cbn. rewrite cascade_steps_artworks.
    case_decide; [discriminate|]. cbn. intros Ha. exists a'. repeat split. exact Ha.
Qed.

(** C2, as stated, fails: a listing created at 100.00 that takes a bid of
    50.00 has a current price below its starting price. *)
Lemma price_invariant_broken_by_low_bid :
  price_invariant (run_ops (take 1 ops_falling) empty_world)
  ∧ ¬ price_invariant (run_ops ops_falling empty_world).
Proof.
  split.
  - apply run_op_keeps_price_invariant; [|exact I].
    intros id a Ha. cbn in Ha. rewrite lookup_empty in Ha. discriminate.
  - intros Hinv.
    specialize (Hinv "L1" (with_currentPrice 5000 11
      (mkArtwork "Sunset" "Oil on canvas" "https://img/1" "img1"
         (Some "Paintings") 10000 10000 ACTIVE None 3600000 (Some true)
         "artist1" 0 0)) eq_refl).
    vm_compute in Hinv. apply Hinv. reflexivity.
Qed.

(** C2, amended: a listing is created with its current price equal to its
    starting price, and neither the sweep, nor a status update, nor a
    deletion changes a price; a bid and a price update write the amount
    they are given without reading the starting price.  So the invariant
    holds after every sequence of operations in which each bid amount and
    each updated price is at least the starting price of the listing it is
    written to. *)
Theorem price_invariant_kept_by_priced_ops (ops : list Op) (w : World) :
  price_invariant w →
  all_write_price_from_start w ops →
  price_invariant (run_ops ops w)
  ∧ ∀ artworkData id created updated r w',
      createArtwork artworkData id created updated (run_ops ops w) = (inr r, w') →
      artworks (db w') !! id = Some r.2
      ∧ a_currentPrice r.2 = a_startingPrice r.2.
Proof.
  intros Hinv Hops. split.
  - revert w Hinv Hops. induction ops as [|op ops IH]; intros w Hinv Hops.
    + exact Hinv.
    + destruct Hops as [Hop Hops]. cbn [run_ops]. apply IH; [|exact Hops].
      apply run_op_keeps_price_invariant; assumption.
  - intros artworkData id created updated r w' Hrun.
    apply createArtwork_run in Hrun as (_ & _ & Hdb & Hc & Hs & _).
    rewrite Hdb. cbn. rewrite lookup_insert_eq. split; [reflexivity|lia].
Qed.

Lemma price_invariant_kept_by_priced_ops_witness :
  price_invariant empty_world
  ∧ all_write_price_from_start empty_world ops_rising
  ∧ price_invariant (run_ops ops_rising empty_world)
  ∧ ∀ artworkData id created updated r w',
      createArtwork artworkData id created updated (run_ops ops_rising empty_world)
        = (inr r, w') →
      artworks (db w') !! id = Some r.2
      ∧ a_currentPrice r.2 = a_startingPrice r.2.
Proof.
  assert (price_invariant empty_world) as Hinv.
  { intros id a Ha. cbn in Ha. rewrite lookup_empty in Ha. discriminate. }
  assert (all_write_price_from_start empty_world ops_rising) as Hops.
  { split; [exact I|]. split; [|split; exact I].
    intros a Ha. vm_compute in Ha. injection Ha as <-. vm_compute. discriminate. }
  split; [exact Hinv|]. split; [exact Hops|].
  exact (price_invariant_kept_by_priced_ops ops_rising empty_world Hinv Hops).
Defined.

(** ** Listing creation *)

Lemma insertArtworkSchema_parse_keeps_world (form : ArtworkForm)
    (artistId imageUrl imagePublicId : string) (status : ArtworkStatus) (w : World) :
  (insertArtworkSchema_parse form artistId imageUrl imagePublicId status w).2 = w.
Proof.
  unfold insertArtworkSchema_parse.
  destruct form as [[title|] [description|] [category|] [price|] [endTime|]];
    cbn; try reflexivity.
  destruct (_ && _); reflexivity.
Qed.

(** Whenever [POST /api/artworks] answers with anything but 201, the
    database is as it was. *)
Lemma post_artworks_refusal_keeps_db (w w' : World) (userId : string)
    (form : ArtworkForm) (imageUrl imagePublicId id : string)
    (created updated : Time) (res : Err + Response) :
  post_artworks userId form imageUrl imagePublicId id created updated w
    = (res, w') →
  (∀ artwork, res ≠ inr (Created_artwork artwork)) →
  db w' = db w.
Proof.
  unfold post_artworks, try_catch, bind at 1.
  pose proof (insertArtworkSchema_parse_keeps_world form userId imageUrl
                imagePublicId ACTIVE w) as Hw.
  destruct (insertArtworkSchema_parse form userId imageUrl imagePublicId ACTIVE w)
    as [[e|validatedData] w1]; cbn in Hw; subst w1.
  - destruct e; intros [= _ <-]; reflexivity.
  - unfold bind at 1.
    destruct (createArtwork validatedData id created updated w) as [[e|r] w2] eqn:Hrun.
    + apply createArtwork_failure_keeps_world in Hrun as ->.
      destruct e; intros [= _ <-]; reflexivity.
    + cbn. intros [= <- <-] Hno. exfalso. exact (Hno r eq_refl).
Qed.

(** * Properties of the money formatter *)

(** ** Rounding *)

Lemma round_half_even_unique (n d m : Z) :
  0 < d → 2 * Z.abs (n - m * d) < d → round_half_even n d = m.
Proof.
  intros Hd Hnear. unfold round_half_even.
  pose proof (Z.div_mod n d ltac:(lia)) as Hdm.
  pose proof (Z.mod_pos_bound n d Hd) as Hr.
  set (q := n / d) in *. set (r := n mod d) in *.
  assert (m = q ∨ m = q + 1) as Hm by nia.
  destruct (Z.ltb_spec (2 * r) d) as [Hlt|Hge].
  - destruct Hm as [->| ->]; [reflexivity|nia].
  - destruct (Z.ltb_spec d (2 * r)) as [Hgt|Hle].
    + destruct Hm as [->| ->]; [nia|reflexivity].
    + exfalso. destruct Hm as [->| ->]; nia.
Qed.

Lemma round_half_even_near (n d : Z) :
  0 < d → 2 * Z.abs (n - round_half_even n d * d) ≤ d.
Proof.
  intros Hd. unfold round_half_even.
  pose proof (Z.div_mod n d ltac:(lia)) as Hdm.
  pose proof (Z.mod_pos_bound n d Hd) as Hr.
  set (q := n / d) in *. set (r := n mod d) in *.
  destruct (Z.ltb_spec (2 * r) d); [nia|].
  destruct (Z.ltb_spec d (2 * r)); [nia|].
  destruct (Z.even q); nia.
Qed.

Lemma round_half_even_bounds (n d lo hi : Z) :
  0 < d → lo * d ≤ n → n < hi * d →
  lo ≤ round_half_even n d ≤ hi.
Proof.
  intros Hd Hlo Hhi. pose proof (round_half_even_near n d Hd) as Hnear.
  set (m := round_half_even n d) in *. nia.
Qed.

(** The shift that [Number_of_ratio] picks. *)
Lemma shift_spec (t sh : Z) :
  0 ≤ t → sh = Z.max (Z.log2 t - 52) 0 →
  0 ≤ sh ∧ t < 2 ^ (53 + sh) ∧ (0 < sh → 2 ^ (52 + sh) ≤ t).
Proof.
  intros Ht ->. destruct (Z.eq_dec t 0) as [->|Hne].
  - cbn. split; [lia|]. split; [reflexivity|lia].
  - pose proof (Z.log2_spec t ltac:(lia)) as [Hlo Hhi].
    pose proof (Z.log2_nonneg t) as Hnn.
    destruct (Z.max_spec (Z.log2 t - 52) 0) as [[Hc ->]|[Hc ->]].
    + split; [lia|]. split; [|lia].
      rewrite Z.add_0_r. eapply Z.lt_le_trans; [exact Hhi|].
      apply Z.pow_le_mono_r; lia.
    + split; [lia|]. replace (53 + (Z.log2 t - 52)) with (Z.succ (Z.log2 t)) by lia.
      replace (52 + (Z.log2 t - 52)) with (Z.log2 t) by lia. auto.
Qed.

Lemma shift_unique (t sh : Z) :
  0 ≤ sh → t < 2 ^ (53 + sh) → (0 < sh → 2 ^ (52 + sh) ≤ t) → 0 ≤ t →
  Z.max (Z.log2 t - 52) 0 = sh.
Proof.
  intros Hsh Hhi Hlo Ht. destruct (Z.eq_dec sh 0) as [->|Hne].
  - destruct (Z.eq_dec t 0) as [->|Hne]; [reflexivity|].
    assert (Z.log2 t < 53) by (apply Z.log2_lt_pow2; lia). lia.
  - assert (Z.log2 t = 52 + sh) as ->; [|lia].
    apply Z.log2_unique; [lia|]. split; [apply Hlo; lia|].
    replace (Z.succ (52 + sh)) with (53 + sh) by lia. exact Hhi.
Qed.

Lemma pow2_pos (k : Z) : 0 ≤ k → 0 < 2 ^ k.
Proof. intros. apply Z.pow_pos_nonneg; lia. Qed.

(** A fraction that lies in the binade of [m * 2^(sh - 1074)] and nearer
    to it than half a unit rounds to it. *)
Lemma Number_of_ratio_nearest (negative : bool) (p q m sh : Z) :
  0 ≤ p → 0 < q → 0 ≤ sh ≤ 2045 → m < 2 ^ 53 →
  (0 < sh → 2 ^ 52 * (q * 2 ^ sh) ≤ p * 2 ^ 1074) →
  p * 2 ^ 1074 < 2 ^ 53 * (q * 2 ^ sh) →
  2 * Z.abs (p * 2 ^ 1074 - m * (q * 2 ^ sh)) < q * 2 ^ sh →
  Number_of_ratio negative p q = Finite negative m (sh - 1074).
Proof.
  intros Hp Hq Hsh Hm Hlo Hhi Hnear. unfold Number_of_ratio. cbv zeta.
  set (P := p * 2 ^ 1074) in *.
  pose proof (pow2_pos sh ltac:(lia)) as Hpow.
  assert (0 ≤ P) as HP by (unfold P; pose proof (pow2_pos 1074); lia).
  assert (Z.max (Z.log2 (P / q) - 52) 0 = sh) as ->.
  { apply shift_unique; [lia| | |apply Z.div_pos; lia].
    - apply Z.div_lt_upper_bound; [lia|]. rewrite Z.pow_add_r by lia. lia.
    - intros Hpos. apply Z.div_le_lower_bound; [lia|].
      rewrite Z.pow_add_r by lia. specialize (Hlo Hpos). lia. }
  rewrite (round_half_even_unique P (q * 2 ^ sh) m) by (try exact Hnear; nia).
  destruct (Z.eqb_spec m (2 ^ 53)) as [Heq|_]; [lia|].
  destruct (Z.ltb_spec 2045 sh); [lia|reflexivity].
Qed.

(** What [Number_of_ratio] returns is canonical. *)
Lemma Number_of_ratio_canonical (negative : bool) (p q : Z) :
  0 ≤ p → 0 < q → canonical (Number_of_ratio negative p q).
Proof.
  intros Hp Hq. unfold Number_of_ratio. cbv zeta.
  set (P := p * 2 ^ 1074).
  assert (0 ≤ P) as HP by (unfold P; pose proof (pow2_pos 1074); lia).
  set (sh := Z.max (Z.log2 (P / q) - 52) 0).
  destruct (shift_spec (P / q) sh) as (Hsh & Hhi & Hlo);
    [apply Z.div_pos; lia|reflexivity|].
  pose proof (pow2_pos sh Hsh) as Hpow.
  set (d := q * 2 ^ sh). assert (0 < d) as Hd by (unfold d; nia).
  pose proof (Z.div_mod P q ltac:(lia)) as Hdm.
  pose proof (Z.mod_pos_bound P q Hq) as Hr.
  rewrite Z.pow_add_r in Hhi by lia.
  assert (P < 2 ^ 53 * d) as Hup by (unfold d; nia).
  assert (0 ≤ round_half_even P d ≤ 2 ^ 53) as Hm
    by (apply round_half_even_bounds; lia).
  assert (0 < sh → 2 ^ 52 ≤ round_half_even P d) as Hnormal.
  { intros Hpos. specialize (Hlo Hpos). rewrite Z.pow_add_r in Hlo by lia.
    apply (round_half_even_bounds P d (2 ^ 52) (2 ^ 53)); [lia| |lia].
    unfold d. nia. }
  set (m := round_half_even P d) in *.
  destruct (Z.eqb_spec m (2 ^ 53)) as [Heq|Hne].
  - destruct (Z.ltb_spec 2045 (sh + 1)); [exact I|]. cbn [canonical]. lia.
  - destruct (Z.ltb_spec 2045 sh); [exact I|]. cbn [canonical].
    split; [lia|]. split; [lia|]. destruct (Z.eq_dec sh 0); [right; lia|left].
    apply Hnormal. lia.
Qed.

(** ** The hundredths of a Number and of its reading *)

(** The integer nearest to [100 * p / q] depends on the fraction only. *)
Lemma hundredths_of_equal_fractions (p q a b : Z) :
  0 < q → 0 < b → p * b = a * q →
  (200 * p + q) / (2 * q) = (200 * a + b) / (2 * b).
Proof.
  intros Hq Hb Heq.
  rewrite <- (Z.div_mul_cancel_r (200 * p + q) (2 * q) b) by lia.
  rewrite <- (Z.div_mul_cancel_l (200 * a + b) (2 * b) q) by lia.
  f_equal; nia.
Qed.

Lemma ratio_pos (m e : Z) : 0 < (ratio m e).2.
Proof.
  unfold ratio. destruct (Z.leb_spec 0 e); cbn; [lia|]. apply pow2_pos. lia.
Qed.

Lemma ratio_nonneg (m e : Z) : 0 ≤ m → 0 ≤ (ratio m e).1.
Proof.
  intros Hm. unfold ratio. destruct (Z.leb_spec 0 e); cbn; [|lia].
  pose proof (pow2_pos e ltac:(lia)). nia.
Qed.

(** Below [2^46], the Number read from [n / 100] has [n] hundredths. *)
Lemma reread_small (negative : bool) (n : Z) :
  1 ≤ n < 100 * 2 ^ 46 →
  ∃ m e,
    Number_of_ratio negative n 100 = Finite negative m e
    ∧ 0 < m
    ∧ (ratio m e).1 < 10 ^ 21 * (ratio m e).2
    ∧ (200 * (ratio m e).1 + (ratio m e).2) / (2 * (ratio m e).2) = n.
Proof.
  intros Hn. unfold Number_of_ratio. cbv zeta.
  set (P := n * 2 ^ 1074).
  pose proof (pow2_pos 1074 ltac:(lia)) as H1074.
  assert (0 ≤ P) as HP by (unfold P; nia).
  set (sh := Z.max (Z.log2 (P / 100) - 52) 0).
  destruct (shift_spec (P / 100) sh) as (Hsh & _ & Hlo);
    [apply Z.div_pos; lia|reflexivity|].
  assert (sh ≤ 1067) as Hsmall.
  { destruct (Z.eq_dec sh 0); [lia|]. specialize (Hlo ltac:(lia)).
    assert (P / 100 < 2 ^ 1120) as Hlt.
    { apply Z.div_lt_upper_bound; [lia|]. unfold P.
      replace (2 ^ 1120) with (2 ^ 46 * 2 ^ 1074) by (rewrite <- Z.pow_add_r; [reflexivity|lia|lia]).
      nia. }
    assert (52 + sh < 1120); [|lia].
    apply (Z.pow_lt_mono_r_iff 2); lia. }
  set (D := 2 ^ (1074 - sh)).
  assert (128 ≤ D) as HD.
  { unfold D. change 128 with (2 ^ 7). apply Z.pow_le_mono_r; lia. }
  pose proof (pow2_pos sh Hsh) as Hpow.
  assert (2 ^ 1074 = D * 2 ^ sh) as Hsplit.
  { unfold D. rewrite <- Z.pow_add_r by lia. f_equal. lia. }
  pose proof (round_half_even_near P (100 * 2 ^ sh) ltac:(lia)) as Hnear.
  set (M := round_half_even P (100 * 2 ^ sh)) in *.
  assert (Z.abs (n * D - 100 * M) ≤ 50) as Herr.
  { unfold P in Hnear. rewrite Hsplit in Hnear.
    replace (n * (D * 2 ^ sh) - M * (100 * 2 ^ sh))
      with ((n * D - 100 * M) * 2 ^ sh) in Hnear by ring.
    rewrite Z.abs_mul, (Z.abs_eq (2 ^ sh)) in Hnear by lia. nia. }
  assert (0 < M) as HM by nia.
  assert ((200 * M + D) / (2 * D) = n) as Hn'.
  { symmetry. apply (Z.div_unique _ _ _ (200 * M + D - 2 * D * n)); lia. }
  destruct (Z.eqb_spec M (2 ^ 53)) as [Hcarry|_].
  - destruct (Z.ltb_spec 2045 (sh + 1)); [lia|].
    exists (2 ^ 52), (sh + 1 - 1074). split; [reflexivity|]. split; [lia|].
    unfold ratio. destruct (Z.leb_spec 0 (sh + 1 - 1074)); [lia|]. cbn [fst snd].
    set (D' := 2 ^ (- (sh + 1 - 1074))).
    assert (D = 2 * D') as HD'.
    { unfold D, D'. replace (1074 - sh) with (1 + - (sh + 1 - 1074)) by lia.
      rewrite Z.pow_add_r by lia. reflexivity. }
    split; [lia|].
    rewrite <- Hn'. apply hundredths_of_equal_fractions; lia.
  - destruct (Z.ltb_spec 2045 sh); [lia|].
    exists M, (sh - 1074). split; [reflexivity|]. split; [lia|].
    unfold ratio. destruct (Z.leb_spec 0 (sh - 1074)); [lia|]. cbn [fst snd].
    replace (- (sh - 1074)) with (1074 - sh) by lia. fold D.
    split; [|exact Hn'].
    assert (n * D ≤ (100 * 2 ^ 46 - 1) * D) by nia. lia.
Qed.

(** From [2^46] on, the hundredths of a Number read back as the Number. *)
Lemma reread_large (negative : bool) (m e : Z) :
  2 ^ 52 ≤ m < 2 ^ 53 → -6 ≤ e ≤ 971 →
  Number_of_ratio negative
    ((200 * (ratio m e).1 + (ratio m e).2) / (2 * (ratio m e).2)) 100
  = Finite negative m e.
Proof.
  intros Hm He.
  replace (Finite negative m e) with (Finite negative m (e + 1074 - 1074))
    by (f_equal; lia).
  pose proof (pow2_pos (e + 1074) ltac:(lia)) as HS.
  set (S := 2 ^ (e + 1074)) in *.
  unfold ratio. destruct (Z.leb_spec 0 e) as [Hpos|Hneg]; cbn [fst snd].
  - pose proof (pow2_pos e Hpos) as HE. set (E := 2 ^ e) in *.
    assert ((200 * (m * E) + 1) / (2 * 1) = 100 * (m * E)) as ->.
    { symmetry. apply (Z.div_unique _ _ _ 1); lia. }
    assert (S = E * 2 ^ 1074) as HSE.
    { unfold S, E. rewrite <- Z.pow_add_r by lia. reflexivity. }
    pose proof (pow2_pos 1074 ltac:(lia)) as HU. set (U := 2 ^ 1074) in *.
    assert (0 < E * U) as HW by nia. set (W := E * U) in *.
    apply Number_of_ratio_nearest; fold U S; rewrite ?HSE; fold W.
    + nia.
    + lia.
    + lia.
    + lia.
    + intros _. replace (100 * (m * E) * U) with (100 * m * W) by (unfold W; ring). nia.
    + replace (100 * (m * E) * U) with (100 * m * W) by (unfold W; ring). nia.
    + replace (100 * (m * E) * U - m * (100 * W)) with 0 by (unfold W; ring).
      cbn. lia.
  - set (D := 2 ^ (- e)).
    assert (2 ≤ D ≤ 64) as HD.
    { unfold D. split.
      - change 2 with (2 ^ 1) at 1. apply Z.pow_le_mono_r; lia.
      - change 64 with (2 ^ 6). apply Z.pow_le_mono_r; lia. }
    set (K := 2 ^ (52 + e)).
    assert (2 ^ 52 = D * K) as HK.
    { unfold D, K. rewrite <- Z.pow_add_r by lia. f_equal. lia. }
    assert (2 ^ 1074 = D * S) as HDS.
    { unfold D, S. rewrite <- Z.pow_add_r by lia. f_equal. lia. }
    pose proof (Z.div_mod (200 * m + D) (2 * D) ltac:(lia)) as Hdm.
    pose proof (Z.mod_pos_bound (200 * m + D) (2 * D) ltac:(lia)) as Hr.
    set (n := (200 * m + D) / (2 * D)) in *.
    set (r := (200 * m + D) mod (2 * D)) in *.
    assert (0 < K) as HKpos by (apply pow2_pos; lia).
    assert (100 * K ≤ n) as Hnlo by nia.
    assert (n * D < 100 * 2 ^ 53) as Hnhi by nia.
    assert (2 * Z.abs (n * D - 100 * m) ≤ D) as Hnear by lia.
    apply Number_of_ratio_nearest; fold S; rewrite ?HDS.
    + lia.
    + lia.
    + lia.
    + lia.
    + intros _. replace (n * (D * S)) with (n * D * S) by ring.
      assert (2 ^ 52 * 100 ≤ n * D) by nia. nia.
    + replace (n * (D * S)) with (n * D * S) by ring. nia.
    + replace (n * (D * S) - m * (100 * S)) with ((n * D - 100 * m) * S) by ring.
      rewrite Z.abs_mul, (Z.abs_eq S) by lia. nia.
Qed.

Lemma hundredths_nonneg (m e : Z) : 0 ≤ m → 0 ≤ hundredths m e.
Proof.
  intros Hm. unfold hundredths. pose proof (ratio_pos m e).
  pose proof (ratio_nonneg m e Hm). apply Z.div_pos; lia.
Qed.

Lemma hundredths_zero (e : Z) : hundredths 0 e = 0.
Proof.
  unfold hundredths. pose proof (ratio_pos 0 e) as Hq.
  assert ((ratio 0 e).1 = 0) as ->.
  { unfold ratio. destruct (0 <=? e); reflexivity. }
  apply Z.div_small. lia.
Qed.

(** A Number below [10^21] with at least one hundredth: the Number read
    from its hundredths is below [10^21], has the same sign and the same
    hundredths. *)
Lemma reread (negative : bool) (m e : Z) :
  canonical (Finite negative m e) →
  1 ≤ hundredths m e →
  (ratio m e).1 < 10 ^ 21 * (ratio m e).2 →
  ∃ m' e',
    Number_of_ratio negative (hundredths m e) 100 = Finite negative m' e'
    ∧ 0 < m'
    ∧ (ratio m' e').1 < 10 ^ 21 * (ratio m' e').2
    ∧ hundredths m' e' = hundredths m e.
Proof.
  intros (Hm & He & Hnorm) Hn Hbelow.
  destruct (Z.le_gt_cases (-6) e) as [Hbig|Hsmall].
  - exists m, e. destruct Hnorm as [Hnorm|]; [|lia].
    split; [apply reread_large; lia|]. split; [lia|]. split; [exact Hbelow|reflexivity].
  - apply reread_small. split; [exact Hn|].
    unfold hundredths, ratio. destruct (Z.leb_spec 0 e); [lia|]. cbn [fst snd].
    set (D := 2 ^ (- e)).
    assert (128 ≤ D) as HD.
    { unfold D. change 128 with (2 ^ 7). apply Z.pow_le_mono_r; lia. }
    apply Z.div_lt_upper_bound; lia.
Qed.

(** ** Digits *)

Lemma decimal_digits_rev_spec (fuel : nat) (n : Z) :
  0 ≤ n < 2 ^ Z.of_nat fuel → fuel ≠ 0%nat →
  Forall (λ d, 0 ≤ d ≤ 9) (decimal_digits_rev fuel n)
  ∧ foldr (λ d acc, d + 10 * acc) 0 (decimal_digits_rev fuel n) = n
  ∧ decimal_digits_rev fuel n ≠ [].
Proof.
  revert n. induction fuel as [|fuel IH]; intros n Hn Hfuel; [congruence|].
  cbn [decimal_digits_rev]. destruct (Z.ltb_spec n 10) as [Hlt|Hge].
  - split; [repeat constructor; lia|]. split; [cbn; lia|discriminate].
  - assert (fuel ≠ 0%nat) as Hfuel'.
    { intros ->. cbn in Hn. lia. }
    destruct (IH (n / 10)) as (Hall & Hval & _); [|exact Hfuel'|].
    + split; [apply Z.div_pos; lia|]. apply Z.div_lt_upper_bound; [lia|].
      rewrite Nat2Z.inj_succ, Z.pow_succ_r in Hn by lia. lia.
    + split; [constructor; [pose proof (Z.mod_pos_bound n 10); lia|exact Hall]|].
      split; [|discriminate]. cbn [foldr]. rewrite Hval.
      pose proof (Z.div_mod n 10). lia.
Qed.

Lemma digit_value_char (d : Z) : 0 ≤ d ≤ 9 → digit_value (digit_char d) = d.
Proof. intros Hd. unfold digit_value, digit_char. rewrite Z2N.id by lia. lia. Qed.

Lemma is_digit_char (d : Z) : 0 ≤ d ≤ 9 → is_digit (digit_char d) = true.
Proof.
  intros Hd. unfold is_digit, digit_char.
  apply andb_true_intro. split; apply N.leb_le; lia.
Qed.

Lemma digits_value_rev (l : list Z) :
  Forall (λ d, 0 ≤ d ≤ 9) l →
  digits_value (digit_char <$> rev l) = foldr (λ d acc, d + 10 * acc) 0 l.
Proof.
  unfold digits_value. induction 1 as [|d l Hd Hl IH]; [reflexivity|].
  cbn [rev foldr]. rewrite fmap_app, fold_left_app, IH. cbn.
  rewrite digit_value_char by exact Hd. lia.
Qed.

Lemma log2_fuel (n : Z) : 0 ≤ n → n < 2 ^ Z.of_nat (S (Z.to_nat (Z.log2 n))).
Proof.
  intros Hn. rewrite Nat2Z.inj_succ, Z2Nat.id by apply Z.log2_nonneg.
  destruct (Z.eq_dec n 0) as [->|Hne]; [reflexivity|].
  apply Z.log2_spec. lia.
Qed.

Lemma decimal_digits_spec (n : Z) :
  0 ≤ n →
  Forall (λ c, is_digit c = true) (decimal_digits n)
  ∧ digits_value (decimal_digits n) = n
  ∧ decimal_digits n ≠ [].
Proof.
  intros Hn. unfold decimal_digits.
  destruct (decimal_digits_rev_spec (S (Z.to_nat (Z.log2 n))) n)
    as (Hall & Hval & Hne); [split; [lia|apply log2_fuel; lia]|discriminate|].
  split; [|split].
  - apply Forall_fmap, Forall_rev. eapply Forall_impl; [exact Hall|].
    intros d Hd. apply is_digit_char, Hd.
  - rewrite digits_value_rev by exact Hall. exact Hval.
  - intros Heq. apply fmap_nil_inv in Heq. apply Hne.
    rewrite <- (rev_involutive (decimal_digits_rev _ _)), Heq. reflexivity.
Qed.

Lemma digits_value_zeros (k : nat) (ds : jsstring) :
  digits_value (replicate k 48%N ++ ds) = digits_value ds.
Proof.
  unfold digits_value. rewrite fold_left_app. f_equal.
  induction k as [|k IH]; [reflexivity|]. cbn. exact IH.
Qed.

Lemma is_digit_range (c : N) : is_digit c = true → (48 ≤ c ≤ 57)%N.
Proof.
  unfold is_digit. intros [H1 H2]%andb_prop.
  apply N.leb_le in H1. apply N.leb_le in H2. lia.
Qed.

Lemma digits_value_nonneg (ds : jsstring) :
  Forall (λ c, is_digit c = true) ds → 0 ≤ digits_value ds.
Proof.
  unfold digits_value. intros Hall.
  enough (∀ acc, 0 ≤ acc → 0 ≤ fold_left (λ acc c, 10 * acc + digit_value c) ds acc)
    as H by (apply H; lia).
  induction Hall as [|c ds Hc _ IH]; intros acc Hacc; [exact Hacc|].
  cbn. apply IH. apply is_digit_range in Hc. unfold digit_value. lia.
Qed.

(** The point before the last two of at least three characters. *)
Lemma insert_point_2 (ds : jsstring) :
  ∃ ip d1 d2,
    insert_point ds 2 = ip ++ js "." ++ [d1; d2]
    ∧ ip ≠ []
    ∧ ip ++ [d1; d2] = replicate (3 - length ds) 48%N ++ ds.
Proof.
  unfold insert_point. cbn [Nat.add]. set (m := replicate _ _ ++ ds).
  assert (3 ≤ length m)%nat as Hlen.
  { unfold m. rewrite length_app, length_replicate. lia. }
  exists (take (length m - 2) m).
  destruct (drop (length m - 2) m) as [|d1 [|d2 [|d3 tl]]] eqn:Hdrop;
    pose proof (length_drop m (length m - 2)) as Hd; rewrite Hdrop in Hd;
    cbn in Hd; try lia.
  exists d1, d2. split; [reflexivity|]. split.
  - intros Hnil. pose proof (length_take m (length m - 2)) as Ht.
    rewrite Hnil in Ht. cbn in Ht. lia.
  - rewrite <- Hdrop. apply take_drop.
Qed.

(** ** Reading what toFixed wrote *)

Lemma digit_not_white (c : N) : is_digit c = true → is_white c = false.
Proof.
  intros Hc%is_digit_range. unfold is_white.
  repeat match goal with
         | |- context [(?a <=? ?b)%N] => destruct (N.leb_spec a b)
         | |- context [(?a =? ?b)%N] => destruct (N.eqb_spec a b)
         end; try reflexivity; lia.
Qed.

Lemma span_digits_app (ds rest : jsstring) :
  Forall (λ c, is_digit c = true) ds →
  (∀ c r, rest = c :: r → is_digit c = false) →
  span_digits (ds ++ rest) = (ds, rest).
Proof.
  intros Hall Hrest. induction Hall as [|c ds Hc _ IH].
  - cbn. destruct rest as [|c r]; [reflexivity|].
    cbn. rewrite (Hrest c r eq_refl). reflexivity.
  - cbn. rewrite Hc, IH. reflexivity.
Qed.

Lemma span_digits_all (ds : jsstring) :
  Forall (λ c, is_digit c = true) ds → span_digits ds = (ds, []).
Proof.
  intros Hall. rewrite <- (app_nil_r ds) at 1.
  apply span_digits_app; [exact Hall|discriminate].
Qed.

Lemma span_digits_digits (s : jsstring) :
  Forall (λ c, is_digit c = true) (span_digits s).1.
Proof.
  induction s as [|c s IH]; [constructor|]. cbn.
  destruct (is_digit c) eqn:Hc; [|constructor].
  destruct (span_digits s) as [ds rest]. cbn in *. constructor; assumption.
Qed.

Lemma unsigned_fixed (negative : bool) (ip : jsstring) (d1 d2 : N) :
  ip ≠ [] → Forall (λ c, is_digit c = true) (ip ++ [d1; d2]) →
  StrUnsignedDecimalLiteral negative (ip ++ js "." ++ [d1; d2])
  = Number_of_ratio negative (digits_value (ip ++ [d1; d2])) 100.
Proof.
  intros Hne Hall. apply Forall_app in Hall as [Hip Hfp].
  unfold StrUnsignedDecimalLiteral.
  destruct ip as [|c ip']; [congruence|].
  assert (starts_with (js "Infinity") ((c :: ip') ++ js "." ++ [d1; d2]) = false) as ->.
  { apply bool_decide_eq_false_2. cbn. intros [= ->]. inversion Hip as [|? ? Hc _].
    discriminate Hc. }
  change (js "." ++ [d1; d2]) with (46%N :: [d1; d2]).
  rewrite span_digits_app; [|exact Hip|intros ? ? [= <- _]; reflexivity].
  cbn [N.eqb Pos.eqb]. rewrite span_digits_all by exact Hfp.
  cbn [app length exponent_part]. reflexivity.
Qed.

Lemma parseFloat_fixed (negative : bool) (ip : jsstring) (d1 d2 : N) :
  ip ≠ [] → Forall (λ c, is_digit c = true) (ip ++ [d1; d2]) →
  parseFloat ((if negative then js "-" else []) ++ ip ++ js "." ++ [d1; d2])
  = Number_of_ratio negative (digits_value (ip ++ [d1; d2])) 100.
Proof.
  intros Hne Hall. rewrite <- (unsigned_fixed negative ip d1 d2 Hne Hall).
  unfold parseFloat. destruct negative.
  - reflexivity.
  - destruct ip as [|c ip']; [congruence|].
    apply Forall_app in Hall as [Hip _]. inversion Hip as [|? ? Hc _]; subst.
    cbn [app trim_start]. rewrite (digit_not_white c Hc). cbn [sign_part].
    apply is_digit_range in Hc.
    destruct (N.eqb_spec c 45); [lia|]. destruct (N.eqb_spec c 43); [lia|].
    reflexivity.
Qed.

Lemma toFixed_below (negative : bool) (m e : Z) :
  (ratio m e).1 < 10 ^ 21 * (ratio m e).2 →
  toFixed (Finite negative m e) 2
  = (if negative && (0 <? m) then js "-" else [])
      ++ insert_point (decimal_digits (hundredths m e)) 2.
Proof.
  intros Hbelow. unfold toFixed, hundredths.
  destruct (ratio m e) as [p q]. cbn [fst snd] in *.
  destruct (Z.leb_spec (10 ^ 21 * q) p); [lia|]. reflexivity.
Qed.

Lemma parseFloat_canonical (x : jsstring) : canonical (parseFloat x).
Proof.
  unfold parseFloat. destruct (sign_part (trim_start x)) as [negative s].
  unfold StrUnsignedDecimalLiteral.
  destruct (starts_with (js "Infinity") s); [exact I|].
  pose proof (span_digits_digits s) as Hip.
  destruct (span_digits s) as [ip r1]. cbn [fst] in Hip.
  assert (∃ fp r2,
            match r1 with
            | c :: r => if (c =? 46)%N then span_digits r else ([], r1)
            | [] => ([], [])
            end = (fp, r2)
            ∧ Forall (λ c, is_digit c = true) fp) as (fp & r2 & -> & Hfp).
  { destruct r1 as [|c r]; [exists [], []; split; [reflexivity|constructor]|].
    destruct (c =? 46)%N; [|exists [], (c :: r); split; [reflexivity|constructor]].
    pose proof (span_digits_digits r) as Hr. destruct (span_digits r) as [fp r2].
    exists fp, r2. split; [reflexivity|exact Hr]. }
  assert (0 ≤ digits_value (ip ++ fp)) as Hval
    by (apply digits_value_nonneg, Forall_app; split; assumption).
  destruct (ip ++ fp) as [|c ds]; [exact I|].
  unfold Number_of_decimal.
  set (E := exponent_part r2 - Z.of_nat (length fp)).
  destruct (Z.leb_spec 0 E).
  - apply Number_of_ratio_canonical; [|lia].
    apply Z.mul_nonneg_nonneg; [exact Hval|]. apply Z.pow_nonneg. lia.
  - apply Number_of_ratio_canonical; [exact Hval|]. apply Z.pow_pos_nonneg; lia.
Qed.

(** ** formatDecimal *)

Lemma formatDecimal_of_number (x : jsstring) :
  formatDecimal x
  = match parseFloat x with
    | NaN => js "0.00"
    | num => toFixed num 2
    end.
Proof. unfold formatDecimal. destruct (parseFloat x); reflexivity. Qed.

Lemma formatDecimal_two_decimals (x : jsstring) :
  below_1e21 (parseFloat x) → two_decimals (formatDecimal x).
Proof.
  intros Hbelow. rewrite formatDecimal_of_number.
  pose proof (parseFloat_canonical x) as Hcan.
  destruct (parseFloat x) as [|negative|negative m e].
  - exists [], (js "0"), 48%N, 48%N. split; [reflexivity|]. split; [left; reflexivity|].
    split; [discriminate|]. repeat constructor.
  - destruct Hbelow.
  - cbn [below_1e21] in Hbelow. destruct Hcan as (Hm & _).
    rewrite toFixed_below by exact Hbelow.
    destruct (decimal_digits_spec (hundredths m e)) as (Hall & _ & _);
      [apply hundredths_nonneg; lia|].
    destruct (insert_point_2 (decimal_digits (hundredths m e)))
      as (ip & d1 & d2 & -> & Hne & Hds).
    exists (if negative && (0 <? m) then js "-" else []), ip, d1, d2.
    split; [reflexivity|]. split; [destruct (negative && (0 <? m)); auto|].
    split; [exact Hne|]. rewrite Hds. apply Forall_app. split; [|exact Hall].
    apply Forall_replicate. reflexivity.
Qed.

(** A Number below [10^21] whose text is not ["-0.00"]: the text reads
    back as a Number with the same text. *)
Lemma toFixed_reread_below (negative : bool) (m e : Z) :
  canonical (Finite negative m e) →
  (ratio m e).1 < 10 ^ 21 * (ratio m e).2 →
  toFixed (Finite negative m e) 2 ≠ js "-0.00" →
  formatDecimal (toFixed (Finite negative m e) 2) = toFixed (Finite negative m e) 2.
Proof.
  intros Hcan Hbelow. pose proof Hcan as (Hm & _).
  rewrite toFixed_below by exact Hbelow.
  set (n := hundredths m e).
  assert (0 ≤ n) as Hn by (apply hundredths_nonneg; lia).
  destruct (decimal_digits_spec n Hn) as (Hall & Hval & _).
  destruct (insert_point_2 (decimal_digits n)) as (ip & d1 & d2 & Hfix & Hne & Hds).
  assert (Forall (λ c, is_digit c = true) (ip ++ [d1; d2])) as Hdigits.
  { rewrite Hds. apply Forall_app. split; [|exact Hall].
    apply Forall_replicate. reflexivity. }
  assert (digits_value (ip ++ [d1; d2]) = n) as Hread
    by (rewrite Hds, digits_value_zeros; exact Hval).
  intros Hnot. rewrite (formatDecimal_of_number (_ ++ _)), Hfix.
  rewrite parseFloat_fixed, Hread by assumption. rewrite <- Hfix.
  destruct (Z.eq_dec n 0) as [Hzero|Hpos].
  - rewrite Hzero in *.
    destruct (negative && (0 <? m)); [exfalso; apply Hnot; reflexivity|].
    vm_compute. reflexivity.
  - assert (0 < m) as Hm'.
    { destruct (Z.eq_dec m 0) as [->|]; [|lia].
      exfalso. apply Hpos. apply hundredths_zero. }
    assert (negative && (0 <? m) = negative) as Hs.
    { destruct (Z.ltb_spec 0 m); [|lia]. apply andb_true_r. }
    rewrite Hs in *.
    destruct (reread negative m e Hcan ltac:(fold n; lia) Hbelow)
      as (m' & e' & Hy & Hm'' & Hbelow' & Hsame).
    fold n in Hy, Hsame. rewrite Hy, (toFixed_below _ _ _ Hbelow'), Hsame.
    destruct (Z.ltb_spec 0 m'); [|lia]. rewrite andb_true_r. reflexivity.
Qed.

(** ** Numbers from [10^21] on *)

Lemma decimal_digits_rev_length (fuel : nat) (n : Z) :
  1 ≤ n < 2 ^ Z.of_nat fuel →
  10 ^ (Z.of_nat (length (decimal_digits_rev fuel n)) - 1) ≤ n
  ∧ n < 10 ^ Z.of_nat (length (decimal_digits_rev fuel n)).
Proof.
  revert n. induction fuel as [|fuel IH]; intros n Hn; [cbn in Hn; lia|].
  cbn [decimal_digits_rev]. destruct (Z.ltb_spec n 10) as [Hlt|Hge].
  - cbn. lia.
  - destruct (IH (n / 10)) as [Hlo Hhi].
    { split; [apply Z.div_le_lower_bound; lia|].
      apply Z.div_lt_upper_bound; [lia|].
      rewrite Nat2Z.inj_succ, Z.pow_succ_r in Hn by lia. lia. }
    set (l := decimal_digits_rev fuel (n / 10)) in *.
    assert (1 ≤ Z.of_nat (length l)) as Hlen.
    { destruct l; [cbn in Hhi; pose proof (Z.div_le_lower_bound n 10 1); lia|].
      cbn [length]. lia. }
    cbn [length]. rewrite Nat2Z.inj_succ.
    replace (Z.succ (Z.of_nat (length l)) - 1)
      with (Z.succ (Z.of_nat (length l) - 1)) by lia.
    rewrite !Z.pow_succ_r by lia.
    pose proof (Z.div_mod n 10 ltac:(lia)). pose proof (Z.mod_pos_bound n 10).
    lia.
Qed.

Lemma decimal_digits_length (n : Z) :
  1 ≤ n →
  10 ^ (Z.of_nat (length (decimal_digits n)) - 1) ≤ n
  ∧ n < 10 ^ Z.of_nat (length (decimal_digits n)).
Proof.
  intros Hn. unfold decimal_digits. rewrite length_fmap, length_rev.
  apply decimal_digits_rev_length. split; [lia|apply log2_fuel; lia].
Qed.

Lemma decimal_digits_length_unique (n k : Z) :
  10 ^ (k - 1) ≤ n → n < 10 ^ k → 1 ≤ k →
  Z.of_nat (length (decimal_digits n)) = k.
Proof.
  intros Hlo Hhi Hk.
  assert (1 ≤ n) as Hn.
  { pose proof (Z.pow_pos_nonneg 10 (k - 1)). lia. }
  destruct (decimal_digits_length n Hn) as [Hlo' Hhi'].
  set (len := Z.of_nat (length (decimal_digits n))) in *.
  assert (1 ≤ len) as Hlen.
  { destruct (decimal_digits_spec n ltac:(lia)) as (_ & _ & Hne).
    unfold len. destruct (decimal_digits n); [congruence|]. cbn [length]. lia. }
  assert (k - 1 < len) by (apply (Z.pow_lt_mono_r_iff 10); lia).
  assert (len - 1 < k) by (apply (Z.pow_lt_mono_r_iff 10); lia).
  lia.
Qed.

Lemma Number_of_ratio_sign (negative : bool) (p q m e : Z) :
  Number_of_ratio false p q = Finite false m e →
  Number_of_ratio negative p q = Finite negative m e.
Proof.
  unfold Number_of_ratio. cbv zeta.
  destruct (2045 <? _); [discriminate|]. intros [= <- <-]. reflexivity.
Qed.

(** A Number that is an integer is the Number of that integer. *)
Lemma Number_of_integer (m e : Z) :
  2 ^ 52 ≤ m < 2 ^ 53 → 0 ≤ e ≤ 971 →
  Number_of_ratio false (m * 2 ^ e) 1 = Finite false m e.
Proof.
  intros Hm He.
  replace (Finite false m e) with (Finite false m (e + 1074 - 1074))
    by (f_equal; lia).
  pose proof (pow2_pos e ltac:(lia)) as HE.
  pose proof (pow2_pos 1074 ltac:(lia)) as HU.
  assert (2 ^ (e + 1074) = 2 ^ e * 2 ^ 1074) as HS by (apply Z.pow_add_r; lia).
  set (E := 2 ^ e) in *. set (U := 2 ^ 1074) in *.
  assert (0 < E * U) as HW by nia.
  apply Number_of_ratio_nearest; fold U; rewrite ?HS.
  - nia.
  - lia.
  - lia.
  - lia.
  - intros _. nia.
  - nia.
  - replace (m * E * U - m * (1 * (E * U))) with 0 by ring. cbn. lia.
Qed.

Lemma shortest_at_spec (x : Number) (X n0 k s : Z) :
  10 ^ (n0 - 1) ≤ X < 10 ^ n0 → 1 ≤ k ≤ n0 →
  shortest_at x X n0 k = Some s →
  Number_of_ratio false (s * 10 ^ (n0 - k)) 1 = x
  ∧ (10 ^ (k - 1) ≤ s < 10 ^ k ∨ s = 10 ^ k).
Proof.
  intros HX Hk. unfold shortest_at. cbv zeta.
  set (u := 10 ^ (n0 - k)).
  assert (0 < u) as Hu by (apply Z.pow_pos_nonneg; lia).
  assert (10 ^ n0 = 10 ^ k * u) as Hsplit.
  { unfold u. rewrite <- Z.pow_add_r by lia. f_equal. lia. }
  assert (10 ^ (n0 - 1) = 10 ^ (k - 1) * u) as Hsplit'.
  { unfold u. rewrite <- Z.pow_add_r by lia. f_equal. lia. }
  assert (10 ^ (k - 1) ≤ X / u < 10 ^ k) as Hlo.
  { split; [apply Z.div_le_lower_bound; lia|apply Z.div_lt_upper_bound; lia]. }
  set (lo := X / u) in *.
  assert (10 ^ (k - 1) ≤ lo + 1 < 10 ^ k ∨ lo + 1 = 10 ^ k) as Hhi by lia.
  destruct (bool_decide (Number_of_ratio false (lo * u) 1 = x)) eqn:Hoklo;
    destruct (bool_decide (Number_of_ratio false ((lo + 1) * u) 1 = x)) eqn:Hokhi;
    try apply bool_decide_eq_true_1 in Hoklo;
    try apply bool_decide_eq_true_1 in Hokhi;
    repeat match goal with
           | |- context [if ?b then _ else _] => destruct b
           end;
    intros [= <-]; auto.
Qed.

Lemma shortest_from_spec (fuel : nat) (x : Number) (X n0 k : Z) :
  10 ^ (n0 - 1) ≤ X < 10 ^ n0 → 1 ≤ k → k + Z.of_nat fuel = n0 →
  Number_of_ratio false X 1 = x →
  1 ≤ (shortest_from fuel x X n0 k).2 ≤ n0
  ∧ Number_of_ratio false
      ((shortest_from fuel x X n0 k).1
       * 10 ^ (n0 - (shortest_from fuel x X n0 k).2)) 1 = x
  ∧ (10 ^ ((shortest_from fuel x X n0 k).2 - 1) ≤ (shortest_from fuel x X n0 k).1
       < 10 ^ (shortest_from fuel x X n0 k).2
     ∨ (shortest_from fuel x X n0 k).1 = 10 ^ (shortest_from fuel x X n0 k).2).
Proof.
  intros HX. revert k. induction fuel as [|fuel IH]; intros k Hk Hsum Hexact.
  - cbn. assert (k = n0) as -> by lia. split; [lia|].
    rewrite Z.sub_diag, Z.mul_1_r. split; [exact Hexact|left; exact HX].
  - cbn [shortest_from]. destruct (shortest_at x X n0 k) as [s|] eqn:Hat.
    + cbn [fst snd]. split; [lia|]. apply (shortest_at_spec x X n0 k s); [exact HX|lia|exact Hat].
    + apply IH; [lia|lia|exact Hexact].
Qed.

Lemma parseFloat_signed (negative : bool) (c : N) (rest : jsstring) :
  is_digit c = true →
  parseFloat ((if negative then js "-" else []) ++ c :: rest)
  = StrUnsignedDecimalLiteral negative (c :: rest).
Proof.
  intros Hc. unfold parseFloat. destruct negative; [reflexivity|].
  cbn [app trim_start]. rewrite (digit_not_white c Hc). cbn [sign_part].
  apply is_digit_range in Hc.
  destruct (N.eqb_spec c 45); [lia|]. destruct (N.eqb_spec c 43); [lia|].
  reflexivity.
Qed.

Lemma exponent_part_plus (ex : jsstring) :
  Forall (λ c, is_digit c = true) ex → ex ≠ [] →
  exponent_part (101%N :: 43%N :: ex) = digits_value ex.
Proof.
  intros Hex Hne.
  cbn [exponent_part N.eqb Pos.eqb orb sign_part].
  rewrite span_digits_all by exact Hex. cbn [fst].
  destruct ex; [congruence|reflexivity].
Qed.

Lemma span_one_digit (d c : N) (r : jsstring) :
  is_digit d = true → is_digit c = false →
  span_digits (d :: c :: r) = ([d], c :: r).
Proof. intros Hd Hc. cbn. rewrite Hd, Hc. reflexivity. Qed.

Lemma unsigned_exponential (negative : bool) (d : N) (ds ex : jsstring) :
  is_digit d = true →
  Forall (λ c, is_digit c = true) ds →
  Forall (λ c, is_digit c = true) ex → ex ≠ [] →
  StrUnsignedDecimalLiteral negative
    (match ds with
     | [] => [d] ++ js "e+" ++ ex
     | _ => [d] ++ js "." ++ ds ++ js "e+" ++ ex
     end)
  = Number_of_decimal negative (digits_value (d :: ds))
      (digits_value ex - Z.of_nat (length ds)).
Proof.
  intros Hd Hds Hex Hne. unfold StrUnsignedDecimalLiteral.
  assert (∀ rest, starts_with (js "Infinity") (d :: rest) = false) as Hinf.
  { intros rest. apply bool_decide_eq_false_2. cbn. intros [= ->]. discriminate Hd. }
  change (js "e+") with [101%N; 43%N]. change (js ".") with [46%N].
  destruct ds as [|c ds'].
  - cbn [app]. rewrite Hinf, span_one_digit by (exact Hd || reflexivity).
    cbn [N.eqb Pos.eqb]. rewrite exponent_part_plus by assumption. reflexivity.
  - cbn [app]. rewrite Hinf, span_one_digit by (exact Hd || reflexivity).
    cbn [N.eqb Pos.eqb].
    pose proof (span_digits_app (c :: ds') (101%N :: 43%N :: ex) Hds) as Hspan.
    cbn [app] in Hspan. rewrite Hspan by (intros ? ? [= <- _]; reflexivity).
    rewrite exponent_part_plus by assumption. reflexivity.
Qed.

(** What [Number::toString] writes for a Number from [10^21] on reads
    back as that Number. *)
Lemma reread_exponential (negative : bool) (m e : Z) :
  canonical (Finite negative m e) →
  10 ^ 21 * (ratio m e).2 ≤ (ratio m e).1 →
  parseFloat ((if negative then js "-" else []) ++ Number_toString_large m e)
  = Finite negative m e.
Proof.
  intros (Hm & He & Hnorm) Hlarge.
  assert (0 ≤ e) as Hpos.
  { destruct (Z.le_gt_cases 0 e) as [|Hneg]; [assumption|exfalso].
    unfold ratio in Hlarge. destruct (Z.leb_spec 0 e); [lia|]. cbn [fst snd] in Hlarge.
    pose proof (pow2_pos (- e) ltac:(lia)). lia. }
  destruct Hnorm as [Hnorm|]; [|lia].
  unfold ratio in Hlarge. destruct (Z.leb_spec 0 e); [|lia]. cbn [fst snd] in Hlarge.
  unfold Number_toString_large. cbv zeta.
  set (X := m * 2 ^ e) in *.
  destruct (decimal_digits_length X ltac:(lia)) as [HXlo HXhi].
  set (n0 := Z.of_nat (length (decimal_digits X))) in *.
  assert (21 < n0) as Hn0.
  { apply (Z.pow_lt_mono_r_iff 10); lia. }
  pose proof (shortest_from_spec (Z.to_nat (n0 - 1)) (Finite false m e) X n0 1
                ltac:(lia) ltac:(lia) ltac:(lia)
                (Number_of_integer m e ltac:(lia) ltac:(lia)))
    as (Hk & Hvalid & Hrange).
  destruct (shortest_from (Z.to_nat (n0 - 1)) (Finite false m e) X n0 1) as [s k].
  cbn [fst snd] in *.
  destruct (decimal_digits_spec (n0 + 1 - 1) ltac:(lia)) as (Hex1 & Hexv1 & Hexn1).
  destruct (decimal_digits_spec (n0 - 1) ltac:(lia)) as (Hex & Hexv & Hexn).
  destruct (Z.eqb_spec s (10 ^ k)) as [Hcarry|Hnocarry].
  - cbv beta iota zeta. change (decimal_digits 1) with [49%N].
    cbv beta iota. cbn [app].
    rewrite (parseFloat_signed negative 49) by reflexivity.
    pose proof (unsigned_exponential negative 49 [] _ eq_refl (Forall_nil_2 _)
                  Hex1 Hexn1) as Hun.
    cbn [app] in Hun. rewrite Hun.
    rewrite Hexv1. change (digits_value [49%N]) with 1. cbn [length].
    unfold Number_of_decimal.
    match goal with |- context [0 <=? ?E] => destruct (Z.leb_spec 0 E); [|lia] end.
    apply Number_of_ratio_sign. rewrite <- Hvalid, Hcarry. f_equal.
    rewrite <- Z.pow_add_r by lia. rewrite Z.mul_1_l. f_equal. lia.
  - cbv beta iota zeta. destruct Hrange as [Hrange|]; [|lia].
    assert (0 ≤ s) as Hs by (pose proof (Z.pow_pos_nonneg 10 (k - 1)); lia).
    destruct (decimal_digits_spec s Hs) as (Hsd & Hsv & _).
    pose proof (decimal_digits_length_unique s k ltac:(lia) ltac:(lia) ltac:(lia))
      as Hlen.
    destruct (decimal_digits s) as [|d ds] eqn:Hdigits; [cbn in Hlen; lia|].
    apply Forall_cons in Hsd as [Hd Hds].
    assert (parseFloat
              ((if negative then js "-" else []) ++
               match ds with
               | [] => [d] ++ js "e+" ++ decimal_digits (n0 - 1)
               | _ => [d] ++ js "." ++ ds ++ js "e+" ++ decimal_digits (n0 - 1)
               end)
            = Finite negative m e) as Hgoal.
    { assert (∀ rest, parseFloat ((if negative then js "-" else []) ++ d :: rest)
                      = StrUnsignedDecimalLiteral negative (d :: rest)) as Hsigned
        by (intros; apply parseFloat_signed; exact Hd).
      pose proof (unsigned_exponential negative d ds _ Hd Hds Hex Hexn) as Hun.
      destruct ds as [|c ds']; cbn [app] in *; rewrite Hsigned, Hun, Hsv, Hexv;
        unfold Number_of_decimal; cbn [length] in *;
        match goal with |- context [0 <=? ?E] => destruct (Z.leb_spec 0 E); [|lia] end;
        apply Number_of_ratio_sign; rewrite <- Hvalid; do 3 f_equal; lia. }
    destruct ds; exact Hgoal.
Qed.

Lemma toFixed_reread_large (negative : bool) (m e : Z) :
  canonical (Finite negative m e) →
  10 ^ 21 * (ratio m e).2 ≤ (ratio m e).1 →
  formatDecimal (toFixed (Finite negative m e) 2) = toFixed (Finite negative m e) 2.
Proof.
  intros Hcan Hlarge.
  assert (toFixed (Finite negative m e) 2
          = (if negative then js "-" else []) ++ Number_toString_large m e) as Htext.
  { unfold toFixed. pose proof (ratio_pos m e) as Hq.
    destruct (ratio m e) as [p q] eqn:Hr. cbn [fst snd] in *.
    destruct (Z.leb_spec (10 ^ 21 * q) p); [|lia].
    destruct (Z.ltb_spec 0 m) as [_|Hzero]; [rewrite andb_true_r; reflexivity|].
    exfalso. destruct Hcan as (Hm & _). assert (m = 0) as -> by lia.
    unfold ratio in Hr. destruct (0 <=? e); injection Hr as <- <-; lia. }
  rewrite formatDecimal_of_number, Htext, reread_exponential by assumption.
  exact Htext.
Qed.

(** Formatting twice is formatting once, unless the first result is
    ["-0.00"]. *)
Lemma formatDecimal_again (x : jsstring) :
  formatDecimal x ≠ js "-0.00" →
  formatDecimal (formatDecimal x) = formatDecimal x.
Proof.
  rewrite (formatDecimal_of_number x).
  pose proof (parseFloat_canonical x) as Hcan.
  destruct (parseFloat x) as [|negative|negative m e].
  - intros _. vm_compute. reflexivity.
  - intros _. destruct negative; vm_compute; reflexivity.
  - destruct (Z.lt_ge_cases (ratio m e).1 (10 ^ 21 * (ratio m e).2)).
    + apply toFixed_reread_below; assumption.
    + intros _. apply toFixed_reread_large; assumption.
Qed.

(** ** The text of a column value *)

Lemma formatDecimal_column_value (c : Z) :
  Z.abs c < 10 ^ 10 → formatDecimal (decimal_text c) = decimal_text c.
Proof.
  intros Hfits. unfold decimal_text.
  set (n := Z.abs c). assert (0 ≤ n) as Hn by lia.
  destruct (decimal_digits_spec n Hn) as (Hall & Hval & _).
  destruct (insert_point_2 (decimal_digits n)) as (ip & d1 & d2 & Hfix & Hne & Hds).
  assert (Forall (λ c, is_digit c = true) (ip ++ [d1; d2])) as Hdigits.
  { rewrite Hds. apply Forall_app. split; [|exact Hall].
    apply Forall_replicate. reflexivity. }
  assert (digits_value (ip ++ [d1; d2]) = n) as Hread
    by (rewrite Hds, digits_value_zeros; exact Hval).
  rewrite formatDecimal_of_number, Hfix, parseFloat_fixed, Hread by assumption.
  rewrite <- Hfix. destruct (Z.eq_dec n 0) as [Hzero|Hpos].
  - destruct (Z.ltb_spec c 0); [lia|]. rewrite Hzero. vm_compute. reflexivity.
  - destruct (reread_small (c <? 0) n) as (m & e & -> & Hm & Hbelow & Hsame).
    { split; [lia|]. assert (10 ^ 10 < 100 * 2 ^ 46) by reflexivity. lia. }
    rewrite toFixed_below by exact Hbelow. unfold hundredths. rewrite Hsame.
    destruct (Z.ltb_spec 0 m); [|lia]. rewrite andb_true_r. reflexivity.
Qed.

(** ** The claim on formatDecimal *)

Lemma two_decimals_point (s : jsstring) : two_decimals s → 46%N ∈ s.
Proof.
  intros (sign & ip & d1 & d2 & -> & _). rewrite !elem_of_app. right. right.
  left. apply elem_of_cons. left. reflexivity.
Qed.

(** [Infinity] and the numbers from [10^21] on are written without two
    decimals. *)
Lemma formatDecimal_without_two_decimals :
  formatDecimal (js "Infinity") = js "Infinity"
  ∧ ¬ two_decimals (js "Infinity")
  ∧ formatDecimal (js "1e21") = js "1e+21"
  ∧ ¬ two_decimals (js "1e+21").
Proof.
  split; [vm_compute; reflexivity|]. split.
  - intros H%two_decimals_point. vm_compute in H.
    repeat (apply elem_of_cons in H as [H|H]; [discriminate H|]).
    apply elem_of_nil in H. exact H.
  - split; [vm_compute; reflexivity|].
    intros H%two_decimals_point. vm_compute in H.
    repeat (apply elem_of_cons in H as [H|H]; [discriminate H|]).
    apply elem_of_nil in H. exact H.
Qed.

(** C9, as stated, fails: ["-0.001"] is formatted as ["-0.00"], and
    ["-0.00"] as ["0.00"]. *)
Lemma formatDecimal_negative_zero_not_idempotent :
  formatDecimal (js "-0.001") = js "-0.00"
  ∧ formatDecimal (formatDecimal (js "-0.001")) = js "0.00"
  ∧ formatDecimal (formatDecimal (js "-0.001")) ≠ formatDecimal (js "-0.001").
Proof.
  split; [vm_compute; reflexivity|]. split; [vm_compute; reflexivity|].
  vm_compute. discriminate.
Qed.

(** C9, amended: [formatDecimal] is a total function; it gives ["0.00"]
    for ["abc"] and for every input that [parseFloat] cannot read; for
    every input that is read as a finite number below [10^21] in
    magnitude it gives a text with exactly two digits after the point;
    and formatting its result again gives the same text for every input,
    except that the result ["-0.00"], written for a negative number that
    rounds to zero, is formatted as ["0.00"]. *)
Theorem formatDecimal_properties :
  formatDecimal (js "abc") = js "0.00"
  ∧ (∀ x, parseFloat x = NaN → formatDecimal x = js "0.00")
  ∧ (∀ x, below_1e21 (parseFloat x) → two_decimals (formatDecimal x))
  ∧ (∀ x, formatDecimal x ≠ js "-0.00" →
          formatDecimal (formatDecimal x) = formatDecimal x)
  ∧ (∀ x, formatDecimal x = js "-0.00" →
          formatDecimal (formatDecimal x) = js "0.00").
Proof.
  split; [vm_compute; reflexivity|].
  split; [intros x Hx; rewrite formatDecimal_of_number, Hx; reflexivity|].
  split; [exact formatDecimal_two_decimals|].
  split; [exact formatDecimal_again|].
  intros x ->. vm_compute. reflexivity.
Qed.

(** ** The guards of the client on column values *)

Lemma parseFloat_decimal_text (c : Z) :
  parseFloat (decimal_text c) = Number_of_ratio (c <? 0) (Z.abs c) 100.
Proof.
  unfold decimal_text. set (n := Z.abs c). assert (0 ≤ n) as Hn by lia.
  destruct (decimal_digits_spec n Hn) as (Hall & Hval & _).
  destruct (insert_point_2 (decimal_digits n)) as (ip & d1 & d2 & Hfix & Hne & Hds).
  assert (Forall (λ c, is_digit c = true) (ip ++ [d1; d2])) as Hdigits.
  { rewrite Hds. apply Forall_app. split; [|exact Hall].
    apply Forall_replicate. reflexivity. }
  rewrite Hfix, parseFloat_fixed by assumption.
  rewrite Hds, digits_value_zeros, Hval. reflexivity.
Qed.

(** The Number of a count of cents, and its hundredths. *)
Lemma Number_of_cents (negative : bool) (n : Z) :
  0 ≤ n < 10 ^ 10 →
  ∃ m e,
    Number_of_ratio negative n 100 = Finite negative m e
    ∧ 0 ≤ m ∧ (0 < n → 0 < m)
    ∧ hundredths m e = n.
Proof.
  intros Hn. destruct (Z.eq_dec n 0) as [->|Hpos].
  - exists 0, (-1074). split; [destruct negative; reflexivity|].
    split; [lia|]. split; [lia|reflexivity].
  - destruct (reread_small negative n) as (m & e & Hy & Hm & _ & Hsame).
    { split; [lia|]. assert (10 ^ 10 < 100 * 2 ^ 46) by reflexivity. lia. }
    exists m, e. split; [exact Hy|]. split; [lia|]. split; [lia|exact Hsame].
Qed.

Lemma hundredths_bounds (m e : Z) :
  2 * (ratio m e).2 * hundredths m e ≤ 200 * (ratio m e).1 + (ratio m e).2
  ∧ 200 * (ratio m e).1 + (ratio m e).2 < 2 * (ratio m e).2 * (hundredths m e + 1).
Proof.
  unfold hundredths. pose proof (ratio_pos m e) as Hq.
  set (p := (ratio m e).1). set (q := (ratio m e).2) in *.
  pose proof (Z.div_mod (200 * p + q) (2 * q) ltac:(lia)) as Hdm.
  pose proof (Z.mod_pos_bound (200 * p + q) (2 * q) ltac:(lia)) as Hr.
  lia.
Qed.

(** Counts of cents compare as their Numbers do. *)
Lemma Number_compare_cents (a c : Z) :
  0 ≤ a < 10 ^ 10 → 0 ≤ c < 10 ^ 10 →
  Number_compare (Number_of_ratio false a 100) (Number_of_ratio false c 100)
  = Some (a ?= c).
Proof.
  intros Ha Hc.
  destruct (Number_of_cents false a Ha) as (ma & ea & Hya & _ & _ & Hna).
  destruct (Number_of_cents false c Hc) as (mc & ec & Hyc & _ & _ & Hnc).
  destruct (Z.compare_spec a c) as [Heq|Hlt|Hgt].
  - clear Hyc Hnc. rewrite <- Heq, Hya. cbn [Number_compare].
    rewrite Z.compare_refl. reflexivity.
  - rewrite Hya, Hyc. cbn [Number_compare]. unfold signed_ratio.
    cbn [fst snd]. f_equal. apply Z.compare_lt_iff.
    pose proof (hundredths_bounds ma ea) as [_ Hua].
    pose proof (hundredths_bounds mc ec) as [Hlc _].
    pose proof (ratio_pos ma ea) as Hqa. pose proof (ratio_pos mc ec) as Hqc.
    rewrite Hna in Hua. rewrite Hnc in Hlc.
    set (pa := (ratio ma ea).1) in *. set (qa := (ratio ma ea).2) in *.
    set (pc := (ratio mc ec).1) in *. set (qc := (ratio mc ec).2) in *.
    assert (200 * pa * qc < qa * qc * (2 * a + 1)) by nia.
    assert (qa * qc * (2 * c - 1) ≤ 200 * pc * qa) by nia.
    assert (qa * qc * (2 * a + 1) ≤ qa * qc * (2 * c - 1)) by nia.
    lia.
  - rewrite Hya, Hyc. cbn [Number_compare]. unfold signed_ratio.
    cbn [fst snd]. f_equal. apply Z.compare_gt_iff.
    pose proof (hundredths_bounds mc ec) as [_ Huc].
    pose proof (hundredths_bounds ma ea) as [Hla _].
    pose proof (ratio_pos ma ea) as Hqa. pose proof (ratio_pos mc ec) as Hqc.
    rewrite Hna in Hla. rewrite Hnc in Huc.
    set (pa := (ratio ma ea).1) in *. set (qa := (ratio ma ea).2) in *.
    set (pc := (ratio mc ec).1) in *. set (qc := (ratio mc ec).2) in *.
    assert (200 * pc * qa < qc * qa * (2 * c + 1)) by nia.
    assert (qc * qa * (2 * a - 1) ≤ 200 * pa * qc) by nia.
    assert (qc * qa * (2 * c + 1) ≤ qc * qa * (2 * a - 1)) by nia.
    lia.
Qed.

(** The bid form posts an amount exactly when it is above the price it
    shows; a tie is not posted. *)
Lemma handleSubmit_cents (amount shown : Z) :
  0 ≤ amount < 10 ^ 10 → 0 ≤ shown < 10 ^ 10 →
  handleSubmit (decimal_text amount) (decimal_text shown)
  = if amount <=? shown then None else Some (decimal_text amount).
Proof.
  intros Ha Hs. unfold handleSubmit, Number_le.
  rewrite !parseFloat_decimal_text.
  destruct (Z.ltb_spec amount 0); [lia|]. destruct (Z.ltb_spec shown 0); [lia|].
  rewrite !Z.abs_eq by lia. rewrite Number_compare_cents by assumption.
  destruct (Z.leb_spec amount shown) as [Hle|Hgt];
    destruct (Z.compare_spec amount shown); try reflexivity; lia.
Qed.


(** The listing page renders the bid form exactly for a signed-in user on
    an ACTIVE listing before its end time. *)
Lemma bid_form_rendered_iff (isAuthenticated : bool) (artwork : Artwork)
    (now : Time) :
  bid_form_rendered isAuthenticated artwork now = true
  ↔ isAuthenticated = true ∧ a_status artwork = ACTIVE ∧ now < a_endTime artwork.
Proof.
  unfold bid_form_rendered, showBidForm, canPlaceBid.
  destruct isAuthenticated; destruct (a_status artwork);
    destruct (Z.leb_spec (a_endTime artwork) now);
    destruct (Z.ltb_spec now (a_endTime artwork)); cbn;
    split; try discriminate; try (intros (? & ? & ?); discriminate || lia);
    try lia; auto.
Qed.

(** * Where the checks on bids and listings are

    The server stores what it is sent; the comparisons that the
    specification asks of it are made by the client before it posts. *)

(** C1, as stated, fails: on an open listing at 100.00 a bid of 99.99 and
    then a bid that ties the new price are both answered with 201, both are
    stored, and the first one lowers the current price. *)
Lemma post_bids_commits_low_and_tied_bids :
  a_currentPrice <$> artworks (db world_open) !! "L1" = Some 10000
  ∧ after_low_bid.1 = inr (Created_bid ("b1", mkBid "L1" "bob" 9999 (Some 10)))
  ∧ bids (db after_low_bid.2) !! "b1" = Some (mkBid "L1" "bob" 9999 (Some 10))
  ∧ a_currentPrice <$> artworks (db after_low_bid.2) !! "L1" = Some 9999
  ∧ after_tied_bid.1 = inr (Created_bid ("b2", mkBid "L1" "eve" 9999 (Some 20)))
  ∧ bids (db after_tied_bid.2) !! "b2" = Some (mkBid "L1" "eve" 9999 (Some 20)).
Proof. vm_compute. repeat split; reflexivity. Qed.

(** C3, as stated, fails: a listing that is SOLD and whose end time has
    passed still takes a bid; the bid is stored and moves the price. *)
Lemma post_bids_commits_on_sold_listing :
  a_status <$> artworks (db world_sold) !! "L2" = Some SOLD
  ∧ a_endTime <$> artworks (db world_sold) !! "L2" = Some 1000
  ∧ after_late_bid.1 = inr (Created_bid ("b2", mkBid "L2" "eve" 25000 (Some 5000)))
  ∧ bids (db after_late_bid.2) !! "b2" = Some (mkBid "L2" "eve" 25000 (Some 5000))
  ∧ a_currentPrice <$> artworks (db after_late_bid.2) !! "L2" = Some 25000
  ∧ a_status <$> artworks (db after_late_bid.2) !! "L2" = Some SOLD.
Proof. vm_compute. repeat split; reflexivity. Qed.

(** C3, amended: [POST /api/bids] reads neither the status nor the end
    time.  On a listing that is not ACTIVE, or whose end time is at or
    before the time of the bid, a well-formed submission is answered with
    201 like any other: the bid row is stored, the listing keeps its status
    and end time and takes the amount as its current price.  What such a
    listing does not get is the bid form: the listing page of the client
    renders none for it. *)
Theorem post_bids_accepts_on_closed_listing (w : World)
    (userId artworkId id : string) (amount : Cents) (now upd : Time)
    (a : Artwork) :
  artworks (db w) !! artworkId = Some a →
  a_status a ≠ ACTIVE ∨ a_endTime a ≤ now →
  bids (db w) !! id = None →
  fits_decimal amount = true →
  (∃ w' a',
     post_bids userId (mkBidBody (Some artworkId) (Some amount)) id now upd w
       = (inr (Created_bid (id, mkBid artworkId userId amount (Some now))), w')
     ∧ bids (db w') !! id = Some (mkBid artworkId userId amount (Some now))
     ∧ artworks (db w') !! artworkId = Some a'
     ∧ a_status a' = a_status a
     ∧ a_endTime a' = a_endTime a
     ∧ a_currentPrice a' = amount)
  ∧ ∀ isAuthenticated, bid_form_rendered isAuthenticated a now = false.
Proof.
  intros Ha Hclosed Hfresh Hfits. split.
  - eexists. exists (with_currentPrice amount upd a). split.
    + apply post_bids_commits; assumption.
    + cbn. rewrite lookup_insert_eq, lookup_alter. rewrite decide_True by done.
      rewrite Ha. repeat split.
  - intros isAuthenticated.
    destruct (bid_form_rendered isAuthenticated a now) eqn:Hform; [|reflexivity].
    apply bid_form_rendered_iff in Hform as (_ & Hs & Ht).
    destruct Hclosed as [Hstatus|Htime]; [contradiction|lia].
Qed.

Lemma post_bids_accepts_on_closed_listing_witness :
  artworks (db world_sold) !! "L2" = Some sold200
  ∧ (a_status sold200 ≠ ACTIVE ∨ a_endTime sold200 ≤ 5000)
  ∧ bids (db world_sold) !! "b2" = None
  ∧ fits_decimal 25000 = true
  ∧ (∃ w' a',
     post_bids "eve" (mkBidBody (Some "L2") (Some 25000)) "b2" 5000 5001 world_sold
       = (inr (Created_bid ("b2", mkBid "L2" "eve" 25000 (Some 5000))), w')
     ∧ bids (db w') !! "b2" = Some (mkBid "L2" "eve" 25000 (Some 5000))
     ∧ artworks (db w') !! "L2" = Some a'
     ∧ a_status a' = a_status sold200
     ∧ a_endTime a' = a_endTime sold200
     ∧ a_currentPrice a' = 25000)
  ∧ ∀ isAuthenticated, bid_form_rendered isAuthenticated sold200 5000 = false.
Proof.
  split; [reflexivity|]. split; [left; discriminate|].
  split; [reflexivity|]. split; [reflexivity|].
  apply (post_bids_accepts_on_closed_listing world_sold "eve" "L2" "b2" 25000
           5000 5001 sold200);
    [reflexivity | left; discriminate | reflexivity | reflexivity].
Defined.

(** * Properties of the users, the middleware and the routes *)

Lemma world_eta (w : World) : mkWorld (db w) (console w) = w.
Proof. destruct w; reflexivity. Qed.

Lemma db_eta (d : DB) : mkDB (users d) (artworks d) (bids d) = d.
Proof. destruct d; reflexivity. Qed.

Lemma bind_run {A B} (m : M A) (f : A → M B) (w w1 : World) (a : A) :
  m w = (inr a, w1) → bind m f w = f a w1.
Proof. intros H. unfold bind. rewrite H. reflexivity. Qed.

Lemma read_db_run (w : World) : read_db w = (inr (db w), w).
Proof. reflexivity. Qed.

Lemma set_users_insert_id (d : DB) (userId : string) (u : User) :
  users d !! userId = Some u → set_users (insert userId u) d = d.
Proof.
  intros H. unfold set_users. rewrite insert_id by exact H. apply db_eta.
Qed.

Lemma set_users_alter_None (d : DB) (f : User → User) (userId : string) :
  users d !! userId = None → set_users (alter f userId) d = d.
Proof.
  intros H. unfold set_users.
  replace (alter f userId (users d)) with (users d); [apply db_eta|].
  apply map_eq. intros j. destruct (decide (j = userId)) as [->|Hj].
  - rewrite lookup_alter_eq, H. reflexivity.
  - rewrite lookup_alter_ne by congruence. reflexivity.
Qed.

Lemma getUser_run (id : string) (w : World) :
  getUser id w = (inr ((λ u, (id, u)) <$> users (db w) !! id), w).
Proof. reflexivity. Qed.

Lemma upsertUser_run (userData : UpsertUser) (created updated updated' : Time)
    (w : World) :
  ∃ row,
    upsertUser userData created updated updated' w
    = (inr (uu_id userData, row),
       mkWorld (set_users (insert (uu_id userData) row) (db w)) (console w))
    ∧ row =
        match users (db w) !! uu_id userData with
        | None =>
            mkUser (uu_clerkId userData) (uu_email userData)
              (default None (uu_name userData))
              (default BIDDER (uu_role userData)) created updated
        | Some u =>
            mkUser (uu_clerkId userData) (uu_email userData)
              (default (u_name u) (uu_name userData))
              (default (u_role u) (uu_role userData))
              (default (u_createdAt u) (uu_createdAt userData)) updated'
        end.
Proof.
  exists (match users (db w) !! uu_id userData with
          | None =>
              mkUser (uu_clerkId userData) (uu_email userData)
                (default None (uu_name userData))
                (default BIDDER (uu_role userData)) created updated
          | Some u =>
              mkUser (uu_clerkId userData) (uu_email userData)
                (default (u_name u) (uu_name userData))
                (default (u_role u) (uu_role userData))
                (default (u_createdAt u) (uu_createdAt userData)) updated'
          end).
  split; reflexivity.
Qed.

(** ** requireAuth *)

Lemma requireAuth_run (trim : string → string) (s : Session)
    (next : UserInfo → M Reply) (userId : string) (w : World) :
  auth_userId s = Some userId →
  userId ≠ "" →
  requireAuth trim s next w
  = next (userInfo_of userId (clerkUser s))
      (mkWorld
         (set_users (insert userId (authenticated_row trim s userId (db w))) (db w))
         (console w)).
Proof.
  intros Hauth Hne. unfold requireAuth. rewrite Hauth.
  destruct (decide (userId = "")) as [|_]; [contradiction|].
  unfold bind at 1, try_catch, bind at 1. rewrite getUser_run.
  unfold authenticated_row.
  destruct (users (db w) !! userId) as [u|] eqn:Hu; cbn [fmap option_fmap option_map].
  - destruct (nonempty _ && bool_decide _) eqn:Hnew.
    + unfold bind, upsertUser, read_db, write_db, ret. cbn. rewrite Hu. cbn.
      reflexivity.
    + cbn. rewrite set_users_insert_id by exact Hu. rewrite world_eta.
      reflexivity.
  - unfold bind, upsertUser, read_db, write_db, ret. cbn. rewrite Hu. cbn.
    reflexivity.
Qed.

Lemma requireAuth_refuses (trim : string → string) (s : Session)
    (next : UserInfo → M Reply) (w : World) :
  auth_userId s = None ∨ auth_userId s = Some "" →
  requireAuth trim s next w = (inr (Unauthorized "Authentication required"), w).
Proof.
  intros [H|H]; unfold requireAuth; rewrite H; [reflexivity|].
  destruct (decide ("" = "")); [reflexivity|congruence].
Qed.

(** ** requireRole *)

Lemma requireRole_run (requiredRole : UserRole) (userId : string)
    (next : M Reply) (w : World) (u : User) :
  userId ≠ "" →
  users (db w) !! userId = Some u →
  requireRole requiredRole userId next w
  = match requiredRole, u_role u with
    | ADMIN, ADMIN | ARTIST, ARTIST | ARTIST, ADMIN | BIDDER, _ => next w
    | ADMIN, _ => (inr (Answer (Forbidden "Admin access required")), w)
    | ARTIST, BIDDER => (inr (Answer (Forbidden "Artist access required")), w)
    end.
Proof.
  intros Hne Hu. unfold requireRole.
  destruct (decide (userId = "")) as [|_]; [contradiction|].
  unfold bind at 1, try_catch, bind at 1. rewrite getUser_run, Hu.
  cbn [fmap option_fmap option_map].
  destruct requiredRole, (u_role u); reflexivity.
Qed.

Lemma requireRole_no_user (requiredRole : UserRole) (userId : string)
    (next : M Reply) (w : World) :
  userId ≠ "" →
  users (db w) !! userId = None →
  requireRole requiredRole userId next w
  = (inr (Answer (NotFound "User not found")), w).
Proof.
  intros Hne Hu. unfold requireRole.
  destruct (decide (userId = "")) as [|_]; [contradiction|].
  unfold bind at 1, try_catch, bind at 1. rewrite getUser_run, Hu. reflexivity.
Qed.

Lemma requireRole_cases (requiredRole : UserRole) (userId : string)
    (next : M Reply) (w : World) :
  (requireRole requiredRole userId next w = next w
   ∧ is_Some (users (db w) !! userId))
  ∨ (requireRole requiredRole userId next w).2 = w.
Proof.
  destruct (decide (userId = "")) as [->|Hne].
  { right. reflexivity. }
  destruct (users (db w) !! userId) as [u|] eqn:Hu.
  - rewrite (requireRole_run _ _ _ _ u Hne Hu).
    destruct requiredRole, (u_role u); eauto.
  - right. unfold requireRole.
    destruct (decide (userId = "")) as [|_]; [contradiction|].
    unfold bind at 1, try_catch, bind at 1. rewrite getUser_run, Hu. reflexivity.
Qed.

Lemma requireRole_ADMIN_cases (userId : string) (next : M Response) (w : World) :
  requireRole_ADMIN userId next w = next w
  ∨ (requireRole_ADMIN userId next w).2 = w.
Proof.
  rewrite requireRole_ADMIN_run.
  destruct (decide (userId = "")); [right; reflexivity|].
  destruct (users (db w) !! userId) as [u|]; [|right; reflexivity].
  destruct (decide (u_role u = ADMIN)); [left|right]; reflexivity.
Qed.

Lemma requireArtworkOwnership_cases (userId artworkId : string)
    (next : M Response) (w : World) :
  requireArtworkOwnership userId artworkId next w = next w
  ∨ (requireArtworkOwnership userId artworkId next w).2 = w.
Proof.
  rewrite requireArtworkOwnership_run.
  destruct (decide (userId = "" ∨ artworkId = "")); [right; reflexivity|].
  destruct (users (db w) !! userId) as [u|]; [|right; reflexivity].
  destruct (decide (u_role u = ADMIN)); [left; reflexivity|].
  destruct (artworks (db w) !! artworkId) as [a|]; [|right; reflexivity].
  destruct (decide (a_artistId a = userId)); [left|right]; reflexivity.
Qed.

(** ** What the handlers write *)

Lemma answer_world (m : M Response) (w : World) : (answer m w).2 = (m w).2.
Proof. unfold answer, bind, ret. destruct (m w) as [[e|r] w']; reflexivity. Qed.

Lemma try_catch_ret_world {A} (m : M A) (h : Err → A) (w : World) :
  (try_catch m (λ e, ret (h e)) w).2 = (m w).2.
Proof. unfold try_catch, ret. destruct (m w) as [[e|r] w']; reflexivity. Qed.

Lemma bind_ret_world {A B} (m : M A) (f : A → B) (w : World) :
  (bind m (λ a, ret (f a)) w).2 = (m w).2.
Proof. unfold bind, ret. destruct (m w) as [[e|r] w']; reflexivity. Qed.

Lemma rtc_write_eq (d d' : DB) : d' = d → rtc write d d'.
Proof. intros ->. reflexivity. Qed.

Lemma users_only_refl (d d' : DB) :
  d' = d → rtc write d d' ∧ artworks d' = artworks d ∧ bids d' = bids d.
Proof. intros ->. repeat split. reflexivity. Qed.

Lemma users_only_request (d d' : DB) :
  rtc write d d' ∧ artworks d' = artworks d ∧ bids d' = bids d →
  request_writes d d'.
Proof. intros (H & Ha & Hb). exists d'. repeat split; auto. Qed.

Lemma one_write_request (d d' : DB) : d' = d ∨ write d d' → request_writes d d'.
Proof. intros H. exists d. repeat split; [reflexivity|]. exact H. Qed.

Lemma put_user_role_writes (userId : string) (role : option string) (now : Time)
    (w : World) :
  let d' := db (put_user_role userId role now w).2 in
  rtc write (db w) d' ∧ artworks d' = artworks (db w) ∧ bids d' = bids (db w).
Proof.
  intros d'. subst d'. unfold put_user_role. rewrite try_catch_ret_world.
  destruct (role_of_body role) as [r|]; [|apply users_only_refl; reflexivity].
  repeat split. apply rtc_once. apply write_role.
Qed.

Lemma get_user_role_writes (user : UserInfo) (created updated updated' : Time)
    (w : World) :
  let d' := db (get_user_role user created updated updated' w).2 in
  rtc write (db w) d' ∧ artworks d' = artworks (db w) ∧ bids d' = bids (db w).
Proof.
  intros d'. subst d'. unfold get_user_role. rewrite try_catch_ret_world.
  rewrite (bind_run _ _ _ _ _ (getUser_run (ui_id user) w)).
  destruct (users (db w) !! ui_id user) as [u|] eqn:Hu;
    cbn [fmap option_fmap option_map]; [apply users_only_refl; reflexivity|].
  rewrite bind_ret_world.
  destruct (upsertUser_run
              (mkUpsertUser (ui_id user) (ui_id user) (ui_email user)
                 (Some (Some
                    (if nonempty (ui_firstName user) && nonempty (ui_lastName user)
                     then ui_firstName user +:+ " " +:+ ui_lastName user
                     else if nonempty (ui_username user) then ui_username user
                          else "Anonymous User")))
                 (Some BIDDER) None)
              created updated updated' w) as (row & -> & Hrow).
  repeat split. apply rtc_once. cbn. apply write_user.
Qed.

Lemma post_artworks_db (userId : string) (form : ArtworkForm)
    (imageUrl imagePublicId id : string) (created updated : Time) (w : World) :
  let w' := (post_artworks userId form imageUrl imagePublicId id created updated w).2 in
  db w' = db w
  ∨ ∃ row, db w' = set_artworks (insert id row) (db w)
      ∧ artworks (db w) !! id = None
      ∧ a_artistId row = userId
      ∧ a_status row = ACTIVE
      ∧ a_isActive row = Some true
      ∧ a_currentPrice row = a_startingPrice row.
Proof.
  intros w'. subst w'.
  unfold post_artworks, try_catch, bind, insertArtworkSchema_parse, createArtwork,
    read_db, write_db, ret, throw.
  destruct (fb_title form) as [title|]; [|left; reflexivity].
  destruct (fb_description form) as [description|]; [|left; reflexivity].
  destruct (fb_category form) as [category|]; [|left; reflexivity].
  destruct (fb_startingPrice form) as [startingPrice|]; [|left; reflexivity].
  destruct (fb_endTime form) as [endTime|]; [|left; reflexivity].
  destruct (_ && _); [|left; reflexivity].
  cbn.
  destruct endTime as [ms|]; [|left; reflexivity].
  destruct (artworks (db w) !! id) eqn:Hid; [left; reflexivity|].
  destruct (fits_decimal startingPrice); [|left; reflexivity].
  destruct (fits_timestamp ms); [|left; reflexivity].
  right.
  exists (mkArtwork title description imageUrl imagePublicId (Some category)
            startingPrice startingPrice ACTIVE None ms (Some true) userId
            created updated).
  split; [reflexivity|]. repeat split.
Qed.

Lemma post_artworks_upload_writes (userId : string) (upload : Upload)
    (form : ArtworkForm) (id : string) (created updated : Time) (w : World) :
  let d' := db (post_artworks_upload userId upload form id created updated w).2 in
  d' = db w ∨ write (db w) d'.
Proof.
  intros d'. subst d'. unfold post_artworks_upload.
  destruct (requireRole_cases ARTIST userId
              (match upload with
               | NoFile => ret (Answer (BadRequest "Image file is required"))
               | File mimetype size cloudinaryResult =>
                   if negb (fileFilter mimetype) || (fileSize <? size)
                   then ret Express_error
                   else
                     match cloudinaryResult with
                     | None =>
                         ret (Answer (ServerError
                                "Failed to upload image to cloud storage"))
                     | Some (secure_url, public_id) =>
                         answer (post_artworks userId form secure_url public_id
                                   id created updated)
                     end
               end) w) as [[-> Huser]| ->]; [|left; reflexivity].
  destruct upload as [|mimetype size [[secure_url public_id]|]];
    [left; reflexivity| |destruct (_ || _); left; reflexivity].
  destruct (_ || _); [left; reflexivity|].
  rewrite answer_world.
  destruct (post_artworks_db userId form secure_url public_id id created updated w)
    as [->|(row & -> & Hid & Hartist & Hstatus & Hactive & Hprice)];
    [left; reflexivity|].
  right. apply write_listing; try assumption. rewrite Hartist. exact Huser.
Qed.

Lemma post_bids_db (userId : string) (body : BidBody) (id : string)
    (now upd : Time) (w : World) :
  let w' := (post_bids userId body id now upd w).2 in
  db w' = db w
  ∨ ∃ artworkId amount,
      bids (db w) !! id = None
      ∧ db w' =
          mkDB (users (db w))
            (alter (with_currentPrice amount upd) artworkId (artworks (db w)))
            (<[id := mkBid artworkId userId amount (Some now)]> (bids (db w))).
Proof.
  intros w'. subst w'. unfold_M.
  destruct (bb_artworkId body) as [artworkId|]; [|left; reflexivity].
  destruct (bb_amount body) as [amount|]; [|left; reflexivity].
  cbn.
  destruct (bids (db w) !! id) eqn:Hid; [left; reflexivity|].
  destruct (fits_decimal amount) eqn:Hfits; [|left; reflexivity].
  cbn. right. exists artworkId, amount. split; reflexivity.
Qed.

Lemma post_bids_writes (userId : string) (body : BidBody) (id : string)
    (now upd : Time) (w : World) :
  is_Some (users (db w) !! userId) →
  let d' := db (post_bids userId body id now upd w).2 in
  d' = db w ∨ write (db w) d'.
Proof.
  intros Huser d'. subst d'.
  destruct (post_bids_db userId body id now upd w)
    as [->|(artworkId & amount & Hid & ->)]; [left; reflexivity|].
  right.
  apply (write_bid (db w) id (mkBid artworkId userId amount (Some now)) upd);
    assumption.
Qed.

Lemma owner_delete_handler_db (destroy_ok : string → bool) (userId id : string)
    (now : Time) (w : World) :
  let w' :=
    (try_catch
       (artwork <- getArtwork id ;;
        match artwork with
        | None => ret (NotFound "Artwork not found")
        | Some (_, a, _) =>
            if decide (a_artistId a = userId)
            then
              if decide (a_endTime a ≤ now)
              then ret (BadRequest "Cannot delete artwork after auction has ended")
              else
                bids <- getArtworkBids id ;;
                if decide (0 < length bids)%nat
                then ret (BadRequest "Cannot delete artwork with existing bids")
                else deleteArtwork destroy_ok id ;; ret NoContent
            else ret (Forbidden "You can only delete your own artworks")
        end)
       (λ _, ret (ServerError "Failed to delete artwork")) w).2 in
  db w' = db w
  ∨ db w' = set_artworks (delete id) (db w)
    ∧ ¬ has_bid (db w) id
    ∧ ∃ a, artworks (db w) !! id = Some a ∧ a_artistId a = userId ∧ now < a_endTime a.
Proof.
  intros w'. subst w'. rewrite try_catch_ret_world.
  rewrite (bind_run _ _ _ _ _ (getArtwork_run id w)).
  destruct (artworks (db w) !! id) as [a|] eqn:Ha; [|left; reflexivity].
  destruct (decide (a_artistId a = userId)) as [Hartist|]; [|left; reflexivity].
  destruct (decide (a_endTime a ≤ now)) as [|Hend]; [left; reflexivity|].
  destruct (getArtworkBids_run id w) as (l & Hbids & Hlen).
  rewrite (bind_run _ _ _ _ _ Hbids).
  destruct (decide (0 < length l)%nat) as [|Hnone]; [left; reflexivity|].
  destruct (deleteArtwork_run destroy_ok id w) as (w1 & Hdel & Hdb).
  rewrite (bind_run _ _ _ _ _ Hdel). right. split; [exact Hdb|].
  split.
  - rewrite has_bid_size, <- Hlen. exact Hnone.
  - exists a. repeat split; [exact Hartist|lia].
Qed.

Lemma delete_artworks_id_db (destroy_ok : string → bool) (userId id : string)
    (now : Time) (w : World) :
  let w' := (delete_artworks_id destroy_ok userId id now w).2 in
  db w' = db w
  ∨ db w' = set_artworks (delete id) (db w)
    ∧ ¬ has_bid (db w) id
    ∧ ∃ a, artworks (db w) !! id = Some a ∧ a_artistId a = userId ∧ now < a_endTime a.
Proof.
  intros w'. subst w'. unfold delete_artworks_id.
  destruct (requireArtworkOwnership_cases userId id
              (try_catch
                 (artwork <- getArtwork id ;;
                  match artwork with
                  | None => ret (NotFound "Artwork not found")
                  | Some (_, a, _) =>
                      if decide (a_artistId a = userId)
                      then
                        if decide (a_endTime a ≤ now)
                        then ret (BadRequest
                                    "Cannot delete artwork after auction has ended")
                        else
                          bids <- getArtworkBids id ;;
                          if decide (0 < length bids)%nat
                          then ret (BadRequest
                                      "Cannot delete artwork with existing bids")
                          else deleteArtwork destroy_ok id ;; ret NoContent
                      else ret (Forbidden "You can only delete your own artworks")
                  end)
                 (λ _, ret (ServerError "Failed to delete artwork"))) w)
    as [->| ->]; [|left; reflexivity].
  apply owner_delete_handler_db.
Qed.

Lemma delete_admin_artworks_id_db (destroy_ok : string → bool)
    (adminId id : string) (w : World) :
  let w' := (delete_admin_artworks_id destroy_ok adminId id w).2 in
  db w' = db w ∨ db w' = set_artworks (delete id) (db w).
Proof.
  intros w'. subst w'. unfold delete_admin_artworks_id.
  destruct (requireRole_ADMIN_cases adminId
              (try_catch
                 (artwork <- getArtwork id ;;
                  match artwork with
                  | None => ret (NotFound "Artwork not found")
                  | Some _ => deleteArtwork destroy_ok id ;; ret NoContent
                  end)
                 (λ _, ret (ServerError "Failed to delete artwork"))) w)
    as [->| ->]; [|left; reflexivity].
  rewrite try_catch_ret_world.
  rewrite (bind_run _ _ _ _ _ (getArtwork_run id w)).
  destruct (artworks (db w) !! id) as [a|]; [|left; reflexivity].
  destruct (deleteArtwork_run destroy_ok id w) as (w1 & Hdel & Hdb).
  rewrite (bind_run _ _ _ _ _ Hdel). right. exact Hdb.
Qed.

Lemma post_admin_process_expired_artworks_writes (now : Time)
    (stamp : string → Time) (w : World) :
  write (db w) (db (post_admin_process_expired_artworks now stamp w).2).
Proof.
  unfold post_admin_process_expired_artworks.
  rewrite try_catch_ret_world, bind_ret_world.
  destruct (processExpiredArtworks_run now stamp w) as (w' & -> & Hu & Hb & Ha).
  exact (write_sweep (db w) now stamp (db w') Hu Hb Ha).
Qed.

Lemma getUserArtworks_run (userId : string) (w : World) :
  ∃ l, getUserArtworks userId w = (inr l, w)
    ∧ ∀ id a p, (id, a, p) ∈ l ↔
        artworks (db w) !! id = Some a ∧ a_artistId a = userId
        ∧ p = join_user (db w) (a_artistId a).
Proof.
  unfold getUserArtworks, bind, read_db, ret. eexists. split; [reflexivity|].
  intros id a p. rewrite list_elem_of_In, in_map_iff. split.
  - intros ([id' a'] & Heq & Hin). inversion Heq; subst. clear Heq.
    apply list_elem_of_In in Hin. rewrite merge_sort_Permutation in Hin.
    apply elem_of_map_to_list, map_lookup_filter_Some in Hin as [Ha Hartist].
    repeat split; assumption.
  - intros (Ha & Hartist & ->). exists (id, a). split; [reflexivity|].
    apply list_elem_of_In. rewrite merge_sort_Permutation.
    apply elem_of_map_to_list, map_lookup_filter_Some. split; assumption.
Qed.

Lemma activeArtworksWithBids_run (now : string → Time)
    (l : list (string * Artwork * option Person))
    (found : list (string * string * nat)) (w : World) :
  ∃ found', activeArtworksWithBids now l found w = (inr found', w).
Proof.
  revert found. induction l as [|[[id a] p] l IH]; intros found.
  - eexists. reflexivity.
  - cbn [activeArtworksWithBids].
    destruct (getArtworkBids_run id w) as (bs & Hbids & _).
    rewrite (bind_run _ _ _ _ _ Hbids).
    destruct (_ && _); apply IH.
Qed.

Lemma delete_user_account_db (userId : string) (now : string → Time) (w : World) :
  let w' := (delete_user_account userId now w).2 in
  db w' = db w ∨ db w' = cascade_db userId (db w).
Proof.
  intros w'. subst w'. unfold delete_user_account.
  rewrite try_catch_ret_world.
  destruct (getUserArtworks_run userId w) as (l & Hl & _).
  rewrite (bind_run _ _ _ _ _ Hl).
  destruct (activeArtworksWithBids_run now l [] w) as (found & Hfound).
  rewrite (bind_run _ _ _ _ _ Hfound).
  destruct (decide (0 < length found)%nat); [left; reflexivity|].
  rewrite bind_ret_world, deleteUserAccount_run. right. reflexivity.
Qed.

Lemma delete_admin_users_id_db (adminId userId : string) (w : World) :
  let w' := (delete_admin_users_id adminId userId w).2 in
  db w' = db w ∨ adminId ≠ userId ∧ db w' = cascade_db userId (db w).
Proof.
  intros w'. subst w'. unfold delete_admin_users_id.
  destruct (requireRole_ADMIN_cases adminId
              (try_catch
                 (if decide (adminId = userId)
                  then ret (BadRequest "Admins cannot delete their own accounts through this endpoint. Use the regular account deletion.")
                  else
                    d <- read_db ;;
                    match users d !! userId with
                    | None => ret (NotFound "User not found")
                    | Some _ => deleteUserAccount userId true ;; ret NoContent
                    end)
                 (λ _, ret (ServerError "Failed to delete user account"))) w)
    as [->| ->]; [|left; reflexivity].
  rewrite try_catch_ret_world.
  destruct (decide (adminId = userId)) as [|Hne]; [left; reflexivity|].
  rewrite (bind_run _ _ _ _ _ (read_db_run w)).
  destruct (users (db w) !! userId); [|left; reflexivity].
  rewrite bind_ret_world, deleteUserAccount_run. right. split; [exact Hne|reflexivity].
Qed.

Lemma updateUserRole_run (userId : string) (role : UserRole) (now : Time)
    (w : World) :
  updateUserRole userId role now w
  = (inr tt, mkWorld (set_users (alter (with_role role now) userId) (db w)) (console w)).
Proof. reflexivity. Qed.

Lemma fix_roles_run (stamp : string → Time) (l : list (string * User))
    (k : nat) (w : World) :
  fix_roles stamp l k w
  = (inr (k + length (filter (λ r, u_role r.2 ≠ ADMIN) l))%nat,
     mkWorld
       (foldl (λ d r, if decide (u_role r.2 ≠ ADMIN)
                      then set_users (alter (with_role BIDDER (stamp r.1)) r.1) d
                      else d) (db w) l)
       (console w)).
Proof.
  revert k w. induction l as [|[id user] l IH]; intros k w.
  - cbn. rewrite Nat.add_0_r, world_eta. reflexivity.
  - cbn [fix_roles foldl]. cbn [fst snd].
    destruct (decide (u_role user ≠ ADMIN)) as [Hrole|Hrole].
    + rewrite (bind_run _ _ _ _ _ (updateUserRole_run id BIDDER (stamp id) w)).
      rewrite IH. rewrite filter_cons_True by exact Hrole.
      cbn [length db console]. f_equal. f_equal. lia.
    + rewrite IH. rewrite filter_cons_False by exact Hrole. reflexivity.
Qed.

Lemma fix_roles_writes (stamp : string → Time) (l : list (string * User)) (d : DB) :
  let d' :=
    foldl (λ d r, if decide (u_role r.2 ≠ ADMIN)
                  then set_users (alter (with_role BIDDER (stamp r.1)) r.1) d
                  else d) d l in
  rtc write d d' ∧ artworks d' = artworks d ∧ bids d' = bids d.
Proof.
  revert d. induction l as [|[id user] l IH]; intros d;
    [apply users_only_refl; reflexivity|].
  cbn [foldl fst snd]. destruct (decide (u_role user ≠ ADMIN)); [|apply IH].
  destruct (IH (set_users (alter (with_role BIDDER (stamp id)) id) d))
    as (H & Ha & Hb).
  split; [|split; assumption]. eapply rtc_l; [apply write_role|exact H].
Qed.

Lemma getAllUsers_run (w : World) :
  ∃ l, getAllUsers w = (inr l, w)
    ∧ l ≡ₚ map_to_list (users (db w)).
Proof.
  unfold getAllUsers, bind, read_db, ret. eexists. split; [reflexivity|].
  apply merge_sort_Permutation.
Qed.

Lemma post_admin_fix_user_roles_writes (adminId : string) (stamp : string → Time)
    (w : World) :
  let d' := db (post_admin_fix_user_roles adminId stamp w).2 in
  rtc write (db w) d' ∧ artworks d' = artworks (db w) ∧ bids d' = bids (db w).
Proof.
  intros d'. subst d'. unfold post_admin_fix_user_roles.
  destruct (requireRole_cases ADMIN adminId
              (try_catch
                 (allUsers <- getAllUsers ;;
                  fixedCount <- fix_roles stamp allUsers 0 ;;
                  ret (Json_fixed ("Successfully fixed " +:+ pretty fixedCount
                                   +:+ " user roles")
                         (length allUsers) fixedCount))
                 (λ _, ret (Answer (ServerError "Failed to fix user roles")))) w)
    as [[-> _]| ->]; [|apply users_only_refl; reflexivity].
  rewrite try_catch_ret_world.
  destruct (getAllUsers_run w) as (l & Hl & _).
  rewrite (bind_run _ _ _ _ _ Hl), bind_ret_world, fix_roles_run.
  apply fix_roles_writes.
Qed.

Lemma put_admin_users_role_writes (adminId userId : string) (role : option string)
    (now : Time) (w : World) :
  let d' := db (put_admin_users_role adminId userId role now w).2 in
  rtc write (db w) d' ∧ artworks d' = artworks (db w) ∧ bids d' = bids (db w).
Proof.
  intros d'. subst d'. unfold put_admin_users_role.
  destruct (requireRole_cases ADMIN adminId
              (try_catch
                 (match role_of_body role with
                  | None => ret (Answer (BadRequest "Invalid role"))
                  | Some role =>
                      updateUserRole userId role now ;;
                      ret (Json_message "User role updated successfully")
                  end)
                 (λ _, ret (Answer (ServerError "Failed to update user role")))) w)
    as [[-> _]| ->]; [|apply users_only_refl; reflexivity].
  rewrite try_catch_ret_world.
  destruct (role_of_body role) as [r|]; [|apply users_only_refl; reflexivity].
  repeat split. apply rtc_once. apply write_role.
Qed.

Lemma admin_read_world {A} (adminId : string) (m : M A) (f : A → Reply)
    (h : Err → Reply) (w : World) :
  (m w).2 = w →
  (requireRole ADMIN adminId
     (try_catch (x <- m ;; ret (f x)) (λ e, ret (h e))) w).2 = w.
Proof.
  intros Hm.
  destruct (requireRole_cases ADMIN adminId
              (try_catch (x <- m ;; ret (f x)) (λ e, ret (h e))) w)
    as [[-> _]| ->]; [|reflexivity].
  rewrite try_catch_ret_world, bind_ret_world. exact Hm.
Qed.

Lemma ui_id_userInfo_of (userId : string) (clerk : option ClerkUser) :
  ui_id (userInfo_of userId clerk) = userId.
Proof. destruct clerk; reflexivity. Qed.

Lemma requireAuth_writes (trim : string → string) (s : Session)
    (next : UserInfo → M Reply) (w : World) :
  (∀ userId w1,
     auth_userId s = Some userId →
     is_Some (users (db w1) !! userId) →
     request_writes (db w1) (db (next (userInfo_of userId (clerkUser s)) w1).2)) →
  request_writes (db w) (db (requireAuth trim s next w).2).
Proof.
  intros Hnext.
  destruct (auth_userId s) as [userId|] eqn:Hauth.
  - destruct (decide (userId = "")) as [->|Hne].
    + rewrite requireAuth_refuses by (right; exact Hauth).
      apply one_write_request. left. reflexivity.
    + rewrite (requireAuth_run trim s next userId w Hauth Hne).
      destruct (Hnext userId
                  (mkWorld
                     (set_users
                        (insert userId (authenticated_row trim s userId (db w)))
                        (db w))
                     (console w)) eq_refl) as (d1 & Hrtc & Ha & Hb & Hlast).
      { cbn. rewrite lookup_insert_eq. eauto. }
      exists d1. split; [|split; [exact Ha|split; [exact Hb|exact Hlast]]].
      eapply rtc_l; [|exact Hrtc]. cbn [db]. apply write_user.
  - rewrite requireAuth_refuses by (left; exact Hauth).
    apply one_write_request. left. reflexivity.
Qed.

(** Every request writes rows of users, and then at most once. *)
Lemma serve_writes (trim : string → string) (like : string → string → bool)
    (s : Session) (c : Call) (w : World) :
  request_writes (db w) (db (serve trim like s c w).2).
Proof.
  destruct c; cbn [serve];
    try (apply requireAuth_writes; intros uid w1 Hauth Huser;
         rewrite ?ui_id_userInfo_of, ?answer_world).
  - apply one_write_request. left. reflexivity.
  - apply one_write_request. left. unfold get_auth_user.
    rewrite try_catch_ret_world, bind_ret_world. reflexivity.
  - apply users_only_request, get_user_role_writes.
  - apply users_only_request, put_user_role_writes.
  - apply one_write_request. left. unfold get_artworks.
    rewrite try_catch_ret_world, bind_ret_world. reflexivity.
  - apply one_write_request. left. unfold get_artworks_id.
    rewrite try_catch_ret_world.
    rewrite (bind_run _ _ _ _ _ (getArtwork_run id w)).
    destruct (artworks (db w) !! id); reflexivity.
  - apply one_write_request, post_artworks_upload_writes.
  - apply one_write_request. left. unfold get_user_artworks.
    rewrite try_catch_ret_world, bind_ret_world. reflexivity.
  - apply one_write_request.
    destruct (delete_artworks_id_db destroy_ok uid id now w1) as [->|[-> _]];
      [left; reflexivity|]. right. apply write_delete.
  - apply one_write_request. right.
    apply post_admin_process_expired_artworks_writes.
  - apply one_write_request. left. unfold get_artworks_id_bids.
    rewrite try_catch_ret_world, bind_ret_world. reflexivity.
  - apply one_write_request, post_bids_writes. exact Huser.
  - apply one_write_request. left. unfold get_user_bids.
    rewrite try_catch_ret_world, bind_ret_world. reflexivity.
  - apply one_write_request. left. unfold get_stats.
    rewrite try_catch_ret_world, bind_ret_world. reflexivity.
  - apply one_write_request. left. unfold get_admin_stats.
    rewrite admin_read_world; reflexivity.
  - apply one_write_request. left. unfold get_admin_users.
    rewrite admin_read_world; reflexivity.
  - apply one_write_request. left. unfold get_admin_artworks.
    rewrite admin_read_world; reflexivity.
  - apply one_write_request. left. unfold get_admin_bids.
    rewrite admin_read_world; reflexivity.
  - apply users_only_request, put_admin_users_role_writes.
  - apply one_write_request.
    destruct (delete_admin_artworks_id_db destroy_ok uid id w1) as [->| ->];
      [left; reflexivity|]. right. apply write_delete.
  - apply users_only_request, post_admin_fix_user_roles_writes.
  - apply one_write_request.
    destruct (delete_user_account_db uid now w1) as [->| ->];
      [left; reflexivity|]. right. apply write_cascade.
  - apply one_write_request.
    destruct (delete_admin_users_id_db uid userId w1) as [->|[_ ->]];
      [left; reflexivity|]. right. apply write_cascade.
Qed.

(** ** The cascade of an account *)

Lemma user_artworks_keys (userId : string) (m : gmap string Artwork) (j : string) :
  j ∈ map fst (map_to_list (filter (λ kv, a_artistId kv.2 = userId) m))
  ↔ ∃ a, m !! j = Some a ∧ a_artistId a = userId.
Proof.
  rewrite list_elem_of_In, in_map_iff. split.
  - intros ([j' a] & <- & Hin). apply list_elem_of_In, elem_of_map_to_list in Hin.
    apply map_lookup_filter_Some in Hin. exists a. exact Hin.
  - intros (a & Ha & Hartist). exists (j, a). split; [reflexivity|].
    apply list_elem_of_In, elem_of_map_to_list, map_lookup_filter_Some.
    split; assumption.
Qed.

Lemma cascade_db_users (userId : string) (d : DB) :
  users (cascade_db userId d) = delete userId (users d).
Proof.
  unfold cascade_db. cbn [users set_users]. rewrite cascade_steps_users.
  reflexivity.
Qed.

Lemma cascade_db_artworks (userId : string) (d : DB) (j : string) :
  artworks (cascade_db userId d) !! j
  = match artworks d !! j with
    | Some a => if decide (a_artistId a = userId) then None else Some a
    | None => None
    end.
Proof.
  unfold cascade_db. cbn [artworks set_users]. rewrite cascade_steps_artworks.
  cbn [artworks set_bids].
  destruct (decide (j ∈ _)) as [Hin|Hout].
  - apply user_artworks_keys in Hin as (a & -> & Hartist).
    destruct (decide (a_artistId a = userId)); [reflexivity|contradiction].
  - destruct (artworks d !! j) as [a|] eqn:Ha; [|reflexivity].
    destruct (decide (a_artistId a = userId)) as [Hartist|]; [|reflexivity].
    exfalso. apply Hout. apply user_artworks_keys. exists a. split; assumption.
Qed.

Lemma cascade_db_bids (userId : string) (d : DB) (k : string) (b : Bid) :
  bids (cascade_db userId d) !! k = Some b
  ↔ bids d !! k = Some b
    ∧ b_bidderId b ≠ userId
    ∧ ∀ a, artworks d !! b_artworkId b = Some a → a_artistId a ≠ userId.
Proof.
  unfold cascade_db. cbn [bids set_users]. rewrite cascade_steps_bids.
  cbn [bids artworks set_bids]. rewrite map_lookup_filter_Some. cbn [snd].
  rewrite user_artworks_keys. split.
  - intros [[Hb Hbidder] Hout]. repeat split; [assumption..|].
    intros a Ha Hartist. apply Hout. exists a. split; assumption.
  - intros (Hb & Hbidder & Hout). repeat split; [assumption..|].
    intros (a & Ha & Hartist). exact (Hout a Ha Hartist).
Qed.

(** ** What the writes keep *)

Lemma sweep_row_kept (now : Time) (stamp : string → Time) (d : DB) (id : string)
    (a : Artwork) :
  listing_kept a (sweep_row now stamp d id a).
Proof.
  unfold sweep_row, sweep_status, listing_kept.
  destruct (decide (a_status a = ACTIVE ∧ a_endTime a < now)) as [[Hs _]|];
    [|repeat split; left; reflexivity].
  cbn. repeat split. right. split; [exact Hs|].
  destruct (decide _); [left|right]; reflexivity.
Qed.

Lemma listing_kept_refl (a : Artwork) : listing_kept a a.
Proof. unfold listing_kept. repeat split. left. reflexivity. Qed.

Lemma write_users_referenced (d d' : DB) :
  write d d' → users_referenced d → users_referenced d'.
Proof.
  intros Hw [Hbids Harts]. destruct Hw as
    [userId row|userId role now|id row Hid Hartist _ _ _|id row upd Hid Hbidder
    |id|now stamp d' Hu Hb Ha|userId]; split;
    cbn [users artworks bids set_users set_artworks set_bids].
  - intros k b Hb. rewrite lookup_insert_is_Some.
    destruct (decide (userId = b_bidderId b)); [left; assumption|right].
    split; [assumption|]. exact (Hbids k b Hb).
  - intros id a Ha. rewrite lookup_insert_is_Some.
    destruct (decide (userId = a_artistId a)); [left; assumption|right].
    split; [assumption|]. exact (Harts id a Ha).
  - intros k b Hb. apply lookup_alter_is_Some. exact (Hbids k b Hb).
  - intros id a Ha. apply lookup_alter_is_Some. exact (Harts id a Ha).
  - exact Hbids.
  - intros j a. rewrite lookup_insert_Some. intros [[_ <-]|[_ Ha]];
      [exact Hartist|exact (Harts j a Ha)].
  - intros k b. rewrite lookup_insert_Some. intros [[_ <-]|[_ Hb]];
      [exact Hbidder|exact (Hbids k b Hb)].
  - intros j a. rewrite lookup_alter_Some.
    intros [(_ & a0 & Ha0 & ->)|[_ Ha]]; [exact (Harts _ a0 Ha0)|exact (Harts j a Ha)].
  - exact Hbids.
  - intros j a. rewrite lookup_delete_Some. intros [_ Ha]. exact (Harts j a Ha).
  - rewrite Hu, Hb. exact Hbids.
  - intros j a. rewrite Ha, Hu.
    destruct (artworks d !! j) as [a0|] eqn:Ha0; [|discriminate].
    intros [= <-].
    destruct (sweep_row_kept now stamp d j a0) as (_&_&_&_&_&_&_&_&_& -> &_).
    exact (Harts j a0 Ha0).
  - intros k b. rewrite cascade_db_bids, cascade_db_users.
    intros (Hb & Hbidder & _). rewrite lookup_delete_is_Some.
    split; [congruence|]. exact (Hbids k b Hb).
  - intros j a. rewrite cascade_db_artworks, cascade_db_users.
    destruct (artworks d !! j) as [a0|] eqn:Ha0; [|discriminate].
    destruct (decide (a_artistId a0 = userId)); [discriminate|].
    intros [= <-]. rewrite lookup_delete_is_Some.
    split; [congruence|]. exact (Harts j a0 Ha0).
Qed.

Lemma write_listing_kept (d d' : DB) (id : string) (a a' : Artwork) :
  write d d' →
  artworks d !! id = Some a → artworks d' !! id = Some a' → listing_kept a a'.
Proof.
  intros Hw Ha. destruct Hw as
    [userId row|userId role now|id0 row Hid _ _ _ _|id0 row upd _ _
    |id0|now stamp d' Hu Hb Hsweep|userId];
    cbn [users artworks bids set_users set_artworks set_bids].
  - rewrite Ha. intros [= <-]. apply listing_kept_refl.
  - rewrite Ha. intros [= <-]. apply listing_kept_refl.
  - rewrite lookup_insert_Some. intros [[-> _]|[_ Ha']]; [congruence|].
    rewrite Ha in Ha'. injection Ha' as <-. apply listing_kept_refl.
  - rewrite lookup_alter_Some. intros [(_ & a0 & Ha0 & ->)|[_ Ha']].
    + rewrite Ha in Ha0. injection Ha0 as <-.
      unfold listing_kept. cbn. repeat split. left. reflexivity.
    + rewrite Ha in Ha'. injection Ha' as <-. apply listing_kept_refl.
  - rewrite lookup_delete_Some. intros [_ Ha']. rewrite Ha in Ha'.
    injection Ha' as <-. apply listing_kept_refl.
  - rewrite Hsweep, Ha. intros [= <-]. apply sweep_row_kept.
  - rewrite cascade_db_artworks, Ha.
    destruct (decide (a_artistId a = userId)); [discriminate|].
    intros [= <-]. apply listing_kept_refl.
Qed.

Lemma write_listings_public (d d' : DB) :
  write d d' → listings_public d → listings_public d'.
Proof.
  intros Hw Hpub. destruct Hw as
    [userId row|userId role now|id0 row Hid _ Hstatus Hactive _|id0 row upd _ _
    |id0|now stamp d' Hu Hb Hsweep|userId]; intros id a;
    cbn [users artworks bids set_users set_artworks set_bids].
  - apply Hpub.
  - apply Hpub.
  - rewrite lookup_insert_Some. intros [[_ <-]|[_ Ha]]; [|exact (Hpub id a Ha)].
    split; [exact Hactive|]. rewrite Hstatus. discriminate.
  - rewrite lookup_alter_Some. intros [(_ & a0 & Ha0 & ->)|[_ Ha]];
      [exact (Hpub _ a0 Ha0)|exact (Hpub id a Ha)].
  - rewrite lookup_delete_Some. intros [_ Ha]. exact (Hpub id a Ha).
  - rewrite Hsweep. destruct (artworks d !! id) as [a0|] eqn:Ha0; [|discriminate].
    intros [= <-]. destruct (Hpub id a0 Ha0) as [Hactive Hstatus].
    destruct (sweep_row_kept now stamp d id a0)
      as (_&_&_&_&_&_&_&_& -> &_&_& [->|(_ & [->| ->])]);
      (split; [exact Hactive|try exact Hstatus; discriminate]).
  - rewrite cascade_db_artworks.
    destruct (artworks d !! id) as [a0|] eqn:Ha0; [|discriminate].
    destruct (decide (a_artistId a0 = userId)); [discriminate|].
    intros [= <-]. exact (Hpub id a0 Ha0).
Qed.

Lemma rtc_write_keeps (P : DB → Prop) (d d' : DB) :
  (∀ d d', write d d' → P d → P d') → rtc write d d' → P d → P d'.
Proof.
  intros Hstep Hrtc. induction Hrtc as [|d d1 d' Hw _ IH]; [auto|].
  intros HP. apply IH. exact (Hstep d d1 Hw HP).
Qed.

Lemma request_writes_keeps (P : DB → Prop) (d d' : DB) :
  (∀ d d', write d d' → P d → P d') → request_writes d d' → P d → P d'.
Proof.
  intros Hstep (d1 & Hrtc & _ & _ & [->|Hw]) HP.
  - exact (rtc_write_keeps P d d1 Hstep Hrtc HP).
  - apply (Hstep d1 d' Hw). exact (rtc_write_keeps P d d1 Hstep Hrtc HP).
Qed.

(** ** What every request keeps *)

(** X1: every route, and the sweep of the expiration service, keeps the
    references to users whole: if every bid names a stored bidder and
    every listing a stored artist before the request, so they do after
    it. *)
Theorem serve_keeps_users_referenced (trim : string → string)
    (like : string → string → bool) (s : Session) (c : Call) (now : Time)
    (stamp : string → Time) (w : World) :
  users_referenced (db w) →
  users_referenced (db (serve trim like s c w).2)
  ∧ users_referenced (db (processExpiredArtworks now stamp w).2).
Proof.
  intros Href. split.
  - exact (request_writes_keeps users_referenced _ _ write_users_referenced
             (serve_writes trim like s c w) Href).
  - destruct (processExpiredArtworks_run now stamp w) as (w' & -> & Hu & Hb & Ha).
    exact (write_users_referenced _ _ (write_sweep (db w) now stamp (db w') Hu Hb Ha)
             Href).
Qed.

(** X2: no route rewrites a listing that stays: of a listing that is
    stored before and after a request, the request leaves the title, the
    description, the image, the category, the starting price, the start
    and end times, the visibility flag, the artist and the creation time
    as they are, and it leaves the status as it is or moves it from
    ACTIVE to SOLD or to EXPIRED. *)
Theorem serve_moves_listings_forward (trim : string → string)
    (like : string → string → bool) (s : Session) (c : Call) (w : World)
    (id : string) (a a' : Artwork) :
  artworks (db w) !! id = Some a →
  artworks (db (serve trim like s c w).2) !! id = Some a' →
  listing_kept a a'.
Proof.
  intros Ha Ha'.
  destruct (serve_writes trim like s c w) as (d1 & _ & Hsame & _ & [Heq|Hw]).
  - rewrite Heq, Hsame, Ha in Ha'. injection Ha' as <-. apply listing_kept_refl.
  - apply (write_listing_kept d1 _ id a a' Hw); [|exact Ha'].
    rewrite Hsame. exact Ha.
Qed.

(** ** The public list *)

Lemma StronglySorted_weaken {A} (R R' : relation A) (l : list A) :
  (∀ x y, R x y → R' x y) → StronglySorted R l → StronglySorted R' l.
Proof.
  intros HR. induction 1 as [|x l Hl IH Hx]; constructor; [exact IH|].
  eapply Forall_impl; [exact Hx|]. intros y. apply HR.
Qed.

Lemma desc_createdAt_sorted {A} (t : A → Time) (l : list A) :
  StronglySorted (λ r1 r2, t r2 ≤ t r1)
    (merge_sort (λ r1 r2, desc_time (Some (t r1)) (Some (t r2))) l).
Proof.
  assert (Htrans : Transitive (λ r1 r2 : A,
                          Is_true (desc_time (Some (t r1)) (Some (t r2))))).
  { intros r1 r2 r3 H12 H23. cbn in *.
    apply Is_true_true, Z.leb_le in H12. apply Is_true_true, Z.leb_le in H23.
    apply Is_true_true, Z.leb_le. lia. }
  assert (Htotal : Total (λ r1 r2 : A,
                       Is_true (desc_time (Some (t r1)) (Some (t r2))))).
  { intros r1 r2. cbn. destruct (Z.le_ge_cases (t r2) (t r1)) as [H|H];
      [left|right]; apply Is_true_true, Z.leb_le; exact H. }
  eapply StronglySorted_weaken;
    [|exact (@StronglySorted_merge_sort _ _ _ Htrans Htotal l)].
  intros r1 r2 H. cbn in H. apply Is_true_true, Z.leb_le in H. exact H.
Qed.

Lemma getArtworks_run (like : string → string → bool)
    (category search : option string) (w : World) :
  ∃ l, getArtworks like category search w = (inr l, w)
    ∧ (∀ id a p,
         (id, a, p) ∈ l ↔
         artworks (db w) !! id = Some a
         ∧ p = join_user (db w) (a_artistId a)
         ∧ a_isActive a = Some true
         ∧ (∀ text, category = Some text → text ≠ "" → a_category a = Some text)
         ∧ (∀ text, search = Some text → text ≠ "" →
              like ("%" +:+ text +:+ "%") (a_title a) = true
              ∨ like ("%" +:+ text +:+ "%") (a_description a) = true))
    ∧ StronglySorted (λ r1 r2, a_createdAt r2.1.2 ≤ a_createdAt r1.1.2) l
    ∧ NoDup (map (λ r, r.1.1) l).
Proof.
  unfold getArtworks, bind, read_db, ret. eexists. split; [reflexivity|].
  split; [|split].
  - intros id a p. rewrite list_elem_of_In, in_map_iff. split.
    + intros ([id' a'] & Heq & Hin). inversion Heq; subst. clear Heq.
      apply list_elem_of_In in Hin. rewrite merge_sort_Permutation in Hin.
      apply elem_of_map_to_list, map_lookup_filter_Some in Hin as [Ha Hcond].
      cbn [fst snd] in *. apply andb_prop in Hcond as [Hcond Hsearch].
      apply andb_prop in Hcond as [Hactive Hcategory].
      apply bool_decide_eq_true in Hactive.
      repeat split; [exact Ha|exact Hactive| |].
      * intros text -> Hne. unfold nonempty in Hcategory.
        rewrite bool_decide_eq_true_2 in Hcategory by exact Hne.
        apply bool_decide_eq_true in Hcategory. exact Hcategory.
      * intros text -> Hne. unfold nonempty in Hsearch.
        rewrite bool_decide_eq_true_2 in Hsearch by exact Hne.
        apply orb_prop in Hsearch. exact Hsearch.
    + intros (Ha & -> & Hactive & Hcategory & Hsearch). exists (id, a).
      split; [reflexivity|]. apply list_elem_of_In.
      rewrite merge_sort_Permutation.
      apply elem_of_map_to_list, map_lookup_filter_Some. split; [exact Ha|].
      cbn [fst snd]. apply andb_true_intro. split; [apply andb_true_intro; split|].
      * apply bool_decide_eq_true. exact Hactive.
      * destruct category as [text|]; [|reflexivity]. unfold nonempty.
        destruct (bool_decide (text ≠ "")) eqn:Hne; [|reflexivity].
        apply bool_decide_eq_true. apply bool_decide_eq_true in Hne. auto.
      * destruct search as [text|]; [|reflexivity]. unfold nonempty.
        destruct (bool_decide (text ≠ "")) eqn:Hne; [|reflexivity].
        apply bool_decide_eq_true in Hne. apply orb_true_intro. auto.
  - change (map ?f ?l) with (f <$> l).
    eapply StronglySorted_fmap;
      [|apply (desc_createdAt_sorted (λ r : string * Artwork, a_createdAt r.2))].
    intros r1 r2 H. exact H.
  - rewrite map_map. cbn [fst]. rewrite merge_sort_Permutation.
    apply NoDup_fst_map_to_list.
Qed.

(** X3: every route keeps the listings on the public list: if every
    stored listing has [isActive = true] and is not PENDING before a
    request, so it has after it, and then [GET /api/artworks] without
    filters returns every stored listing, the sold and the expired ones
    too. *)
Theorem serve_keeps_listings_public (trim : string → string)
    (like : string → string → bool) (s : Session) (c : Call) (w : World) :
  listings_public (db w) →
  let w' := (serve trim like s c w).2 in
  listings_public (db w')
  ∧ ∃ l, getArtworks like None None w' = (inr l, w')
      ∧ ∀ id a, artworks (db w') !! id = Some a →
          (id, a, join_user (db w') (a_artistId a)) ∈ l.
Proof.
  intros Hpub w'.
  assert (Hpub' : listings_public (db w')).
  { exact (request_writes_keeps listings_public _ _ write_listings_public
             (serve_writes trim like s c w) Hpub). }
  split; [exact Hpub'|].
  destruct (getArtworks_run like None None w') as (l & Hl & Hin & _).
  exists l. split; [exact Hl|]. intros id a Ha. apply Hin.
  repeat split; [exact Ha|exact (proj1 (Hpub' id a Ha))| |]; intros text [=].
Qed.

(** ** Every request is answered *)

Lemma try_catch_ret_answers {A} (m : M A) (h : Err → A) (w : World) :
  ∃ r, (try_catch m (λ e, ret (h e)) w).1 = inr r.
Proof. unfold try_catch, ret. destruct (m w) as [[e|r] w']; eauto. Qed.

Lemma answer_answers (m : M Response) (w : World) :
  (∃ r, (m w).1 = inr r) → ∃ r, (answer m w).1 = inr r.
Proof.
  intros [r Hr]. unfold answer, bind, ret.
  destruct (m w) as [[e|r'] w']; [discriminate|eauto].
Qed.

Lemma requireRole_answers (requiredRole : UserRole) (userId : string)
    (next : M Reply) (w : World) :
  (∃ r, (next w).1 = inr r) →
  ∃ r, (requireRole requiredRole userId next w).1 = inr r.
Proof.
  intros Hnext.
  destruct (decide (userId = "")) as [->|Hne]; [eexists; reflexivity|].
  destruct (users (db w) !! userId) as [u|] eqn:Hu.
  - rewrite (requireRole_run _ _ _ _ u Hne Hu).
    destruct requiredRole, (u_role u); eauto.
  - unfold requireRole.
    destruct (decide (userId = "")) as [|_]; [contradiction|].
    unfold bind at 1, try_catch, bind at 1. rewrite getUser_run, Hu.
    eexists. reflexivity.
Qed.

Lemma requireRole_ADMIN_answers (userId : string) (next : M Response) (w : World) :
  (∃ r, (next w).1 = inr r) →
  ∃ r, (requireRole_ADMIN userId next w).1 = inr r.
Proof.
  intros Hnext. rewrite requireRole_ADMIN_run.
  destruct (decide (userId = "")); [eexists; reflexivity|].
  destruct (users (db w) !! userId) as [u|]; [|eexists; reflexivity].
  destruct (decide (u_role u = ADMIN)); [exact Hnext|eexists; reflexivity].
Qed.

Lemma requireAuth_answers (trim : string → string) (s : Session)
    (next : UserInfo → M Reply) (w : World) :
  (∀ user w1, ∃ r, (next user w1).1 = inr r) →
  ∃ r, (requireAuth trim s next w).1 = inr r.
Proof.
  intros Hnext. destruct (auth_userId s) as [userId|] eqn:Hauth.
  - destruct (decide (userId = "")) as [->|Hne].
    + rewrite requireAuth_refuses by (right; exact Hauth). eauto.
    + rewrite (requireAuth_run trim s next userId w Hauth Hne). apply Hnext.
  - rewrite requireAuth_refuses by (left; exact Hauth). eauto.
Qed.

(** X4: every request is answered: whatever the session, the route, the
    body and the state of the database, the route returns an answer, and
    no error of the storage layer leaves the handler. *)
Theorem serve_always_answers (trim : string → string)
    (like : string → string → bool) (s : Session) (c : Call) (w : World) :
  ∃ reply, (serve trim like s c w).1 = inr reply.
Proof.
  destruct c; cbn [serve];
    try (apply requireAuth_answers; intros user w1);
    try (apply answer_answers);
    try (apply try_catch_ret_answers);
    try (apply requireRole_answers; apply try_catch_ret_answers);
    try (apply requireRole_ADMIN_answers; apply try_catch_ret_answers).
  - eexists. reflexivity.
  - unfold post_artworks_upload. apply requireRole_answers.
    destruct upload as [|mimetype size [[secure_url public_id]|]];
      [eexists; reflexivity| |destruct (_ || _); eexists; reflexivity].
    destruct (_ || _); [eexists; reflexivity|].
    apply answer_answers. unfold post_artworks, try_catch.
    destruct (bind _ _ w1) as [[[]|r] w2]; eexists; reflexivity.
  - unfold delete_artworks_id. rewrite requireArtworkOwnership_run.
    destruct (decide (ui_id user = "" ∨ id = "")); [eexists; reflexivity|].
    destruct (users (db w1) !! ui_id user) as [u|]; [|eexists; reflexivity].
    destruct (decide (u_role u = ADMIN)); [apply try_catch_ret_answers|].
    destruct (artworks (db w1) !! id) as [a|]; [|eexists; reflexivity].
    destruct (decide (a_artistId a = ui_id user));
      [apply try_catch_ret_answers|eexists; reflexivity].
Qed.

(** ** The session and the roles *)

(** X5: [requireAuth], for a session with a user id, hands the request on
    with a row for that user in place: a row that was there keeps its
    role and its creation time, a new row has the role BIDDER and the
    Clerk id of the user; no other user, no listing and no bid is
    written.  A session without a user id, or with an empty one, is
    answered 401 and writes nothing. *)
Theorem requireAuth_ensures_user (trim : string → string) (s : Session)
    (next : UserInfo → M Reply) (w : World) :
  match auth_userId s with
  | None => requireAuth trim s next w
            = (inr (Unauthorized "Authentication required"), w)
  | Some userId =>
      if decide (userId = "")
      then requireAuth trim s next w
           = (inr (Unauthorized "Authentication required"), w)
      else
        ∃ w1 u1,
          requireAuth trim s next w = next (userInfo_of userId (clerkUser s)) w1
          ∧ ui_id (userInfo_of userId (clerkUser s)) = userId
          ∧ artworks (db w1) = artworks (db w)
          ∧ bids (db w1) = bids (db w)
          ∧ users (db w1) = <[userId := u1]> (users (db w))
          ∧ match users (db w) !! userId with
            | Some u => u_role u1 = u_role u ∧ u_createdAt u1 = u_createdAt u
            | None =>
                u_role u1 = BIDDER
                ∧ u_clerkId u1 = userId
                ∧ u_createdAt u1 = auth_created s
                ∧ u_updatedAt u1 = auth_updated s
            end
  end.
Proof.
  destruct (auth_userId s) as [userId|] eqn:Hauth.
  - destruct (decide (userId = "")) as [->|Hne].
    + apply requireAuth_refuses. right. exact Hauth.
    + eexists _, (authenticated_row trim s userId (db w)).
      split; [exact (requireAuth_run trim s next userId w Hauth Hne)|].
      split; [apply ui_id_userInfo_of|]. do 3 (split; [reflexivity|]).
      unfold authenticated_row.
      destruct (users (db w) !! userId) as [u|]; [|repeat split].
      destruct (_ && _); split; reflexivity.
  - apply requireAuth_refuses. left. exact Hauth.
Qed.

Lemma role_of_body_text (r : UserRole) :
  ∃ text, role_of_body (Some text) = Some r.
Proof.
  destruct r; [exists "BIDDER"|exists "ARTIST"|exists "ADMIN"]; reflexivity.
Qed.

(** X6: [PUT /api/user/role] lets every signed-in user take any of the
    three roles, ADMIN too, whatever role the user has: the answer is
    "Role updated successfully", the row of the user has the new role,
    and from then on [requireRole] of that role lets the user through.
    A role that is none of the three is answered 400. *)
Theorem put_user_role_sets_own_role (trim : string → string)
    (like : string → string → bool) (s : Session) (userId : string)
    (role : option string) (now : Time) (w : World) :
  auth_userId s = Some userId →
  userId ≠ "" →
  ∃ w',
    artworks (db w') = artworks (db w)
    ∧ bids (db w') = bids (db w)
    ∧ match role_of_body role with
      | None =>
          serve trim like s (PUT_user_role role now) w
          = (inr (Answer (BadRequest "Invalid role")), w')
      | Some r =>
          serve trim like s (PUT_user_role role now) w
          = (inr (Json_message "Role updated successfully"), w')
          ∧ (∃ u, users (db w') !! userId = Some u
                ∧ u_role u = r ∧ u_updatedAt u = now)
          ∧ ∀ next, requireRole r userId next w' = next w'
      end.
Proof.
  intros Hauth Hne. cbn [serve].
  rewrite (requireAuth_run trim s _ userId w Hauth Hne), ui_id_userInfo_of.
  unfold put_user_role.
  destruct (role_of_body role) as [r|].
  - exists (mkWorld
              (set_users (alter (with_role r now) userId)
                 (set_users (insert userId (authenticated_row trim s userId (db w)))
                    (db w)))
              (console w)).
    split; [reflexivity|]. split; [reflexivity|].
    split; [reflexivity|].
    assert (Hrow : users
                     (set_users (alter (with_role r now) userId)
                        (set_users
                           (insert userId (authenticated_row trim s userId (db w)))
                           (db w))) !! userId
                   = Some (with_role r now (authenticated_row trim s userId (db w)))).
    { cbn. rewrite lookup_alter_eq, lookup_insert_eq. reflexivity. }
    split; [eexists; split; [exact Hrow|split; reflexivity]|].
    intros next.
    rewrite (requireRole_run r userId next
               (mkWorld
                  (set_users (alter (with_role r now) userId)
                     (set_users
                        (insert userId (authenticated_row trim s userId (db w)))
                        (db w)))
                  (console w)) _ Hne Hrow).
    destruct r; reflexivity.
  - exists (mkWorld
              (set_users (insert userId (authenticated_row trim s userId (db w)))
                 (db w))
              (console w)).
    split; [reflexivity|]. split; reflexivity.
Qed.

(** The handler of [PUT /api/admin/users/:userId/role] on an id that names
    no user. *)
Lemma put_admin_users_role_unknown_user_run (adminId userId : string)
    (role : option string) (r : UserRole) (now : Time) (admin : User) (w : World) :
  adminId ≠ "" →
  users (db w) !! adminId = Some admin →
  u_role admin = ADMIN →
  users (db w) !! userId = None →
  role_of_body role = Some r →
  (put_admin_users_role adminId userId role now w).1
  = inr (Json_message "User role updated successfully")
  ∧ db (put_admin_users_role adminId userId role now w).2 = db w.
Proof.
  intros Hne Hadmin Hrole Hnone Hr. unfold put_admin_users_role.
  rewrite (requireRole_run ADMIN adminId _ w admin Hne Hadmin), Hrole, Hr.
  unfold try_catch.
  rewrite (bind_run _ _ _ _ _ (updateUserRole_run userId r now w)).
  unfold ret. rewrite set_users_alter_None by exact Hnone.
  split; reflexivity.
Qed.

Lemma map_to_list_filter_perm {A} (P : string * A → Prop)
    `{!∀ x, Decision (P x)} (m : gmap string A) :
  map_to_list (filter P m) ≡ₚ filter P (map_to_list m).
Proof.
  apply NoDup_Permutation.
  - apply NoDup_map_to_list.
  - apply NoDup_filter, NoDup_map_to_list.
  - intros [k x]. rewrite list_elem_of_filter, !elem_of_map_to_list,
      map_lookup_filter_Some. tauto.
Qed.

Lemma fix_roles_lookup (stamp : string → Time) (l : list (string * User))
    (d : DB) (j : string) :
  NoDup l.*1 →
  (∀ id u, (id, u) ∈ l → users d !! id = Some u) →
  users
    (foldl (λ d r, if decide (u_role r.2 ≠ ADMIN)
                   then set_users (alter (with_role BIDDER (stamp r.1)) r.1) d
                   else d) d l) !! j
  = if decide (j ∈ l.*1)
    then (λ u, if decide (u_role u ≠ ADMIN)
               then with_role BIDDER (stamp j) u else u) <$> users d !! j
    else users d !! j.
Proof.
  revert d. induction l as [|[id u] l IH]; intros d Hnodup Hrows.
  - cbn. destruct (decide (j ∈ [])) as [Hin|]; [|reflexivity].
    apply elem_of_nil in Hin. contradiction.
  - cbn [foldl fst snd]. apply NoDup_cons in Hnodup as [Hid Hnodup].
    rewrite IH; [|exact Hnodup|].
    + rewrite fmap_cons. cbn [fst].
      destruct (decide (j = id)) as [->|Hj].
      * destruct (decide (id ∈ l.*1)) as [|_]; [contradiction|].
        destruct (decide (id ∈ id :: l.*1)) as [_|Hout];
          [|exfalso; apply Hout; left].
        rewrite (Hrows id u) by left.
        destruct (decide (u_role u ≠ ADMIN)) as [Hrole|Hrole].
        -- cbn. rewrite lookup_alter_eq, (Hrows id u) by left. cbn.
           destruct (decide (u_role u ≠ ADMIN)); [reflexivity|contradiction].
        -- rewrite (Hrows id u) by left. cbn.
           destruct (decide (u_role u ≠ ADMIN)); [contradiction|reflexivity].
      * assert (Hsame :
                  users (if decide (u_role u ≠ ADMIN)
                         then set_users (alter (with_role BIDDER (stamp id)) id) d
                         else d) !! j = users d !! j).
        { destruct (decide (u_role u ≠ ADMIN)); [|reflexivity].
          cbn. apply lookup_alter_ne. congruence. }
        rewrite Hsame.
        destruct (decide (j ∈ l.*1)) as [Hin|Hout].
        -- destruct (decide (j ∈ id :: l.*1)) as [_|Hout];
             [reflexivity|exfalso; apply Hout; right; exact Hin].
        -- destruct (decide (j ∈ id :: l.*1)) as [Hin|_]; [|reflexivity].
           apply elem_of_cons in Hin as [->|Hin]; contradiction.
    + intros id' u' Hin. destruct (decide (u_role u ≠ ADMIN)); [|apply Hrows; right; exact Hin].
      cbn. rewrite lookup_alter_ne; [apply Hrows; right; exact Hin|].
      intros ->. apply Hid. apply list_elem_of_fmap. exists (id', u'). split; [reflexivity|exact Hin].
Qed.

(** The handler of [POST /api/admin/fix-user-roles] behind
    [requireRole('ADMIN')]. *)
Lemma post_admin_fix_user_roles_run (adminId : string)
    (stamp : string → Time) (admin : User) (w : World) :
  adminId ≠ "" →
  users (db w) !! adminId = Some admin →
  u_role admin = ADMIN →
  ∃ message w',
    post_admin_fix_user_roles adminId stamp w
    = (inr (Json_fixed message (size (users (db w)))
              (size (filter (λ kv, u_role kv.2 ≠ ADMIN) (users (db w))))), w')
    ∧ (∀ id, users (db w') !! id
             = (λ u, if decide (u_role u ≠ ADMIN)
                     then with_role BIDDER (stamp id) u else u)
               <$> users (db w) !! id)
    ∧ artworks (db w') = artworks (db w)
    ∧ bids (db w') = bids (db w).
Proof.
  intros Hne Hadmin Hrole. unfold post_admin_fix_user_roles.
  rewrite (requireRole_run ADMIN adminId _ w admin Hne Hadmin), Hrole.
  destruct (getAllUsers_run w) as (l & Hl & Hperm). unfold try_catch.
  rewrite (bind_run _ _ _ _ _ Hl).
  rewrite (bind_run _ _ _ _ _ (fix_roles_run stamp l 0 w)).
  unfold ret. eexists _, _. split; [|split; [|split]].
  - f_equal. f_equal. f_equal.
    + rewrite Hperm. apply length_map_to_list.
    + cbn. rewrite <- length_map_to_list, map_to_list_filter_perm, Hperm.
      reflexivity.
  - intros id. cbn [db]. rewrite fix_roles_lookup.
    + destruct (decide (id ∈ l.*1)) as [|Hout]; [reflexivity|].
      destruct (users (db w) !! id) as [u|] eqn:Hu; [|reflexivity].
      exfalso. apply Hout. apply list_elem_of_fmap. exists (id, u).
      split; [reflexivity|]. rewrite Hperm. apply elem_of_map_to_list. exact Hu.
    + rewrite Hperm. apply NoDup_fst_map_to_list.
    + intros id' u Hin. rewrite Hperm in Hin. apply elem_of_map_to_list in Hin.
      exact Hin.
  - cbn [db]. apply fix_roles_writes.
  - cbn [db]. apply fix_roles_writes.
Qed.

(** X9: the role check of the server and the checks of the client agree on the
    roles: for a stored user [requireRole('BIDDER')] lets everybody
    through, [requireRole('ARTIST')] exactly those for whom the client's
    [canUploadArtworks] holds, and [requireRole('ADMIN')] exactly those
    for whom the client's [isAdmin] holds; the others are answered 403
    and nothing is written. *)
Theorem requireRole_agrees_with_client (userId : string) (u : User)
    (next : M Reply) (w : World) :
  userId ≠ "" →
  users (db w) !! userId = Some u →
  requireRole BIDDER userId next w = next w
  ∧ requireRole ARTIST userId next w
    = (if roleUtils.canUploadArtworks (u_role u) then next w
       else (inr (Answer (Forbidden "Artist access required")), w))
  ∧ requireRole ADMIN userId next w
    = (if roleUtils.isAdmin (u_role u) then next w
       else (inr (Answer (Forbidden "Admin access required")), w)).
Proof.
  intros Hne Hu. rewrite !(requireRole_run _ userId next w u Hne Hu).
  destruct (u_role u); repeat split.
Qed.

(** X10: the permissions grow with the role, on the server and in the
    client: what a BIDDER may do an ARTIST may do, and what an ARTIST may
    do an ADMIN may do; a permission that the server does not know is
    given to nobody; and the two tables agree on the permissions that
    both have. *)
Theorem hasPermission_grows_with_role (permission : string)
    (key : roleUtils.Permission.Key) (role : UserRole) :
  (hasPermission BIDDER permission = true → hasPermission ARTIST permission = true)
  ∧ (hasPermission ARTIST permission = true → hasPermission ADMIN permission = true)
  ∧ (permission ∉ permissions ADMIN → hasPermission role permission = false)
  ∧ (roleUtils.hasPermission BIDDER key = true
     → roleUtils.hasPermission ARTIST key = true)
  ∧ (roleUtils.hasPermission ARTIST key = true
     → roleUtils.hasPermission ADMIN key = true)
  ∧ hasPermission role "bid"
    = roleUtils.hasPermission role roleUtils.Permission.canBid
  ∧ hasPermission role "view"
    = roleUtils.hasPermission role roleUtils.Permission.canViewArtworks
  ∧ hasPermission role "upload"
    = roleUtils.hasPermission role roleUtils.Permission.canUploadArtworks
  ∧ hasPermission role "edit_own"
    = roleUtils.hasPermission role roleUtils.Permission.canEditOwnArtworks
  ∧ hasPermission role "delete_own"
    = roleUtils.hasPermission role roleUtils.Permission.canDeleteOwnArtworks
  ∧ hasPermission role "delete_any"
    = roleUtils.hasPermission role roleUtils.Permission.canDeleteAnyArtwork
  ∧ hasPermission role "manage_users"
    = roleUtils.hasPermission role roleUtils.Permission.canManageUsers
  ∧ hasPermission role "view_analytics"
    = roleUtils.hasPermission role roleUtils.Permission.canViewAnalytics.
Proof.
  assert (Hsub1 : permissions BIDDER ⊆ permissions ARTIST).
  { intros p. cbn. rewrite !elem_of_cons. tauto. }
  assert (Hsub2 : permissions ARTIST ⊆ permissions ADMIN).
  { intros p. cbn. rewrite !elem_of_cons. tauto. }
  unfold hasPermission. split; [|split; [|split; [|split; [|split]]]].
  - rewrite !bool_decide_eq_true. apply Hsub1.
  - rewrite !bool_decide_eq_true. apply Hsub2.
  - intros Hout. apply bool_decide_eq_false. intros Hin. apply Hout.
    destruct role; [apply Hsub2, Hsub1|apply Hsub2|]; exact Hin.
  - destruct key; cbn; congruence.
  - destruct key; cbn; congruence.
  - destruct role; repeat split.
Qed.

(** ** The users *)

(** X11: what [upsertUser] writes, [getUser] reads: the row has the Clerk
    id and the e-mail of the data and each of the name and the role that
    the data holds; a new row takes the default role BIDDER and the two
    clock readings of the insert, a row that was there keeps its creation
    time and what the data does not hold; no other row is written. *)
Theorem upsertUser_then_getUser (userData : UpsertUser)
    (created updated updated' : Time) (w : World) :
  ∃ row w',
    upsertUser userData created updated updated' w = (inr (uu_id userData, row), w')
    ∧ getUser (uu_id userData) w' = (inr (Some (uu_id userData, row)), w')
    ∧ u_clerkId row = uu_clerkId userData
    ∧ u_email row = uu_email userData
    ∧ (∀ name, uu_name userData = Some name → u_name row = name)
    ∧ (∀ role, uu_role userData = Some role → u_role row = role)
    ∧ match users (db w) !! uu_id userData with
      | None =>
          u_createdAt row = created ∧ u_updatedAt row = updated
          ∧ (uu_role userData = None → u_role row = BIDDER)
          ∧ (uu_name userData = None → u_name row = None)
      | Some u =>
          u_updatedAt row = updated'
          ∧ (uu_createdAt userData = None → u_createdAt row = u_createdAt u)
          ∧ (uu_role userData = None → u_role row = u_role u)
          ∧ (uu_name userData = None → u_name row = u_name u)
      end
    ∧ (∀ other, other ≠ uu_id userData →
         users (db w') !! other = users (db w) !! other)
    ∧ artworks (db w') = artworks (db w)
    ∧ bids (db w') = bids (db w)
    ∧ console w' = console w.
Proof.
  destruct (upsertUser_run userData created updated updated' w) as (row & Hrun & Hrow).
  exists row. eexists. split; [exact Hrun|].
  split; [rewrite getUser_run; cbn; rewrite lookup_insert_eq; reflexivity|].
  rewrite Hrow.
  destruct (users (db w) !! uu_id userData) as [u|];
    (split; [reflexivity|]); (split; [reflexivity|]);
    (split; [intros name ->; reflexivity|]);
    (split; [intros role ->; reflexivity|]);
    (split; [repeat split; intros ->; reflexivity|]);
    (split; [intros other Hne; cbn; apply lookup_insert_ne; congruence|]);
    repeat split.
Qed.

(** ** Deletion *)

(** X12: [deleteUserAccount] returns normally and removes exactly the
    rows of the user: the user row, every listing of which the user is
    the artist, every bid of the user and every bid on one of those
    listings.  Every other row stays as it is, and a bid that stays names
    a listing that stays if it named a stored listing before. *)
Theorem deleteUserAccount_removes_rows_of_user (userId : string)
    (forceDelete : bool) (w : World) :
  ∃ w',
    deleteUserAccount userId forceDelete w = (inr tt, w')
    ∧ users (db w') = delete userId (users (db w))
    ∧ (∀ id a, artworks (db w') !! id = Some a
               ↔ artworks (db w) !! id = Some a ∧ a_artistId a ≠ userId)
    ∧ (∀ k b, bids (db w') !! k = Some b
              ↔ bids (db w) !! k = Some b
                ∧ b_bidderId b ≠ userId
                ∧ ∀ a, artworks (db w) !! b_artworkId b = Some a →
                       a_artistId a ≠ userId)
    ∧ (∀ k, ¬ orphan_bid (db w) k → ¬ orphan_bid (db w') k).
Proof.
  rewrite deleteUserAccount_run. eexists. split; [reflexivity|]. cbn [db].
  split; [apply cascade_db_users|].
  assert (Harts : ∀ id a, artworks (cascade_db userId (db w)) !! id = Some a
                          ↔ artworks (db w) !! id = Some a ∧ a_artistId a ≠ userId).
  { intros id a. rewrite cascade_db_artworks.
    destruct (artworks (db w) !! id) as [a0|]; [|split; [discriminate|intros [[=] _]]].
    destruct (decide (a_artistId a0 = userId)) as [Hartist|Hartist].
    - split; [discriminate|]. intros [[= <-] Hne]. contradiction.
    - split; [intros [= <-]; split; [reflexivity|exact Hartist]|].
      intros [[= <-] _]. reflexivity. }
  split; [exact Harts|]. split; [apply cascade_db_bids|].
  intros k Hno (b & Hb & Hnone).
  apply cascade_db_bids in Hb as (Hb & _ & Hkept).
  destruct (artworks (db w) !! b_artworkId b) as [a|] eqn:Ha.
  - assert (Hstays : artworks (cascade_db userId (db w)) !! b_artworkId b = Some a).
    { apply Harts. split; [exact Ha|]. exact (Hkept a eq_refl). }
    congruence.
  - apply Hno. exists b. split; assumption.
Qed.

Lemma owner_delete_handler_run (destroy_ok : string → bool) (userId id : string)
    (now : Time) (w : World) :
  let rw :=
    try_catch
      (artwork <- getArtwork id ;;
       match artwork with
       | None => ret (NotFound "Artwork not found")
       | Some (_, a, _) =>
           if decide (a_artistId a = userId)
           then
             if decide (a_endTime a ≤ now)
             then ret (BadRequest "Cannot delete artwork after auction has ended")
             else
               bids <- getArtworkBids id ;;
               if decide (0 < length bids)%nat
               then ret (BadRequest "Cannot delete artwork with existing bids")
               else deleteArtwork destroy_ok id ;; ret NoContent
           else ret (Forbidden "You can only delete your own artworks")
       end)
      (λ _, ret (ServerError "Failed to delete artwork")) w in
  (rw.1 = inr NoContent
   ↔ ∃ a, artworks (db w) !! id = Some a ∧ a_artistId a = userId
        ∧ now < a_endTime a ∧ ¬ has_bid (db w) id)
  ∧ (rw.1 = inr NoContent → db rw.2 = set_artworks (delete id) (db w))
  ∧ (rw.1 ≠ inr NoContent → rw.2 = w).
Proof.
  intros rw. subst rw. unfold try_catch.
  rewrite (bind_run _ _ _ _ _ (getArtwork_run id w)).
  destruct (artworks (db w) !! id) as [a|] eqn:Ha.
  2: { cbn. split; [split; [discriminate|intros (a & [=] & _)]|].
       split; [discriminate|reflexivity]. }
  destruct (decide (a_artistId a = userId)) as [Hartist|Hartist].
  2: { cbn. split; [split; [discriminate|]|split; [discriminate|reflexivity]].
       intros (a' & [= <-] & Hartist' & _). contradiction. }
  destruct (decide (a_endTime a ≤ now)) as [Hend|Hend].
  { cbn. split; [split; [discriminate|]|split; [discriminate|reflexivity]].
    intros (a' & [= <-] & _ & Hnow & _). lia. }
  destruct (getArtworkBids_run id w) as (l & Hbids & Hlen).
  rewrite (bind_run _ _ _ _ _ Hbids).
  destruct (decide (0 < length l)%nat) as [Hsome|Hnone].
  { cbn. split; [split; [discriminate|]|split; [discriminate|reflexivity]].
    intros (a' & _ & _ & _ & Hno). exfalso. apply Hno.
    rewrite has_bid_size, <- Hlen. exact Hsome. }
  destruct (deleteArtwork_run destroy_ok id w) as (w1 & Hdel & Hdb).
  rewrite (bind_run _ _ _ _ _ Hdel). cbn.
  split; [split; [intros _|reflexivity]|split; [intros _; exact Hdb|congruence]].
  exists a. repeat split; [exact Hartist|lia|].
  rewrite has_bid_size, <- Hlen. exact Hnone.
Qed.

(** The handler of [DELETE /api/artworks/:id] behind
    [requireArtworkOwnership()]. *)
Lemma delete_artworks_id_run (destroy_ok : string → bool)
    (userId id : string) (now : Time) (w : World) :
  let rw := delete_artworks_id destroy_ok userId id now w in
  (rw.1 = inr NoContent
   ↔ userId ≠ "" ∧ id ≠ ""
     ∧ ∃ u a, users (db w) !! userId = Some u
         ∧ artworks (db w) !! id = Some a ∧ a_artistId a = userId
         ∧ now < a_endTime a ∧ ¬ has_bid (db w) id)
  ∧ (rw.1 = inr NoContent → db rw.2 = set_artworks (delete id) (db w))
  ∧ (rw.1 ≠ inr NoContent → db rw.2 = db w).
Proof.
  intros rw. subst rw. unfold delete_artworks_id.
  rewrite requireArtworkOwnership_run.
  pose proof (owner_delete_handler_run destroy_ok userId id now w) as Hrun.
  cbv zeta in Hrun.
  destruct (decide (userId = "" ∨ id = "")) as [Hempty|Hfull].
  { cbn. split; [split; [discriminate|]|split; [discriminate|reflexivity]].
    intros (Hu & Hi & _). destruct Hempty; contradiction. }
  assert (userId ≠ "" ∧ id ≠ "") as [Hu0 Hi0]
    by (split; intros ->; apply Hfull; [left|right]; reflexivity).
  destruct (users (db w) !! userId) as [u|] eqn:Hu.
  2: { cbn. split; [split; [discriminate|intros (_ & _ & u & a & [=] & _)]|].
       split; [discriminate|reflexivity]. }
  assert (Hhandler :
            ∀ P : Prop,
              (P ↔ ∃ a, artworks (db w) !! id = Some a ∧ a_artistId a = userId
                      ∧ now < a_endTime a ∧ ¬ has_bid (db w) id) →
              (P ↔ userId ≠ "" ∧ id ≠ ""
                   ∧ ∃ u0 a, Some u = Some u0
                      ∧ artworks (db w) !! id = Some a ∧ a_artistId a = userId
                      ∧ now < a_endTime a ∧ ¬ has_bid (db w) id)).
  { intros P ->. split.
    - intros (a & H). do 2 (split; [assumption|]). exists u, a.
      split; [reflexivity|exact H].
    - intros (_ & _ & _ & a & _ & H). exists a. exact H. }
  destruct (decide (u_role u = ADMIN)) as [_|_].
  { destruct Hrun as (H1 & H2 & H3). split; [apply Hhandler; exact H1|].
    split; [exact H2|]. intros Hother. rewrite (H3 Hother). reflexivity. }
  destruct (artworks (db w) !! id) as [a|] eqn:Ha.
  2: { cbn. split; [split; [discriminate|intros (_ & _ & u' & a & _ & [=] & _)]|].
       split; [discriminate|reflexivity]. }
  destruct (decide (a_artistId a = userId)) as [Hartist|Hartist].
  { destruct Hrun as (H1 & H2 & H3). split; [apply Hhandler; exact H1|].
    split; [exact H2|]. intros Hother. rewrite (H3 Hother). reflexivity. }
  cbn. split; [split; [discriminate|]|split; [discriminate|reflexivity]].
  intros (_ & _ & u' & a' & _ & [= <-] & Hartist' & _). contradiction.
Qed.

(** The handler of [DELETE /api/admin/users/:userId] keeps the row of its
    caller. *)
Lemma delete_admin_users_id_keeps_row (adminId userId : string)
    (admin : User) (w : World) :
  users (db w) !! adminId = Some admin →
  users (db (delete_admin_users_id adminId userId w).2) !! adminId = Some admin.
Proof.
  intros Hadmin.
  destruct (delete_admin_users_id_db adminId userId w) as [->|[Hne ->]];
    [exact Hadmin|].
  rewrite cascade_db_users, lookup_delete_ne by congruence. exact Hadmin.
Qed.

(** X16: [POST /api/bids] does not look the listing up: a bid on an
    [artworkId] that names no listing is answered 201 and stored, no
    listing is written, and the stored bid names a listing that is not
    there. *)
Theorem post_bids_commits_on_missing_listing (userId artworkId id : string)
    (amount : Cents) (now upd : Time) (w : World) :
  bids (db w) !! id = None →
  fits_decimal amount = true →
  artworks (db w) !! artworkId = None →
  ∃ w',
    post_bids userId (mkBidBody (Some artworkId) (Some amount)) id now upd w
    = (inr (Created_bid (id, mkBid artworkId userId amount (Some now))), w')
    ∧ artworks (db w') = artworks (db w)
    ∧ bids (db w') = <[id := mkBid artworkId userId amount (Some now)]> (bids (db w))
    ∧ orphan_bid (db w') id.
Proof.
  intros Hid Hfits Hnone.
  rewrite (post_bids_commits w userId artworkId id amount now upd Hid Hfits).
  eexists. split; [reflexivity|]. cbn [db artworks bids].
  assert (Hsame : alter (with_currentPrice amount upd) artworkId (artworks (db w))
                  = artworks (db w)).
  { apply map_eq. intros j. destruct (decide (j = artworkId)) as [->|Hj].
    - rewrite lookup_alter_eq, Hnone. reflexivity.
    - rewrite lookup_alter_ne by congruence. reflexivity. }
  split; [exact Hsame|]. split; [reflexivity|].
  exists (mkBid artworkId userId amount (Some now)). cbn.
  rewrite lookup_insert_eq, Hsame. split; [reflexivity|exact Hnone].
Qed.

Lemma activeArtworksWithBids_found (now : string → Time)
    (l : list (string * Artwork * option Person))
    (found : list (string * string * nat)) (w : World) :
  ∃ found',
    activeArtworksWithBids now l found w = (inr (found ++ found'), w)
    ∧ (found' = [] ↔
       ∀ id a p, (id, a, p) ∈ l → ¬ (has_bid (db w) id ∧ now id < a_endTime a)).
Proof.
  revert found. induction l as [|[[id a] p] l IH]; intros found.
  - exists []. rewrite app_nil_r. split; [reflexivity|].
    split; [|reflexivity]. intros _ id a p Hin. apply elem_of_nil in Hin.
    contradiction.
  - cbn [activeArtworksWithBids].
    destruct (getArtworkBids_run id w) as (bs & Hbids & Hlen).
    rewrite (bind_run _ _ _ _ _ Hbids).
    destruct (bool_decide (0 < length bs)%nat && bool_decide (now id < a_endTime a))
      eqn:Hcond.
    + apply andb_prop in Hcond as [Hsome Hopen].
      apply bool_decide_eq_true in Hsome. apply bool_decide_eq_true in Hopen.
      destruct (IH (found ++ [(id, a_title a, length bs)])) as (found' & Hrun & _).
      exists ((id, a_title a, length bs) :: found').
      rewrite Hrun, <- app_assoc. split; [reflexivity|].
      split; [discriminate|]. intros Hall. exfalso.
      apply (Hall id a p); [left|]. split; [|exact Hopen].
      rewrite has_bid_size, <- Hlen. exact Hsome.
    + destruct (IH found) as (found' & Hrun & Hiff). exists found'.
      split; [exact Hrun|]. rewrite Hiff. split.
      * intros Hall id' a' p' Hin. apply elem_of_cons in Hin as [[= -> -> ->]|Hin];
          [|exact (Hall id' a' p' Hin)].
        intros [Hbid Hopen]. apply andb_false_iff in Hcond as [Hc|Hc];
          apply bool_decide_eq_false in Hc; apply Hc; [|exact Hopen].
        rewrite Hlen, <- has_bid_size. exact Hbid.
      * intros Hall id' a' p' Hin. apply (Hall id' a' p'). right. exact Hin.
Qed.

(** The handler of [DELETE /api/user/account]. *)
Lemma delete_user_account_run (userId : string) (now : string → Time)
    (w : World) :
  let rw := delete_user_account userId now w in
  let open_with_bids :=
    ∃ id a, artworks (db w) !! id = Some a ∧ a_artistId a = userId
            ∧ has_bid (db w) id ∧ now id < a_endTime a in
  (open_with_bids →
   rw.1 = inr (BadRequest "Cannot delete account while you have active artworks with bids. Please wait for auctions to end or contact support.")
   ∧ db rw.2 = db w)
  ∧ (¬ open_with_bids →
     rw.1 = inr NoContent ∧ db rw.2 = cascade_db userId (db w)).
Proof.
  intros rw open_with_bids. subst rw open_with_bids.
  unfold delete_user_account, try_catch.
  destruct (getUserArtworks_run userId w) as (l & Hl & Hin).
  rewrite (bind_run _ _ _ _ _ Hl).
  destruct (activeArtworksWithBids_found now l [] w) as (found & Hfound & Hiff).
  rewrite (bind_run _ _ _ _ _ Hfound). cbn [app].
  destruct (decide (0 < length found)%nat) as [Hsome|Hnone].
  - split; [intros _; split; reflexivity|]. intros Hno. exfalso.
    assert (Hnil : found = []); [|rewrite Hnil in Hsome; cbn in Hsome; lia].
    apply Hiff. intros id a p Hmem [Hbid Hopen]. apply Hno.
    apply Hin in Hmem as (Ha & Hartist & _). exists id, a. repeat split; assumption.
  - assert (Hnil : found = []) by (destruct found; [reflexivity|cbn in Hnone; lia]).
    split.
    + intros (id & a & Ha & Hartist & Hbid & Hopen). exfalso.
      apply (proj1 Hiff Hnil id a (join_user (db w) (a_artistId a))).
      * apply Hin. repeat split; assumption.
      * split; assumption.
    + intros _. rewrite (bind_run _ _ _ _ _ (deleteUserAccount_run userId false w)).
      split; reflexivity.
Qed.

(** ** Lists and counts *)

Lemma desc_time_sorted {A} (t : A → option Time) (l : list A) :
  StronglySorted (λ r1 r2, desc_time (t r1) (t r2))
    (merge_sort (λ r1 r2, desc_time (t r1) (t r2)) l).
Proof.
  assert (Htrans : Transitive (λ r1 r2 : A, Is_true (desc_time (t r1) (t r2)))).
  { intros r1 r2 r3. cbn. destruct (t r1), (t r2), (t r3); cbn; try tauto.
    intros H12 H23. apply Is_true_true, Z.leb_le in H12.
    apply Is_true_true, Z.leb_le in H23. apply Is_true_true, Z.leb_le. lia. }
  assert (Htotal : Total (λ r1 r2 : A, Is_true (desc_time (t r1) (t r2)))).
  { intros r1 r2. cbn. destruct (t r1) as [t1|], (t r2) as [t2|]; cbn; auto.
    destruct (Z.le_ge_cases t2 t1) as [H|H]; [left|right];
      apply Is_true_true, Z.leb_le; exact H. }
  exact (@StronglySorted_merge_sort _ _ _ Htrans Htotal l).
Qed.

(** X17: [getArtworkBids] returns exactly the bids that name the listing,
    each once and with its bidder, newest first and a bid without a time
    before the others; the bidder is [null] exactly when no user row is
    stored under the bidder's id.  It writes nothing, and for a listing
    that is not stored it returns the bids that still name it. *)
Theorem getArtworkBids_lists_bids_of_listing (artworkId : string) (w : World) :
  ∃ l,
    getArtworkBids artworkId w = (inr l, w)
    ∧ (∀ k b p, (k, b, p) ∈ l ↔
         bids (db w) !! k = Some b ∧ b_artworkId b = artworkId
         ∧ p = join_user (db w) (b_bidderId b))
    ∧ (∀ k b p, (k, b, p) ∈ l → (p = None ↔ users (db w) !! b_bidderId b = None))
    ∧ NoDup (map (λ r, r.1.1) l)
    ∧ length l = size (bids_on (db w) artworkId)
    ∧ StronglySorted
        (λ r1 r2, desc_time (b_createdAt r1.1.2) (b_createdAt r2.1.2)) l.
Proof.
  assert (Hmem : ∀ k b p,
            (k, b, p) ∈ map (λ r : string * Bid, (r.1, r.2, join_user (db w) (b_bidderId r.2)))
                          (merge_sort
                             (λ r1 r2, desc_time (b_createdAt r1.2) (b_createdAt r2.2))
                             (map_to_list
                                (filter (λ kv, b_artworkId kv.2 = artworkId)
                                   (bids (db w)))))
            ↔ bids (db w) !! k = Some b ∧ b_artworkId b = artworkId
              ∧ p = join_user (db w) (b_bidderId b)).
  { intros k b p. rewrite list_elem_of_In, in_map_iff. split.
    - intros ([k' b'] & Heq & Hin). inversion Heq; subst. clear Heq.
      apply list_elem_of_In in Hin. rewrite merge_sort_Permutation in Hin.
      apply elem_of_map_to_list, map_lookup_filter_Some in Hin as [Hb Hon].
      repeat split; assumption.
    - intros (Hb & Hon & ->). exists (k, b). split; [reflexivity|].
      apply list_elem_of_In. rewrite merge_sort_Permutation.
      apply elem_of_map_to_list, map_lookup_filter_Some. split; assumption. }
  unfold getArtworkBids, bind, read_db, ret. eexists. split; [reflexivity|].
  split; [exact Hmem|]. split; [|split; [|split]].
  - intros k b p Hin. apply Hmem in Hin as (_ & _ & ->). unfold join_user.
    destruct (users (db w) !! b_bidderId b); split; congruence.
  - rewrite map_map. cbn [fst]. rewrite merge_sort_Permutation.
    apply NoDup_fst_map_to_list.
  - rewrite length_map, merge_sort_Permutation, length_map_to_list. reflexivity.
  - change (map ?f ?l) with (f <$> l).
    eapply StronglySorted_fmap;
      [|apply (desc_time_sorted (λ r : string * Bid, b_createdAt r.2))].
    intros r1 r2 H. exact H.
Qed.

Lemma sum_amount_insert (m : gmap string Bid) (id : string) (b : Bid) :
  m !! id = None →
  sum_amount (<[id := b]> m) = Some (b_amount b + default 0 (sum_amount m)).
Proof.
  intros Hid. unfold sum_amount.
  destruct (decide (<[id := b]> m = ∅)) as [Hempty|_].
  { apply insert_non_empty in Hempty. contradiction. }
  rewrite map_fold_insert_L; [|intros; lia|exact Hid].
  destruct (decide (m = ∅)) as [->|_]; [|reflexivity].
  rewrite map_fold_empty. reflexivity.
Qed.

(** X18: the statistics count bids, not bidders or sales.  In a database
    whose amounts are numbers, as every database of this model is:
    without a bid the revenue of [getAdminStats] is "0.00"; every bid
    with an amount that is a number that [POST /api/bids] stores, whoever
    places it and on whatever listing, raises [totalCollectors] of
    [getStats] and [totalBids] of [getAdminStats] by one and the revenue
    by its amount, and [totalSales] stays "0.00".  (The amount [NaN],
    which the column also takes and which makes the sum [NaN], is not
    represented.) *)
Theorem stats_count_every_bid (userId artworkId id : string) (amount : Cents)
    (now upd : Time) (w : World) :
  bids (db w) !! id = None →
  fits_decimal amount = true →
  ∃ w' stats stats' admin admin',
    (post_bids userId (mkBidBody (Some artworkId) (Some amount)) id now upd w).2 = w'
    ∧ getStats w = (inr stats, w)
    ∧ getStats w' = (inr stats', w')
    ∧ getAdminStats w = (inr admin, w)
    ∧ getAdminStats w' = (inr admin', w')
    ∧ s_totalCollectors stats' = S (s_totalCollectors stats)
    ∧ s_totalSales stats' = "0.00"
    ∧ as_totalBids admin' = S (as_totalBids admin)
    ∧ as_totalRevenue admin'
      = decimal_text (amount + default 0 (sum_amount (bids (db w))))
    ∧ (bids (db w) = ∅ → as_totalRevenue admin = js "0.00").
Proof.
  intros Hid Hfits.
  rewrite (post_bids_commits w userId artworkId id amount now upd Hid Hfits).
  eexists _, _, _, _, _. split; [reflexivity|].
  do 4 (split; [reflexivity|]). cbn.
  split; [apply map_size_insert_None; exact Hid|]. split; [reflexivity|].
  split; [apply map_size_insert_None; exact Hid|].
  split.
  - rewrite (sum_amount_insert _ _ _ Hid). reflexivity.
  - intros ->. reflexivity.
Qed.

(** X19: [getArtworks] returns exactly the listings with
    [isActive = true] that have the category, if one is asked for, and
    whose title or description the database finds LIKE [%search%], if a
    search text is given; a filter that is absent or empty selects
    nothing out.  Each listing comes once, with its artist, newest
    first, and whatever its status. *)
Theorem getArtworks_lists_active_listings (like : string → string → bool)
    (category search : option string) (w : World) :
  ∃ l, getArtworks like category search w = (inr l, w)
    ∧ (∀ id a p,
         (id, a, p) ∈ l ↔
         artworks (db w) !! id = Some a
         ∧ p = join_user (db w) (a_artistId a)
         ∧ a_isActive a = Some true
         ∧ (∀ text, category = Some text → text ≠ "" → a_category a = Some text)
         ∧ (∀ text, search = Some text → text ≠ "" →
              like ("%" +:+ text +:+ "%") (a_title a) = true
              ∨ like ("%" +:+ text +:+ "%") (a_description a) = true))
    ∧ StronglySorted (λ r1 r2, a_createdAt r2.1.2 ≤ a_createdAt r1.1.2) l
    ∧ NoDup (map (λ r, r.1.1) l).
Proof. exact (getArtworks_run like category search w). Qed.

(** ** Listing creation behind the upload *)

Lemma post_artworks_created (userId : string) (form : ArtworkForm)
    (imageUrl imagePublicId id : string) (created updated : Time)
    (artwork : string * Artwork) (w w' : World) :
  post_artworks userId form imageUrl imagePublicId id created updated w
  = (inr (Created_artwork artwork), w') →
  artwork.1 = id
  ∧ a_artistId artwork.2 = userId
  ∧ a_imageUrl artwork.2 = imageUrl
  ∧ a_imagePublicId artwork.2 = imagePublicId
  ∧ a_status artwork.2 = ACTIVE
  ∧ a_currentPrice artwork.2 = a_startingPrice artwork.2
  ∧ artworks (db w) !! id = None
  ∧ db w' = set_artworks (insert id artwork.2) (db w).
Proof.
  unfold post_artworks, try_catch, bind, insertArtworkSchema_parse, createArtwork,
    read_db, write_db, ret, throw.
  destruct (fb_title form) as [title|]; [|intros [=]].
  destruct (fb_description form) as [description|]; [|intros [=]].
  destruct (fb_category form) as [category|]; [|intros [=]].
  destruct (fb_startingPrice form) as [startingPrice|]; [|intros [=]].
  destruct (fb_endTime form) as [endTime|]; [|intros [=]].
  destruct (_ && _); [|intros [=]].
  cbn.
  destruct endTime as [ms|]; [|intros [=]].
  destruct (artworks (db w) !! id) eqn:Hid; [intros [=]|].
  destruct (fits_decimal startingPrice); [|intros [=]].
  destruct (fits_timestamp ms); [|intros [=]].
  intros [= <- <-]. repeat split.
Qed.

(** What the form of a created listing held. *)
Lemma post_artworks_created_form (userId : string) (form : ArtworkForm)
    (imageUrl imagePublicId id : string) (created updated : Time)
    (artwork : string * Artwork) (w w' : World) :
  post_artworks userId form imageUrl imagePublicId id created updated w
  = (inr (Created_artwork artwork), w') →
  form = mkArtworkForm (Some (a_title artwork.2)) (Some (a_description artwork.2))
           (a_category artwork.2) (Some (a_startingPrice artwork.2))
           (Some (ValidDate (a_endTime artwork.2)))
  ∧ a_title artwork.2 ≠ "" ∧ a_description artwork.2 ≠ ""
  ∧ a_category artwork.2 ≠ None ∧ a_category artwork.2 ≠ Some ""
  ∧ imageUrl ≠ "" ∧ imagePublicId ≠ "" ∧ userId ≠ ""
  ∧ fits_decimal (a_startingPrice artwork.2) = true
  ∧ fits_timestamp (a_endTime artwork.2) = true
  ∧ a_isActive artwork.2 = Some true
  ∧ a_createdAt artwork.2 = created.
Proof.
  unfold post_artworks, try_catch, bind, insertArtworkSchema_parse, createArtwork,
    read_db, write_db, ret, throw.
  destruct form as [[title|] [description|] [category|] [startingPrice|] [endTime|]];
    cbn [fb_title fb_description fb_category fb_startingPrice fb_endTime];
    try (intros Hrun; discriminate Hrun).
  destruct (_ && _) eqn:Hfull; [|intros [=]].
  cbn.
  destruct endTime as [ms|]; [|intros [=]].
  destruct (artworks (db w) !! id) eqn:Hid; [intros [=]|].
  destruct (fits_decimal startingPrice) eqn:Hfits; [|intros [=]].
  destruct (fits_timestamp ms) eqn:Hrange; [|intros [=]].
  intros [= <- <-]. cbn.
  unfold nonempty in Hfull.
  repeat (apply andb_prop in Hfull as [Hfull ?]).
  repeat match goal with
         | H : bool_decide _ = true |- _ => apply bool_decide_eq_true in H
         end.
  repeat split; try assumption; try discriminate. intros [= ->]. contradiction.
Qed.


(** [POST /api/artworks] behind [requireAuth]. *)
Lemma post_artworks_upload_run (userId : string)
    (upload : Upload) (form : ArtworkForm) (id : string) (created updated : Time)
    (w : World) :
  let rw := post_artworks_upload userId upload form id created updated w in
  (∀ artwork,
     rw.1 = inr (Answer (Created_artwork artwork)) →
     ∃ u mimetype size secure_url public_id,
       users (db w) !! userId = Some u
       ∧ (u_role u = ARTIST ∨ u_role u = ADMIN)
       ∧ upload = File mimetype size (Some (secure_url, public_id))
       ∧ fileFilter mimetype = true
       ∧ size ≤ fileSize
       ∧ artwork.1 = id
       ∧ a_artistId artwork.2 = userId
       ∧ a_imageUrl artwork.2 = secure_url
       ∧ a_imagePublicId artwork.2 = public_id
       ∧ a_status artwork.2 = ACTIVE
       ∧ a_currentPrice artwork.2 = a_startingPrice artwork.2
       ∧ artworks (db w) !! id = None
       ∧ db rw.2 = set_artworks (insert id artwork.2) (db w))
  ∧ ((∀ artwork, rw.1 ≠ inr (Answer (Created_artwork artwork))) → db rw.2 = db w).
Proof.
  intros rw. subst rw. unfold post_artworks_upload.
  destruct (decide (userId = "")) as [->|Hne].
  { split; [intros artwork [=]|reflexivity]. }
  destruct (users (db w) !! userId) as [u|] eqn:Hu.
  2: { rewrite (requireRole_no_user ARTIST userId _ w Hne Hu).
       split; [intros artwork [=]|reflexivity]. }
  rewrite (requireRole_run ARTIST userId _ w u Hne Hu).
  destruct (u_role u) eqn:Hrole; [split; [intros artwork [=]|reflexivity]| |];
    (destruct upload as [|mimetype size [[secure_url public_id]|]];
      [split; [intros artwork [=]|reflexivity]
      |
      |destruct (negb (fileFilter mimetype) || (fileSize <? size));
         (split; [intros artwork [=]|reflexivity])]);
    (destruct (negb (fileFilter mimetype) || (fileSize <? size)) eqn:Hfile;
      [split; [intros artwork [=]|reflexivity]|]);
    apply orb_false_elim in Hfile as [Htype Hsize];
    apply negb_false_iff in Htype; apply Z.ltb_ge in Hsize;
    unfold answer, bind, ret;
    destruct (post_artworks userId form secure_url public_id id created updated w)
      as [[e|[bid|artwork'| | | | | |]] w'] eqn:Hpost;
    try (split; [intros artwork [=]|];
         intros _;
         apply (post_artworks_refusal_keeps_db w w' userId form secure_url public_id
                  id created updated _ Hpost); intros artwork; discriminate).
  all: destruct (post_artworks_created _ _ _ _ _ _ _ _ _ _ Hpost)
         as (H1 & H2 & H3 & H4 & H5 & H6 & H7 & H8).
  all: split; [|intros Hnever; exfalso; exact (Hnever artwork' eq_refl)].
  all: intros artwork [= <-]; exists u, mimetype, size, secure_url, public_id.
  all: rewrite Hrole; repeat split; auto.
Qed.

(** ** The answers to requests that fail *)

(** The handlers of the two POST routes on what they cannot store. *)
Lemma post_handlers_error_answers (userId : string) (form : ArtworkForm)
    (body : BidBody) (imageUrl imagePublicId id : string)
    (created updated : Time) (w : World) :
  let artwork_rw :=
    post_artworks userId form imageUrl imagePublicId id created updated w in
  let bid_rw := post_bids userId body id created updated w in
  (fb_title form = None ∨ fb_title form = Some ""
   ∨ fb_description form = None ∨ fb_description form = Some ""
   ∨ fb_category form = None ∨ fb_category form = Some ""
   ∨ fb_startingPrice form = None ∨ fb_endTime form = None
   ∨ imageUrl = "" ∨ imagePublicId = "" ∨ userId = "" →
   artwork_rw.1 = inr (BadRequest "Invalid data") ∧ db artwork_rw.2 = db w)
  ∧ (∀ title description category startingPrice endTime,
       form = mkArtworkForm (Some title) (Some description) (Some category)
                (Some startingPrice) (Some endTime) →
       title ≠ "" → description ≠ "" → category ≠ "" →
       imageUrl ≠ "" → imagePublicId ≠ "" → userId ≠ "" →
       endTime = InvalidDate
       ∨ (∃ ms, endTime = ValidDate ms ∧ fits_timestamp ms = false)
       ∨ is_Some (artworks (db w) !! id)
       ∨ fits_decimal startingPrice = false →
       artwork_rw.1 = inr (ServerError "Failed to create artwork")
       ∧ db artwork_rw.2 = db w)
  ∧ (bb_artworkId body = None ∨ bb_amount body = None
     ∨ is_Some (bids (db w) !! id)
     ∨ (∃ amount, bb_amount body = Some amount ∧ fits_decimal amount = false) →
     bid_rw.1 = inr (ServerError "Failed to create bid") ∧ db bid_rw.2 = db w).
Proof.
  intros artwork_rw bid_rw. subst artwork_rw bid_rw. split; [|split].
  - intros Hbad.
    unfold post_artworks, try_catch, bind, insertArtworkSchema_parse, ret, throw.
    destruct (fb_title form) as [title|]; [|split; reflexivity].
    destruct (fb_description form) as [description|]; [|split; reflexivity].
    destruct (fb_category form) as [category|]; [|split; reflexivity].
    destruct (fb_startingPrice form) as [startingPrice|]; [|split; reflexivity].
    destruct (fb_endTime form) as [endTime|]; [|split; reflexivity].
    assert (Hempty : nonempty title && nonempty description && nonempty imageUrl
                     && nonempty imagePublicId && nonempty category
                     && nonempty userId = false).
    { unfold nonempty.
      destruct Hbad as [H|[H|[H|[H|[H|[H|[H|[H|[H|[H|H]]]]]]]]]];
        try discriminate; try (injection H as ->); try subst;
        rewrite ?andb_false_r; try reflexivity;
        repeat (destruct (bool_decide _); try reflexivity). }
    rewrite Hempty. split; reflexivity.
  - intros title description category startingPrice endTime -> Ht Hd Hc Hu Hp Hi Hbad.
    unfold post_artworks, try_catch, bind, insertArtworkSchema_parse, createArtwork,
      read_db, write_db, ret, throw. cbn [fb_title fb_description fb_category
      fb_startingPrice fb_endTime]. unfold nonempty.
    rewrite !bool_decide_eq_true_2 by assumption. cbn.
    destruct endTime as [ms|]; [|split; reflexivity].
    destruct Hbad as [[=]|[(ms' & [= <-] & Hrange)|[[a Ha]|Hfits]]].
    + destruct (artworks (db w) !! id); [split; reflexivity|]. rewrite Hrange.
      rewrite andb_false_r. split; reflexivity.
    + rewrite Ha. split; reflexivity.
    + destruct (artworks (db w) !! id); [split; reflexivity|]. rewrite Hfits.
      split; reflexivity.
  - intros Hbad. unfold_M.
    destruct (bb_artworkId body) as [artworkId|]; [|split; reflexivity].
    destruct (bb_amount body) as [amount|]; [|split; reflexivity].
    cbn. destruct Hbad as [[=]|[[=]|[[b Hb]|(amount' & [= <-] & Hfits)]]].
    + rewrite Hb. split; reflexivity.
    + destruct (bids (db w) !! id); [split; reflexivity|]. rewrite Hfits.
      split; reflexivity.
Qed.

(** ** Deleting a listing and the asset store *)

(** X27: [deleteArtwork] returns normally and deletes the listing row
    whether or not the asset store gives the image up: a failure of the
    asset store is written to the console and goes no further.  No user
    and no bid is written. *)
Theorem deleteArtwork_deletes_despite_asset_store (destroy_ok : string → bool)
    (id : string) (w : World) :
  ∃ w',
    deleteArtwork destroy_ok id w = (inr tt, w')
    ∧ artworks (db w') = delete id (artworks (db w))
    ∧ users (db w') = users (db w)
    ∧ bids (db w') = bids (db w)
    ∧ ∀ a, artworks (db w) !! id = Some a →
        a_imagePublicId a ≠ "" →
        destroy_ok (a_imagePublicId a) = false →
        "Error deleting image from Cloudinary:" ∈ console w'.
Proof.
  unfold deleteArtwork, bind at 1. cbn [log]. unfold bind at 1.
  unfold try_catch, bind at 1. rewrite getArtwork_run. cbn [db console].
  destruct (artworks (db w) !! id) as [a|].
  - destruct (decide (a_imagePublicId a = "")) as [Hempty|Hpid].
    + eexists. split; [reflexivity|]. do 3 (split; [reflexivity|]).
      intros a' [= <-] Hne. contradiction.
    + unfold deleteFromCloudinary, bind, log, throw. cbn.
      destruct (destroy_ok (a_imagePublicId a)) eqn:Hok.
      * eexists. split; [reflexivity|]. do 3 (split; [reflexivity|]).
        intros a' [= <-] _ Hfail. congruence.
      * eexists. split; [reflexivity|]. do 3 (split; [reflexivity|]).
        intros a' [= <-] _ _. cbn. rewrite !elem_of_app, !list_elem_of_singleton.
        tauto.
  - eexists. split; [reflexivity|]. do 3 (split; [reflexivity|]).
    intros a [=].
Qed.

(** ** Accounts that come back *)

Lemma delete_user_account_deleted (userId : string) (now : string → Time)
    (w w' : World) :
  delete_user_account userId now w = (inr NoContent, w') →
  db w' = cascade_db userId (db w).
Proof.
  unfold delete_user_account, try_catch.
  destruct (getUserArtworks_run userId w) as (l & Hl & _).
  rewrite (bind_run _ _ _ _ _ Hl).
  destruct (activeArtworksWithBids_run now l [] w) as (found & Hfound).
  rewrite (bind_run _ _ _ _ _ Hfound).
  destruct (decide (0 < length found)%nat); [intros [=]|].
  rewrite (bind_run _ _ _ _ _ (deleteUserAccount_run userId false w)).
  intros [= <-]. reflexivity.
Qed.

(** X26: [GET /api/user/role] answers with the role that is stored for
    the caller, and with BIDDER for a caller without a row; the row of
    such a caller is the one that [requireAuth] makes, and the handler
    never makes one of its own. *)
Theorem get_user_role_answers_stored_role (trim : string → string)
    (like : string → string → bool) (s : Session) (userId : string)
    (created updated updated' : Time) (w : World) :
  auth_userId s = Some userId →
  userId ≠ "" →
  ∃ w',
    serve trim like s (GET_user_role created updated updated') w
    = (inr (Json_role (match users (db w) !! userId with
                       | Some u => u_role u
                       | None => BIDDER
                       end)), w')
    ∧ db w'
      = set_users (insert userId (authenticated_row trim s userId (db w))) (db w).
Proof.
  intros Hauth Hne. cbn [serve].
  rewrite (requireAuth_run trim s _ userId w Hauth Hne).
  unfold get_user_role, try_catch. rewrite ui_id_userInfo_of.
  unfold bind at 1. rewrite getUser_run. cbn [db users set_users].
  rewrite lookup_insert_eq. cbn [fmap option_fmap option_map].
  assert (Hrole : u_role (authenticated_row trim s userId (db w))
                  = match users (db w) !! userId with
                    | Some u => u_role u
                    | None => BIDDER
                    end).
  { unfold authenticated_row.
    destruct (users (db w) !! userId) as [u|]; [|reflexivity].
    destruct (_ && _); reflexivity. }
  rewrite Hrole. eexists. split; reflexivity.
Qed.

(** X29: an account that is deleted comes back with the next request of
    its user: after [DELETE /api/user/account] has answered 204 no row is
    stored for the caller, and the next [GET /api/auth/user] of the same
    user answers with a new row of the role BIDDER, whatever the role was
    before. *)
Theorem deleted_account_returns_as_bidder (trim : string → string)
    (like : string → string → bool) (s s' : Session) (userId : string)
    (now : string → Time) (w w1 : World) :
  auth_userId s = Some userId →
  auth_userId s' = Some userId →
  userId ≠ "" →
  serve trim like s (DELETE_user_account now) w = (inr (Answer NoContent), w1) →
  users (db w1) !! userId = None
  ∧ ∃ u w2,
      serve trim like s' GET_auth_user w1 = (inr (Json_user (userId, u)), w2)
      ∧ users (db w2) !! userId = Some u
      ∧ u_role u = BIDDER
      ∧ u_createdAt u = auth_created s'.
Proof.
  intros Hauth Hauth' Hne. cbn [serve].
  rewrite (requireAuth_run trim s _ userId w Hauth Hne), ui_id_userInfo_of.
  set (w0 := mkWorld _ (console w)).
  unfold answer, bind, ret.
  destruct (delete_user_account userId now w0) as [[e|r] w0'] eqn:Hdel;
    [intros [=]|]. intros [= -> ->].
  assert (Hgone : users (db w1) !! userId = None).
  { rewrite (delete_user_account_deleted userId now w0 w1 Hdel), cascade_db_users.
    apply lookup_delete_eq. }
  split; [exact Hgone|].
  rewrite (requireAuth_run trim s' _ userId w1 Hauth' Hne).
  unfold get_auth_user, try_catch. rewrite ui_id_userInfo_of.
  unfold bind at 1. rewrite getUser_run. cbn [db users set_users].
  rewrite lookup_insert_eq. cbn [fmap option_fmap option_map].
  eexists _, _. split; [reflexivity|]. cbn [db users set_users].
  split; [apply lookup_insert_eq|].
  unfold authenticated_row. rewrite Hgone. split; reflexivity.
Qed.
(** ** The properties on the sample data *)

Lemma world_members_referenced : users_referenced (db world_members).
Proof.
  split.
  - intros k b Hb. unfold world_members in Hb. cbn [db bids] in Hb.
    apply lookup_singleton_Some in Hb as [_ <-].
    vm_compute. eexists. reflexivity.
  - intros id a Ha. unfold world_members in Ha. cbn [db artworks] in Ha.
    apply lookup_insert_Some in Ha as [[_ <-]|[_ Ha]].
    + vm_compute. eexists. reflexivity.
    + apply lookup_singleton_Some in Ha as [_ <-]. vm_compute. eexists. reflexivity.
Qed.

Lemma world_members_public : listings_public (db world_members).
Proof.
  intros id a Ha. unfold world_members in Ha. cbn [db artworks] in Ha.
  apply lookup_insert_Some in Ha as [[_ <-]|[_ Ha]].
  - split; [reflexivity|discriminate].
  - apply lookup_singleton_Some in Ha as [_ <-]. split; [reflexivity|discriminate].
Qed.

Lemma serve_keeps_users_referenced_witness :
  users_referenced (db world_members)
  ∧ users_referenced
      (db (serve trim_ascii like_ascii (session_of "bob")
             (POST_bids (mkBidBody (Some "L1") (Some 15000)) "b2" 10 11)
             world_members).2)
  ∧ users_referenced
      (db (processExpiredArtworks 3600001 (λ _, 3600005) world_members).2).
Proof.
  split; [exact world_members_referenced|].
  apply serve_keeps_users_referenced. exact world_members_referenced.
Defined.

Lemma serve_moves_listings_forward_witness :
  artworks (db world_members) !! "L1" = Some listing100
  ∧ artworks
      (db (serve trim_ascii like_ascii (session_of "bob")
             (POST_admin_process_expired_artworks 3600001 (λ _, 3600005))
             world_members).2) !! "L1"
    = Some (with_status EXPIRED 3600005 listing100)
  ∧ listing_kept listing100 (with_status EXPIRED 3600005 listing100).
Proof.
  split; [vm_compute; reflexivity|]. split; [vm_compute; reflexivity|].
  apply (serve_moves_listings_forward trim_ascii like_ascii (session_of "bob")
           (POST_admin_process_expired_artworks 3600001 (λ _, 3600005))
           world_members "L1");
    vm_compute; reflexivity.
Defined.

Lemma serve_keeps_listings_public_witness :
  listings_public (db world_members)
  ∧ (let w' :=
       (serve trim_ascii like_ascii (session_of "bob")
          (POST_bids (mkBidBody (Some "L1") (Some 15000)) "b2" 10 11)
          world_members).2 in
     listings_public (db w')
     ∧ ∃ l, getArtworks like_ascii None None w' = (inr l, w')
         ∧ ∀ id a, artworks (db w') !! id = Some a →
             (id, a, join_user (db w') (a_artistId a)) ∈ l).
Proof.
  split; [exact world_members_public|].
  apply serve_keeps_listings_public. exact world_members_public.
Defined.

Lemma put_user_role_sets_own_role_witness :
  auth_userId (session_of "bob") = Some "bob"
  ∧ "bob" ≠ ""
  ∧ ∃ w',
      artworks (db w') = artworks (db world_members)
      ∧ bids (db w') = bids (db world_members)
      ∧ match role_of_body (Some "ADMIN") with
        | None =>
            serve trim_ascii like_ascii (session_of "bob")
              (PUT_user_role (Some "ADMIN") 500) world_members
            = (inr (Answer (BadRequest "Invalid role")), w')
        | Some r =>
            serve trim_ascii like_ascii (session_of "bob")
              (PUT_user_role (Some "ADMIN") 500) world_members
            = (inr (Json_message "Role updated successfully"), w')
            ∧ (∃ u, users (db w') !! "bob" = Some u
                  ∧ u_role u = r ∧ u_updatedAt u = 500)
            ∧ ∀ next, requireRole r "bob" next w' = next w'
        end.
Proof.
  split; [reflexivity|]. split; [discriminate|].
  apply (put_user_role_sets_own_role trim_ascii like_ascii (session_of "bob")
           "bob" (Some "ADMIN") 500 world_members); [reflexivity|discriminate].
Defined.


Lemma requireRole_agrees_with_client_witness :
  "artist1" ≠ ""
  ∧ users (db world_members) !! "artist1" = Some artist_user
  ∧ requireRole BIDDER "artist1" (ret (Json_message "next")) world_members
    = ret (Json_message "next") world_members
  ∧ requireRole ARTIST "artist1" (ret (Json_message "next")) world_members
    = (if roleUtils.canUploadArtworks (u_role artist_user)
       then ret (Json_message "next") world_members
       else (inr (Answer (Forbidden "Artist access required")), world_members))
  ∧ requireRole ADMIN "artist1" (ret (Json_message "next")) world_members
    = (if roleUtils.isAdmin (u_role artist_user)
       then ret (Json_message "next") world_members
       else (inr (Answer (Forbidden "Admin access required")), world_members)).
Proof.
  split; [discriminate|]. split; [vm_compute; reflexivity|].
  apply (requireRole_agrees_with_client "artist1" artist_user
           (ret (Json_message "next")) world_members);
    [discriminate|vm_compute; reflexivity].
Defined.


Lemma post_bids_commits_on_missing_listing_witness :
  bids (db world_members) !! "b9" = None
  ∧ fits_decimal 5000 = true
  ∧ artworks (db world_members) !! "nowhere" = None
  ∧ ∃ w',
      post_bids "bob" (mkBidBody (Some "nowhere") (Some 5000)) "b9" 10 11
        world_members
      = (inr (Created_bid ("b9", mkBid "nowhere" "bob" 5000 (Some 10))), w')
      ∧ artworks (db w') = artworks (db world_members)
      ∧ bids (db w')
        = <["b9" := mkBid "nowhere" "bob" 5000 (Some 10)]> (bids (db world_members))
      ∧ orphan_bid (db w') "b9".
Proof.
  split; [vm_compute; reflexivity|]. split; [vm_compute; reflexivity|].
  split; [vm_compute; reflexivity|].
  apply (post_bids_commits_on_missing_listing "bob" "nowhere" "b9" 5000 10 11
           world_members); vm_compute; reflexivity.
Defined.

Lemma stats_count_every_bid_witness :
  bids (db world_members) !! "b9" = None
  ∧ fits_decimal 5000 = true
  ∧ ∃ w' stats stats' admin admin',
      (post_bids "bob" (mkBidBody (Some "L1") (Some 5000)) "b9" 10 11
         world_members).2 = w'
      ∧ getStats world_members = (inr stats, world_members)
      ∧ getStats w' = (inr stats', w')
      ∧ getAdminStats world_members = (inr admin, world_members)
      ∧ getAdminStats w' = (inr admin', w')
      ∧ s_totalCollectors stats' = S (s_totalCollectors stats)
      ∧ s_totalSales stats' = "0.00"
      ∧ as_totalBids admin' = S (as_totalBids admin)
      ∧ as_totalRevenue admin'
        = decimal_text (5000 + default 0 (sum_amount (bids (db world_members))))
      ∧ (bids (db world_members) = ∅ → as_totalRevenue admin = js "0.00").
Proof.
  split; [vm_compute; reflexivity|]. split; [vm_compute; reflexivity|].
  apply (stats_count_every_bid "bob" "L1" "b9" 5000 10 11 world_members);
    vm_compute; reflexivity.
Defined.

Lemma get_user_role_answers_stored_role_witness :
  auth_userId (session_of "carol") = Some "carol"
  ∧ "carol" ≠ ""
  ∧ ∃ w',
      serve trim_ascii like_ascii (session_of "carol")
        (GET_user_role 200 201 202) world_members
      = (inr (Json_role (match users (db world_members) !! "carol" with
                         | Some u => u_role u
                         | None => BIDDER
                         end)), w')
      ∧ db w'
        = set_users
            (insert "carol"
               (authenticated_row trim_ascii (session_of "carol") "carol"
                  (db world_members)))
            (db world_members).
Proof.
  split; [reflexivity|]. split; [discriminate|].
  apply (get_user_role_answers_stored_role trim_ascii like_ascii
           (session_of "carol") "carol" 200 201 202 world_members);
    [reflexivity|discriminate].
Defined.

Lemma deleted_account_returns_as_bidder_witness :
  let w1 :=
    (serve trim_ascii like_ascii (session_of "root")
       (DELETE_user_account (λ _, 50)) world_members).2 in
  auth_userId (session_of "root") = Some "root"
  ∧ "root" ≠ ""
  ∧ users (db world_members) !! "root" = Some admin_user
  ∧ serve trim_ascii like_ascii (session_of "root")
      (DELETE_user_account (λ _, 50)) world_members
    = (inr (Answer NoContent), w1)
  ∧ users (db w1) !! "root" = None
  ∧ ∃ u w2,
      serve trim_ascii like_ascii (session_of "root") GET_auth_user w1
      = (inr (Json_user ("root", u)), w2)
      ∧ users (db w2) !! "root" = Some u
      ∧ u_role u = BIDDER
      ∧ u_createdAt u = auth_created (session_of "root").
Proof.
  intros w1. split; [reflexivity|]. split; [discriminate|].
  split; [vm_compute; reflexivity|].
  assert (Hdeleted :
            serve trim_ascii like_ascii (session_of "root")
              (DELETE_user_account (λ _, 50)) world_members
            = (inr (Answer NoContent), w1)) by (vm_compute; reflexivity).
  split; [exact Hdeleted|].
  apply (deleted_account_returns_as_bidder trim_ascii like_ascii
           (session_of "root") (session_of "root") "root" (λ _, 50)
           world_members w1);
    [reflexivity|reflexivity|discriminate|exact Hdeleted].
Defined.


(** * The routes behind [requireAuth]

    What a request does from the session to the answer: the row of the
    caller is written by [requireAuth] before the handler runs. *)

Lemma authenticated_row_stored (trim : string → string) (s : Session)
    (userId : string) (d : DB) (u : User) :
  users d !! userId = Some u →
  u_role (authenticated_row trim s userId d) = u_role u
  ∧ u_createdAt (authenticated_row trim s userId d) = u_createdAt u.
Proof.
  intros Hu. unfold authenticated_row. rewrite Hu.
  destruct (_ && _); split; reflexivity.
Qed.

Lemma authenticated_row_new (trim : string → string) (s : Session)
    (userId : string) (d : DB) :
  users d !! userId = None →
  u_role (authenticated_row trim s userId d) = BIDDER.
Proof. intros Hu. unfold authenticated_row. rewrite Hu. reflexivity. Qed.

Lemma has_bid_bids (d d' : DB) (id : string) :
  bids d' = bids d → has_bid d' id ↔ has_bid d id.
Proof. intros Hb. unfold has_bid. rewrite Hb. reflexivity. Qed.

Lemma cascade_db_insert_user (userId : string) (row : User) (d : DB) :
  cascade_db userId (set_users (insert userId row) d) = cascade_db userId d.
Proof.
  rewrite <- (db_eta (cascade_db userId (set_users _ d))),
    <- (db_eta (cascade_db userId d)).
  f_equal.
  - rewrite !cascade_db_users. cbn [users set_users].
    apply map_eq. intros j. destruct (decide (j = userId)) as [->|Hne].
    + rewrite !lookup_delete_eq. reflexivity.
    + rewrite !lookup_delete_ne, lookup_insert_ne by congruence. reflexivity.
  - apply map_eq. intros j. rewrite !cascade_db_artworks. reflexivity.
  - apply map_eq. intros k. apply option_eq. intros b.
    rewrite !cascade_db_bids. reflexivity.
Qed.

(** ** The routes of the administrator *)

(** X7: [PUT /api/admin/users/:userId/role] does not look the user up:
    for a [userId] that names no user an administrator is answered "User
    role updated successfully"; no row is made for that id, and the only
    write of the request is the one of [requireAuth] on the row of the
    administrator. *)
Theorem put_admin_users_role_unknown_user (trim : string → string)
    (like : string → string → bool) (s : Session) (adminId userId : string)
    (role : option string) (r : UserRole) (now : Time) (admin : User) (w : World) :
  auth_userId s = Some adminId →
  adminId ≠ "" →
  users (db w) !! adminId = Some admin →
  u_role admin = ADMIN →
  users (db w) !! userId = None →
  role_of_body role = Some r →
  let rw := serve trim like s (PUT_admin_users_role userId role now) w in
  rw.1 = inr (Json_message "User role updated successfully")
  ∧ users (db rw.2) !! userId = None
  ∧ db rw.2
    = set_users (insert adminId (authenticated_row trim s adminId (db w))) (db w).
Proof.
  intros Hauth Hne Hadmin Hrole Hnone Hr rw. subst rw. cbn [serve].
  rewrite (requireAuth_run trim s _ adminId w Hauth Hne), ui_id_userInfo_of.
  set (w1 := mkWorld _ (console w)).
  assert (Hother : userId ≠ adminId) by congruence.
  destruct (authenticated_row_stored trim s adminId (db w) admin Hadmin)
    as [Hrole1 _].
  destruct (put_admin_users_role_unknown_user_run adminId userId role r now
              (authenticated_row trim s adminId (db w)) w1) as [Hanswer Hdb];
    try assumption.
  - subst w1. cbn [db users set_users]. apply lookup_insert_eq.
  - congruence.
  - subst w1. cbn [db users set_users]. rewrite lookup_insert_ne by congruence.
    exact Hnone.
  - split; [exact Hanswer|]. rewrite Hdb. subst w1. cbn [db users set_users].
    split; [|reflexivity]. rewrite lookup_insert_ne by congruence. exact Hnone.
Qed.

Lemma filter_insert_both_out {A} (P : string * A → Prop)
    `{!∀ x, Decision (P x)} (m : gmap string A) (k : string) (x y : A) :
  m !! k = Some x → ¬ P (k, x) → ¬ P (k, y) →
  filter P (<[k := y]> m) = filter P m.
Proof.
  intros Hk Hx Hy. rewrite map_filter_insert_False by exact Hy.
  rewrite map_filter_delete. apply delete_id.
  apply map_lookup_filter_None. right. intros x' Hk'. congruence.
Qed.

(** X8: [POST /api/admin/fix-user-roles], called by an administrator,
    gives every user who is no ADMIN the role BIDDER, the artists too,
    and leaves the rows of the other administrators as they are; the row
    of the caller is the one that [requireAuth] leaves, with the role
    ADMIN.  It reports the number of users and the number of users that
    are no ADMIN, and it writes no listing and no bid. *)
Theorem post_admin_fix_user_roles_effect (trim : string → string)
    (like : string → string → bool) (s : Session) (adminId : string)
    (stamp : string → Time) (admin : User) (w : World) :
  auth_userId s = Some adminId →
  adminId ≠ "" →
  users (db w) !! adminId = Some admin →
  u_role admin = ADMIN →
  ∃ message w',
    serve trim like s (POST_admin_fix_user_roles stamp) w
    = (inr (Json_fixed message (size (users (db w)))
              (size (filter (λ kv, u_role kv.2 ≠ ADMIN) (users (db w))))), w')
    ∧ users (db w') !! adminId = Some (authenticated_row trim s adminId (db w))
    ∧ u_role (authenticated_row trim s adminId (db w)) = ADMIN
    ∧ (∀ id, id ≠ adminId →
         users (db w') !! id
         = (λ u, if decide (u_role u ≠ ADMIN)
                 then with_role BIDDER (stamp id) u else u)
           <$> users (db w) !! id)
    ∧ artworks (db w') = artworks (db w)
    ∧ bids (db w') = bids (db w).
Proof.
  intros Hauth Hne Hadmin Hrole. cbn [serve].
  rewrite (requireAuth_run trim s _ adminId w Hauth Hne), ui_id_userInfo_of.
  set (row := authenticated_row trim s adminId (db w)).
  set (w1 := mkWorld _ (console w)).
  destruct (authenticated_row_stored trim s adminId (db w) admin Hadmin)
    as [Hrole1 _]. fold row in Hrole1.
  assert (Hrow : users (db w1) !! adminId = Some row).
  { subst w1. cbn [db users set_users]. apply lookup_insert_eq. }
  destruct (post_admin_fix_user_roles_run adminId stamp row w1 Hne Hrow)
    as (message & w' & Hrun & Husers & Hartworks & Hbids); [congruence|].
  exists message, w'. split.
  - rewrite Hrun. subst w1. cbn [db users set_users].
    rewrite map_size_insert_Some by (exists admin; exact Hadmin).
    rewrite (filter_insert_both_out _ _ _ admin row Hadmin); [reflexivity|..];
      cbn [snd]; intros Hno; apply Hno; congruence.
  - split.
    { rewrite Husers, Hrow. cbn. rewrite decide_False; [reflexivity|].
      intros Hno. apply Hno. congruence. }
    split; [congruence|]. split; [|split; assumption].
    intros id Hid. rewrite Husers. subst w1. cbn [db users set_users].
    rewrite lookup_insert_ne by congruence. reflexivity.
Qed.

(** X15: [DELETE /api/admin/users/:userId] never removes the row of the
    administrator who calls it: whatever id is named, the row of the
    caller is there after the request, as [requireAuth] leaves it, with
    the role and the creation time that it had. *)
Theorem delete_admin_users_id_keeps_admin (trim : string → string)
    (like : string → string → bool) (s : Session) (adminId userId : string)
    (admin : User) (w : World) :
  auth_userId s = Some adminId →
  adminId ≠ "" →
  users (db w) !! adminId = Some admin →
  let row := authenticated_row trim s adminId (db w) in
  users (db (serve trim like s (DELETE_admin_users_id userId) w).2) !! adminId
  = Some row
  ∧ u_role row = u_role admin
  ∧ u_createdAt row = u_createdAt admin.
Proof.
  intros Hauth Hne Hadmin row. subst row. cbn [serve].
  rewrite (requireAuth_run trim s _ adminId w Hauth Hne), ui_id_userInfo_of.
  rewrite answer_world.
  split; [|exact (authenticated_row_stored trim s adminId (db w) admin Hadmin)].
  apply delete_admin_users_id_keeps_row. cbn [db users set_users].
  apply lookup_insert_eq.
Qed.

(** ** The routes of the owner *)

(** X13: [DELETE /api/artworks/:id] of a signed-in caller answers 204
    exactly when the id is not empty, the caller is the artist of the
    listing, the end time of the listing lies after the clock reading and
    no bid names the listing; then that listing row is deleted.  In every
    other case, also for an administrator who is not the artist, no
    listing is written.  No bid is written, and the only write on the
    users is the one of [requireAuth] on the row of the caller. *)
Theorem delete_artworks_id_only_own_open_listing (trim : string → string)
    (like : string → string → bool) (s : Session)
    (destroy_ok : string → bool) (userId id : string) (now : Time) (w : World) :
  auth_userId s = Some userId →
  userId ≠ "" →
  let rw := serve trim like s (DELETE_artworks_id destroy_ok id now) w in
  (rw.1 = inr (Answer NoContent)
   ↔ id ≠ ""
     ∧ ∃ a, artworks (db w) !! id = Some a ∧ a_artistId a = userId
         ∧ now < a_endTime a ∧ ¬ has_bid (db w) id)
  ∧ (rw.1 = inr (Answer NoContent) →
     artworks (db rw.2) = delete id (artworks (db w)))
  ∧ (rw.1 ≠ inr (Answer NoContent) → artworks (db rw.2) = artworks (db w))
  ∧ bids (db rw.2) = bids (db w)
  ∧ users (db rw.2)
    = <[userId := authenticated_row trim s userId (db w)]> (users (db w)).
Proof.
  intros Hauth Hne rw. subst rw. cbn [serve].
  rewrite (requireAuth_run trim s _ userId w Hauth Hne), ui_id_userInfo_of.
  set (row := authenticated_row trim s userId (db w)).
  set (w1 := mkWorld _ (console w)).
  pose proof (delete_artworks_id_run destroy_ok userId id now w1) as Hrun.
  cbv zeta in Hrun. destruct Hrun as (Hiff & Hdone & Hkept).
  assert (Hanswer : ∀ r,
            (answer (delete_artworks_id destroy_ok userId id now) w1).1
            = inr (Answer r)
            ↔ (delete_artworks_id destroy_ok userId id now w1).1 = inr r).
  { intros r. unfold answer, bind, ret.
    destruct (delete_artworks_id destroy_ok userId id now w1) as [[e|r'] w'];
      cbn; split; intros [=]; subst; reflexivity. }
  rewrite answer_world.
  assert (Hdb : ∀ d, db (delete_artworks_id destroy_ok userId id now w1).2 = d →
                  (d = set_artworks (delete id) (db w1) ∨ d = db w1) →
                  bids d = bids (db w) ∧ users d = <[userId := row]> (users (db w))).
  { intros d _ [->| ->]; split; reflexivity. }
  split; [|split; [|split]].
  - rewrite Hanswer, Hiff. subst w1. unfold has_bid.
    cbn [db users artworks bids set_users]. rewrite lookup_insert_eq.
    split.
    + intros (_ & Hid & u & a & _ & H). split; [exact Hid|]. exists a. exact H.
    + intros (Hid & a & H). do 2 (split; [assumption|]). exists row, a.
      split; [reflexivity|exact H].
  - intros Hok. apply Hanswer in Hok. rewrite (Hdone Hok). reflexivity.
  - intros Hno. rewrite Hkept; [reflexivity|]. intros Hok. apply Hno.
    apply Hanswer. exact Hok.
  - apply (Hdb _ eq_refl).
    destruct (delete_artworks_id_db destroy_ok userId id now w1) as [Hsame|[Hgone _]];
      [right|left]; assumption.
Qed.

Lemma answer_inr (m : M Response) (w : World) (r : Response) :
  (answer m w).1 = inr (Answer r) ↔ (m w).1 = inr r.
Proof.
  unfold answer, bind, ret. destruct (m w) as [[e|r'] w']; cbn;
    split; intros [=]; subst; reflexivity.
Qed.

(** X14: [DELETE /api/user/account] of a signed-in caller is refused
    with 400 exactly when the caller is the artist of a listing that has
    a bid and whose end time lies after the clock reading; then no
    listing and no bid is written, and the database is as [requireAuth]
    leaves it.  In every other case it answers 204 and the account is
    deleted with all its rows. *)
Theorem delete_user_account_guard (trim : string → string)
    (like : string → string → bool) (s : Session) (userId : string)
    (now : string → Time) (w : World) :
  auth_userId s = Some userId →
  userId ≠ "" →
  let rw := serve trim like s (DELETE_user_account now) w in
  let open_with_bids :=
    ∃ id a, artworks (db w) !! id = Some a ∧ a_artistId a = userId
            ∧ has_bid (db w) id ∧ now id < a_endTime a in
  (open_with_bids →
   rw.1 = inr (Answer (BadRequest "Cannot delete account while you have active artworks with bids. Please wait for auctions to end or contact support."))
   ∧ db rw.2
     = set_users (insert userId (authenticated_row trim s userId (db w))) (db w))
  ∧ (¬ open_with_bids →
     rw.1 = inr (Answer NoContent) ∧ db rw.2 = cascade_db userId (db w)).
Proof.
  intros Hauth Hne rw open_with_bids. subst rw open_with_bids. cbn [serve].
  rewrite (requireAuth_run trim s _ userId w Hauth Hne), ui_id_userInfo_of.
  set (row := authenticated_row trim s userId (db w)).
  set (w1 := mkWorld _ (console w)).
  pose proof (delete_user_account_run userId now w1) as Hrun.
  cbv zeta in Hrun. destruct Hrun as [Hrefused Hdeleted].
  rewrite answer_world.
  assert (Hsame :
            (∃ id a, artworks (db w1) !! id = Some a ∧ a_artistId a = userId
                     ∧ has_bid (db w1) id ∧ now id < a_endTime a)
            ↔ (∃ id a, artworks (db w) !! id = Some a ∧ a_artistId a = userId
                       ∧ has_bid (db w) id ∧ now id < a_endTime a)).
  { subst w1. unfold has_bid. cbn [db artworks bids set_users]. reflexivity. }
  split.
  - intros Hopen. apply Hsame in Hopen.
    destruct (Hrefused Hopen) as [Hanswer Hdb].
    split; [apply answer_inr; exact Hanswer|exact Hdb].
  - intros Hnone. rewrite <- Hsame in Hnone.
    destruct (Hdeleted Hnone) as [Hanswer Hdb].
    split; [apply answer_inr; exact Hanswer|]. rewrite Hdb. subst w1.
    cbn [db]. apply cascade_db_insert_user.
Qed.

(** ** The two routes that store *)

Lemma created_artwork_or_not (res : Err + Reply) :
  (∃ artwork, res = inr (Answer (Created_artwork artwork)))
  ∨ (∀ artwork, res ≠ inr (Answer (Created_artwork artwork))).
Proof.
  destruct res as [e|[r|?| |?|?|?|?|?|?|?|?|?|?|?|?|? ? ?]];
    try (right; intros ?; discriminate).
  destruct r; try (right; intros ?; discriminate).
  left. eexists. reflexivity.
Qed.

(** X22: [POST /api/artworks] of a signed-in caller stores a listing
    only for a caller who was stored with the role ARTIST or ADMIN and
    only with an image of one of the four types, of at most 5 MB, that
    the asset store has taken; the listing then has the caller as its
    artist, the address and the id of that image, the status ACTIVE and
    its starting price as current price, under an id that was free.
    With any other answer no listing is written.  No bid is written, and
    the only write on the users is the one of [requireAuth] on the row
    of the caller. *)
Theorem post_artworks_upload_creates_for_artists_only (trim : string → string)
    (like : string → string → bool) (s : Session) (userId : string)
    (upload : Upload) (form : ArtworkForm) (id : string) (created updated : Time)
    (w : World) :
  auth_userId s = Some userId →
  userId ≠ "" →
  let rw := serve trim like s (POST_artworks upload form id created updated) w in
  (∀ artwork,
     rw.1 = inr (Answer (Created_artwork artwork)) →
     ∃ u mimetype size secure_url public_id,
       users (db w) !! userId = Some u
       ∧ (u_role u = ARTIST ∨ u_role u = ADMIN)
       ∧ upload = File mimetype size (Some (secure_url, public_id))
       ∧ fileFilter mimetype = true
       ∧ size ≤ fileSize
       ∧ artwork.1 = id
       ∧ a_artistId artwork.2 = userId
       ∧ a_imageUrl artwork.2 = secure_url
       ∧ a_imagePublicId artwork.2 = public_id
       ∧ a_status artwork.2 = ACTIVE
       ∧ a_currentPrice artwork.2 = a_startingPrice artwork.2
       ∧ artworks (db w) !! id = None
       ∧ artworks (db rw.2) = <[id := artwork.2]> (artworks (db w)))
  ∧ ((∀ artwork, rw.1 ≠ inr (Answer (Created_artwork artwork))) →
     artworks (db rw.2) = artworks (db w))
  ∧ bids (db rw.2) = bids (db w)
  ∧ users (db rw.2)
    = <[userId := authenticated_row trim s userId (db w)]> (users (db w)).
Proof.
  intros Hauth Hne rw. subst rw. cbn [serve].
  rewrite (requireAuth_run trim s _ userId w Hauth Hne), ui_id_userInfo_of.
  set (row := authenticated_row trim s userId (db w)).
  set (w1 := mkWorld _ (console w)).
  pose proof (post_artworks_upload_run userId upload form id created updated w1)
    as Hrun.
  cbv zeta in Hrun. destruct Hrun as [Hcreated Hother].
  split; [|split].
  - intros artwork Hanswer.
    destruct (Hcreated artwork Hanswer)
      as (u1 & mimetype & size & secure_url & public_id & Hu1 & Hrole & Hfile
          & Hfilter & Hsize & Hid & Hartist & Hurl & Hpid & Hstatus & Hprice
          & Hfresh & Hdb).
    subst w1. cbn [db users artworks set_users] in Hu1, Hfresh.
    rewrite lookup_insert_eq in Hu1. injection Hu1 as <-.
    destruct (users (db w) !! userId) as [u|] eqn:Hu.
    + destruct (authenticated_row_stored trim s userId (db w) u Hu) as [Hsame _].
      fold row in Hsame.
      exists u, mimetype, size, secure_url, public_id.
      rewrite <- Hsame. rewrite Hdb. repeat split; assumption.
    + exfalso. pose proof (authenticated_row_new trim s userId (db w) Hu) as Hnew.
      fold row in Hnew. destruct Hrole; congruence.
  - intros Hnever. rewrite (Hother Hnever). reflexivity.
  - destruct (created_artwork_or_not
                (post_artworks_upload userId upload form id created updated w1).1)
      as [[artwork Hanswer]|Hnever].
    + destruct (Hcreated artwork Hanswer)
        as (_ & _ & _ & _ & _ & _ & _ & _ & _ & _ & _ & _ & _ & _ & _ & _ & _ & Hdb).
      rewrite Hdb. split; reflexivity.
    + rewrite (Hother Hnever). split; reflexivity.
Qed.

(** X28: how the two POST routes answer what they cannot store.  For a
    signed-in caller who is stored as ARTIST or ADMIN and an image that
    is taken, [POST /api/artworks] answers 400 "Invalid data" when a
    field of the form is missing or one of the texts is empty, and 500
    when the end time is no date or lies outside the years that the
    database reads, when the price does not fit the column or when the
    id is taken.  For a signed-in caller [POST /api/bids] answers 500,
    not 400, when the listing id or the amount is missing, and 500 when
    the amount does not fit or the id is taken.  In each of these cases
    no listing and no bid is written. *)
Theorem post_routes_error_answers (trim : string → string)
    (like : string → string → bool) (s : Session) (userId : string) (u : User)
    (mimetype : string) (size : Z) (secure_url public_id : string)
    (form : ArtworkForm) (body : BidBody) (id : string)
    (created updated : Time) (w : World) :
  auth_userId s = Some userId →
  userId ≠ "" →
  let artwork_rw :=
    serve trim like s
      (POST_artworks (File mimetype size (Some (secure_url, public_id))) form id
         created updated) w in
  let bid_rw := serve trim like s (POST_bids body id created updated) w in
  (users (db w) !! userId = Some u →
   u_role u = ARTIST ∨ u_role u = ADMIN →
   fileFilter mimetype = true →
   size ≤ fileSize →
   (fb_title form = None ∨ fb_title form = Some ""
    ∨ fb_description form = None ∨ fb_description form = Some ""
    ∨ fb_category form = None ∨ fb_category form = Some ""
    ∨ fb_startingPrice form = None ∨ fb_endTime form = None
    ∨ secure_url = "" ∨ public_id = "" →
    artwork_rw.1 = inr (Answer (BadRequest "Invalid data"))
    ∧ artworks (db artwork_rw.2) = artworks (db w)
    ∧ bids (db artwork_rw.2) = bids (db w))
   ∧ (∀ title description category startingPrice endTime,
        form = mkArtworkForm (Some title) (Some description) (Some category)
                 (Some startingPrice) (Some endTime) →
        title ≠ "" → description ≠ "" → category ≠ "" →
        secure_url ≠ "" → public_id ≠ "" →
        endTime = InvalidDate
        ∨ (∃ ms, endTime = ValidDate ms ∧ fits_timestamp ms = false)
        ∨ is_Some (artworks (db w) !! id)
        ∨ fits_decimal startingPrice = false →
        artwork_rw.1 = inr (Answer (ServerError "Failed to create artwork"))
        ∧ artworks (db artwork_rw.2) = artworks (db w)
        ∧ bids (db artwork_rw.2) = bids (db w)))
  ∧ (bb_artworkId body = None ∨ bb_amount body = None
     ∨ is_Some (bids (db w) !! id)
     ∨ (∃ amount, bb_amount body = Some amount ∧ fits_decimal amount = false) →
     bid_rw.1 = inr (Answer (ServerError "Failed to create bid"))
     ∧ artworks (db bid_rw.2) = artworks (db w)
     ∧ bids (db bid_rw.2) = bids (db w)).
Proof.
  intros Hauth Hne artwork_rw bid_rw. subst artwork_rw bid_rw. cbn [serve].
  rewrite !(requireAuth_run trim s _ userId w Hauth Hne), !ui_id_userInfo_of.
  set (row := authenticated_row trim s userId (db w)).
  set (w1 := mkWorld _ (console w)).
  pose proof (post_handlers_error_answers userId form body secure_url public_id id
                created updated w1) as Hrun.
  cbv zeta in Hrun. destruct Hrun as (Hinvalid & Hfailed & Hbid).
  split.
  - intros Hu Hrole Hfilter Hsize.
    assert (Hrow : users (db w1) !! userId = Some row).
    { subst w1. cbn [db users set_users]. apply lookup_insert_eq. }
    assert (Hpass : post_artworks_upload userId
                      (File mimetype size (Some (secure_url, public_id))) form id
                      created updated w1
                    = answer (post_artworks userId form secure_url public_id id
                                created updated) w1).
    { unfold post_artworks_upload.
      rewrite (requireRole_run ARTIST userId _ w1 row Hne Hrow).
      destruct (authenticated_row_stored trim s userId (db w) u Hu) as [Hsame _].
      fold row in Hsame. rewrite Hfilter. cbn [negb orb].
      destruct (Z.ltb_spec fileSize size); [lia|].
      destruct (u_role row) eqn:Hr; [|reflexivity..].
      destruct Hrole; congruence. }
    rewrite Hpass, answer_world. split.
    + intros Hbad.
      destruct Hinvalid as [Hanswer Hdb].
      { destruct Hbad as [H|[H|[H|[H|[H|[H|[H|[H|[H|H]]]]]]]]]; tauto. }
      split; [apply answer_inr; exact Hanswer|]. rewrite Hdb. split; reflexivity.
    + intros title description category startingPrice endTime Hform Ht Hd Hc Hurl
        Hpid Hbad.
      destruct (Hfailed title description category startingPrice endTime Hform
                  Ht Hd Hc Hurl Hpid Hne) as [Hanswer Hdb].
      { subst w1. cbn [db artworks set_users]. exact Hbad. }
      split; [apply answer_inr; exact Hanswer|]. rewrite Hdb. split; reflexivity.
  - intros Hbad. rewrite answer_world.
    destruct Hbid as [Hanswer Hdb].
    { subst w1. cbn [db bids set_users]. exact Hbad. }
    split; [apply answer_inr; exact Hanswer|]. rewrite Hdb. split; reflexivity.
Qed.

(** ** The comparison of the bid form on column values of either sign *)

Lemma ratio_num_pos (m e : Z) : 0 < m → 0 < (ratio m e).1.
Proof.
  intros Hm. unfold ratio. destruct (Z.leb_spec 0 e); cbn [fst]; [|lia].
  pose proof (pow2_pos e ltac:(lia)). nia.
Qed.

Lemma Number_compare_signed_cents (a c : Z) :
  Z.abs a < 10 ^ 10 → Z.abs c < 10 ^ 10 →
  Number_compare (Number_of_ratio (a <? 0) (Z.abs a) 100)
    (Number_of_ratio (c <? 0) (Z.abs c) 100)
  = Some (a ?= c).
Proof.
  intros Ha Hc.
  assert (0 ≤ Z.abs a < 10 ^ 10) as Ha' by lia.
  assert (0 ≤ Z.abs c < 10 ^ 10) as Hc' by lia.
  pose proof (Number_compare_cents (Z.abs a) (Z.abs c) Ha' Hc') as Hcmp.
  destruct (Number_of_cents false (Z.abs a) Ha') as (ma & ea & Hya & Hma & Hpa & _).
  destruct (Number_of_cents false (Z.abs c) Hc') as (mc & ec & Hyc & Hmc & Hpc & _).
  rewrite Hya, Hyc in Hcmp. cbn [Number_compare] in Hcmp.
  unfold signed_ratio in Hcmp. cbn [fst snd] in Hcmp.
  rewrite (Number_of_ratio_sign (a <? 0) _ _ _ _ Hya),
    (Number_of_ratio_sign (c <? 0) _ _ _ _ Hyc).
  cbn [Number_compare]. unfold signed_ratio. cbn [fst snd].
  pose proof (ratio_pos ma ea) as Hqa. pose proof (ratio_pos mc ec) as Hqc.
  pose proof (ratio_nonneg ma ea Hma) as Hna.
  pose proof (ratio_nonneg mc ec Hmc) as Hnc.
  assert (0 < Z.abs a → 0 < (ratio ma ea).1) as Hposa
    by (intros H; apply ratio_num_pos, Hpa, H).
  assert (0 < Z.abs c → 0 < (ratio mc ec).1) as Hposc
    by (intros H; apply ratio_num_pos, Hpc, H).
  set (pa := (ratio ma ea).1) in *. set (qa := (ratio ma ea).2) in *.
  set (pc := (ratio mc ec).1) in *. set (qc := (ratio mc ec).2) in *.
  injection Hcmp as Hcmp. f_equal.
  assert (Hlt : pa * qc < pc * qa ↔ Z.abs a < Z.abs c).
  { rewrite <- !Z.compare_lt_iff, Hcmp. reflexivity. }
  assert (Heq : pa * qc = pc * qa ↔ Z.abs a = Z.abs c).
  { rewrite <- !Z.compare_eq_iff, Hcmp. reflexivity. }
  clear Hcmp.
  destruct (Z.ltb_spec a 0) as [Hneg_a|Hnn_a];
    destruct (Z.ltb_spec c 0) as [Hneg_c|Hnn_c].
  - replace (- pa * qc) with (- (pa * qc)) by ring.
    replace (- pc * qa) with (- (pc * qa)) by ring.
    destruct (Z.compare_spec a c) as [E|L|G].
    + apply Z.compare_eq_iff. assert (pa * qc = pc * qa) by (apply Heq; lia). lia.
    + apply Z.compare_lt_iff.
      assert (¬ pa * qc < pc * qa) by (rewrite Hlt; lia).
      assert (pa * qc ≠ pc * qa) by (rewrite Heq; lia). lia.
    + apply Z.compare_gt_iff.
      assert (pa * qc < pc * qa) by (apply Hlt; lia). lia.
  - replace (- pa * qc) with (- (pa * qc)) by ring.
    assert (0 < pa) by (apply Hposa; lia).
    assert ((a ?= c) = Lt) as -> by (apply Z.compare_lt_iff; lia).
    apply Z.compare_lt_iff. nia.
  - replace (- pc * qa) with (- (pc * qa)) by ring.
    assert (0 < pc) by (apply Hposc; lia).
    assert ((a ?= c) = Gt) as -> by (apply Z.compare_gt_iff; lia).
    apply Z.compare_gt_iff. nia.
  - destruct (Z.compare_spec a c) as [E|L|G].
    + apply Z.compare_eq_iff. apply Heq. lia.
    + apply Z.compare_lt_iff. apply Hlt. lia.
    + apply Z.compare_gt_iff.
      assert (¬ pa * qc < pc * qa) by (rewrite Hlt; lia).
      assert (pa * qc ≠ pc * qa) by (rewrite Heq; lia). lia.
Qed.

(** On two column values the bid form posts the amount exactly when it
    is above the price that is shown. *)
Lemma handleSubmit_column_values (amount shown : Z) :
  Z.abs amount < 10 ^ 10 → Z.abs shown < 10 ^ 10 →
  handleSubmit (decimal_text amount) (decimal_text shown)
  = if amount <=? shown then None else Some (decimal_text amount).
Proof.
  intros Ha Hs. unfold handleSubmit, Number_le.
  rewrite !parseFloat_decimal_text, Number_compare_signed_cents by assumption.
  destruct (Z.leb_spec amount shown) as [Hle|Hgt];
    destruct (Z.compare_spec amount shown); try reflexivity; lia.
Qed.

(** A text that [parseFloat] does not read is posted. *)
Lemma handleSubmit_NaN (bidAmount currentPrice : jsstring) :
  isNaN (parseFloat bidAmount) = true ∨ isNaN (parseFloat currentPrice) = true →
  handleSubmit bidAmount currentPrice = Some bidAmount.
Proof.
  intros Hnan. unfold handleSubmit, Number_le.
  destruct (parseFloat bidAmount) as [|na|na ma ea];
    destruct (parseFloat currentPrice) as [|nc|nc mc ec];
    try reflexivity; destruct Hnan; discriminate.
Qed.

(** ** Bids: where the comparison with the price is made *)

Lemma post_bids_cases (userId : string) (body : BidBody) (id : string)
    (now upd : Time) (w : World) :
  let rw := post_bids userId body id now upd w in
  (∃ bid, rw.1 = inr (Created_bid bid))
  ∨ (rw.1 = inr (ServerError "Failed to create bid")
     ∧ (bb_artworkId body = None ∨ bb_amount body = None
        ∨ is_Some (bids (db w) !! id)
        ∨ ∃ amount, bb_amount body = Some amount ∧ fits_decimal amount = false)
     ∧ db rw.2 = db w).
Proof.
  intros rw. subst rw.
  pose proof (post_handlers_error_answers userId
                (mkArtworkForm None None None None None) body "" "" id now upd w)
    as Hrun.
  cbv zeta in Hrun. destruct Hrun as (_ & _ & Hbad).
  destruct body as [[artworkId|] [amount|]];
    try (right; destruct Hbad as [Hanswer Hdb]; [cbn; tauto|];
         split; [exact Hanswer|]; split; [cbn; tauto|exact Hdb]).
  destruct (bids (db w) !! id) as [b|] eqn:Hid.
  { right. destruct Hbad as [Hanswer Hdb]; [right; right; left; eauto|].
    split; [exact Hanswer|]. split; [|exact Hdb]. right. right. left. eauto. }
  destruct (fits_decimal amount) eqn:Hfits.
  - left. rewrite (post_bids_commits w userId artworkId id amount now upd Hid Hfits).
    eexists. reflexivity.
  - right. destruct Hbad as [Hanswer Hdb]; [right; right; right; eauto|].
    split; [exact Hanswer|]. split; [|exact Hdb]. right. right. right. eauto.
Qed.

(** C1, amended: [POST /api/bids] compares the amount with nothing.  For
    a signed-in caller, a body that names a stored listing and holds an
    amount that the column takes, under a free bid id, is answered with
    201 whatever the current price of the listing is: the bid row is
    added and the current price of the listing becomes the amount.  The
    route has no other refusal than 401 for a session without a user id
    and 500 for a body without listing id or amount, for an id that is
    taken and for an amount that does not fit the column; a refused
    request writes no bid and no listing.  The comparison is made by the
    bid form of the client on what [parseFloat] reads: shown a price and
    given an amount that are both column values, it posts the amount
    exactly when the amount is above the price, and nothing on a tie;
    given a text that [parseFloat] does not read, such as the empty text
    or "NaN", it posts the text. *)
Theorem post_bids_accepts_without_price_check (trim : string → string)
    (like : string → string → bool) (s : Session) (w : World)
    (userId artworkId id : string) (amount : Cents) (now upd : Time)
    (a : Artwork) :
  auth_userId s = Some userId →
  userId ≠ "" →
  artworks (db w) !! artworkId = Some a →
  bids (db w) !! id = None →
  fits_decimal amount = true →
  (∃ w',
     serve trim like s
       (POST_bids (mkBidBody (Some artworkId) (Some amount)) id now upd) w
     = (inr (Answer (Created_bid (id, mkBid artworkId userId amount (Some now)))),
        w')
     ∧ bids (db w') = <[id := mkBid artworkId userId amount (Some now)]> (bids (db w))
     ∧ artworks (db w')
       = <[artworkId := with_currentPrice amount upd a]> (artworks (db w))
     ∧ a_currentPrice (with_currentPrice amount upd a) = amount
     ∧ users (db w')
       = <[userId := authenticated_row trim s userId (db w)]> (users (db w)))
  ∧ (∀ (s' : Session) (body : BidBody) (id' : string),
       let rw := serve trim like s' (POST_bids body id' now upd) w in
       (∃ bid, rw.1 = inr (Answer (Created_bid bid)))
       ∨ (rw.1 = inr (Unauthorized "Authentication required")
          ∧ (auth_userId s' = None ∨ auth_userId s' = Some "")
          ∧ rw.2 = w)
       ∨ (rw.1 = inr (Answer (ServerError "Failed to create bid"))
          ∧ (bb_artworkId body = None ∨ bb_amount body = None
             ∨ is_Some (bids (db w) !! id')
             ∨ ∃ amount', bb_amount body = Some amount'
                          ∧ fits_decimal amount' = false)
          ∧ bids (db rw.2) = bids (db w)
          ∧ artworks (db rw.2) = artworks (db w)))
  ∧ (fits_decimal (a_currentPrice a) = true →
     handleSubmit (decimal_text amount) (decimal_text (a_currentPrice a))
     = if amount <=? a_currentPrice a then None else Some (decimal_text amount))
  ∧ (∀ bidAmount currentPrice,
       isNaN (parseFloat bidAmount) = true
       ∨ isNaN (parseFloat currentPrice) = true →
       handleSubmit bidAmount currentPrice = Some bidAmount)
  ∧ isNaN (parseFloat (js "")) = true
  ∧ isNaN (parseFloat (js "NaN")) = true.
Proof.
  intros Hauth Hne Ha Hfresh Hfits. split; [|split; [|split; [|split]]].
  - cbn [serve].
    rewrite (requireAuth_run trim s _ userId w Hauth Hne), ui_id_userInfo_of.
    unfold answer. erewrite bind_run
      by (apply post_bids_commits; [exact Hfresh|exact Hfits]).
    eexists. split; [reflexivity|]. cbn [db users artworks bids set_users].
    rewrite (alter_at_row _ _ _ _ Ha). repeat split.
  - intros s' body id' rw. subst rw. cbn [serve].
    destruct (auth_userId s') as [uid|] eqn:Hauth'.
    2: { right. left. rewrite requireAuth_refuses by (left; exact Hauth').
         repeat split. left. reflexivity. }
    destruct (decide (uid = "")) as [->|Hne'].
    { right. left. rewrite requireAuth_refuses by (right; exact Hauth').
      repeat split. right. reflexivity. }
    rewrite (requireAuth_run trim s' _ uid w Hauth' Hne'), ui_id_userInfo_of.
    set (w1 := mkWorld _ (console w)).
    pose proof (post_bids_cases uid body id' now upd w1) as Hcases.
    cbv zeta in Hcases. rewrite answer_world.
    destruct Hcases as [[bid Hbid]|(Hanswer & Hcause & Hdb)].
    + left. exists bid. apply answer_inr. exact Hbid.
    + right. right. split; [apply answer_inr; exact Hanswer|].
      split; [exact Hcause|]. rewrite Hdb. split; reflexivity.
  - intros Hshown. apply handleSubmit_column_values.
    + unfold fits_decimal in Hfits. apply Z.ltb_lt in Hfits. exact Hfits.
    + unfold fits_decimal in Hshown. apply Z.ltb_lt in Hshown. exact Hshown.
  - exact handleSubmit_NaN.
  - split; vm_compute; reflexivity.
Qed.

(** ** Listings: where the checks on the price and the end time are made *)




(** ** The routes on the sample data *)

Lemma put_admin_users_role_unknown_user_witness :
  auth_userId (session_of "root") = Some "root"
  ∧ "root" ≠ ""
  ∧ users (db world_members) !! "root" = Some admin_user
  ∧ u_role admin_user = ADMIN
  ∧ users (db world_members) !! "ghost" = None
  ∧ role_of_body (Some "ARTIST") = Some ARTIST
  ∧ (let rw :=
       serve trim_ascii like_ascii (session_of "root")
         (PUT_admin_users_role "ghost" (Some "ARTIST") 7) world_members in
     rw.1 = inr (Json_message "User role updated successfully")
     ∧ users (db rw.2) !! "ghost" = None
     ∧ db rw.2
       = set_users
           (insert "root"
              (authenticated_row trim_ascii (session_of "root") "root"
                 (db world_members)))
           (db world_members)).
Proof.
  split; [reflexivity|]. split; [discriminate|].
  split; [vm_compute; reflexivity|]. split; [reflexivity|].
  split; [vm_compute; reflexivity|]. split; [reflexivity|].
  apply (put_admin_users_role_unknown_user trim_ascii like_ascii
           (session_of "root") "root" "ghost" (Some "ARTIST") ARTIST 7
           admin_user world_members);
    [reflexivity|discriminate|vm_compute; reflexivity|reflexivity
    |vm_compute; reflexivity|reflexivity].
Defined.

Lemma post_admin_fix_user_roles_effect_witness :
  auth_userId (session_of "root") = Some "root"
  ∧ "root" ≠ ""
  ∧ users (db world_members) !! "root" = Some admin_user
  ∧ u_role admin_user = ADMIN
  ∧ ∃ message w',
      serve trim_ascii like_ascii (session_of "root")
        (POST_admin_fix_user_roles (λ _, 900)) world_members
      = (inr (Json_fixed message (size (users (db world_members)))
                (size (filter (λ kv, u_role kv.2 ≠ ADMIN)
                         (users (db world_members))))), w')
      ∧ users (db w') !! "artist1" = Some (with_role BIDDER 900 artist_user).
Proof.
  split; [reflexivity|]. split; [discriminate|].
  split; [vm_compute; reflexivity|]. split; [reflexivity|].
  destruct (post_admin_fix_user_roles_effect trim_ascii like_ascii
              (session_of "root") "root" (λ _, 900) admin_user world_members)
    as (message & w' & Hrun & _ & _ & Hothers & _);
    [reflexivity|discriminate|vm_compute; reflexivity|reflexivity|].
  exists message, w'. split; [exact Hrun|].
  rewrite (Hothers "artist1") by discriminate. vm_compute. reflexivity.
Defined.

Lemma delete_admin_users_id_keeps_admin_witness :
  auth_userId (session_of "root") = Some "root"
  ∧ "root" ≠ ""
  ∧ users (db world_members) !! "root" = Some admin_user
  ∧ (let row :=
       authenticated_row trim_ascii (session_of "root") "root" (db world_members) in
     users
       (db (serve trim_ascii like_ascii (session_of "root")
              (DELETE_admin_users_id "bob") world_members).2) !! "root"
     = Some row
     ∧ u_role row = u_role admin_user
     ∧ u_createdAt row = u_createdAt admin_user).
Proof.
  split; [reflexivity|]. split; [discriminate|].
  split; [vm_compute; reflexivity|].
  apply (delete_admin_users_id_keeps_admin trim_ascii like_ascii
           (session_of "root") "root" "bob" admin_user world_members);
    [reflexivity|discriminate|vm_compute; reflexivity].
Defined.

Lemma delete_artworks_id_only_own_open_listing_witness :
  auth_userId (session_of "artist1") = Some "artist1"
  ∧ "artist1" ≠ ""
  ∧ (let rw :=
       serve trim_ascii like_ascii (session_of "artist1")
         (DELETE_artworks_id (λ _, true) "L1" 10) world_members in
     rw.1 = inr (Answer NoContent)
     ∧ artworks (db rw.2) = delete "L1" (artworks (db world_members))
     ∧ bids (db rw.2) = bids (db world_members)).
Proof.
  split; [reflexivity|]. split; [discriminate|].
  destruct (delete_artworks_id_only_own_open_listing trim_ascii like_ascii
              (session_of "artist1") (λ _, true) "artist1" "L1" 10 world_members)
    as (Hiff & Hdone & _ & Hbids & _); [reflexivity|discriminate|].
  assert (Hanswer :
            (serve trim_ascii like_ascii (session_of "artist1")
               (DELETE_artworks_id (λ _, true) "L1" 10) world_members).1
            = inr (Answer NoContent)) by (vm_compute; reflexivity).
  split; [exact Hanswer|]. split; [exact (Hdone Hanswer)|exact Hbids].
Defined.

Lemma delete_user_account_guard_witness :
  auth_userId (session_of "artist1") = Some "artist1"
  ∧ "artist1" ≠ ""
  ∧ (∃ id a, artworks (db world_members) !! id = Some a ∧ a_artistId a = "artist1"
             ∧ has_bid (db world_members) id ∧ 0 < a_endTime a)
  ∧ (let rw :=
       serve trim_ascii like_ascii (session_of "artist1")
         (DELETE_user_account (λ _, 0)) world_members in
     rw.1 = inr (Answer (BadRequest "Cannot delete account while you have active artworks with bids. Please wait for auctions to end or contact support."))
     ∧ db rw.2
       = set_users
           (insert "artist1"
              (authenticated_row trim_ascii (session_of "artist1") "artist1"
                 (db world_members)))
           (db world_members)).
Proof.
  split; [reflexivity|]. split; [discriminate|].
  assert (Hopen : ∃ id a, artworks (db world_members) !! id = Some a
                          ∧ a_artistId a = "artist1"
                          ∧ has_bid (db world_members) id ∧ 0 < a_endTime a).
  { exists "L2", sold200. split; [vm_compute; reflexivity|].
    split; [reflexivity|]. split; [|reflexivity].
    exists "b1", bid200. split; [vm_compute; reflexivity|reflexivity]. }
  split; [exact Hopen|].
  exact (proj1 (delete_user_account_guard trim_ascii like_ascii
                  (session_of "artist1") "artist1" (λ _, 0) world_members
                  eq_refl ltac:(discriminate)) Hopen).
Defined.

Lemma post_artworks_upload_creates_for_artists_only_witness :
  auth_userId (session_of "artist1") = Some "artist1"
  ∧ "artist1" ≠ ""
  ∧ (let rw :=
       serve trim_ascii like_ascii (session_of "artist1")
         (POST_artworks (File "image/png" 4096 (Some ("https://img/9", "img9")))
            late_form "L9" 1000 1001) world_members in
     rw.1 = inr (Answer (Created_artwork
                           ("L9", mkArtwork "Sunset" "Oil on canvas" "https://img/9"
                                    "img9" (Some "Paintings") (-500) (-500) ACTIVE
                                    None 5 (Some true) "artist1" 1000 1001)))
     ∧ ∃ u mimetype size secure_url public_id,
         users (db world_members) !! "artist1" = Some u
         ∧ (u_role u = ARTIST ∨ u_role u = ADMIN)
         ∧ File "image/png" 4096 (Some ("https://img/9", "img9"))
           = File mimetype size (Some (secure_url, public_id))
         ∧ fileFilter mimetype = true
         ∧ size ≤ fileSize).
Proof.
  split; [reflexivity|]. split; [discriminate|]. intros rw.
  assert (Hcreated :
            rw.1 = inr (Answer (Created_artwork
                        ("L9", mkArtwork "Sunset" "Oil on canvas" "https://img/9"
                                 "img9" (Some "Paintings") (-500) (-500) ACTIVE
                                 None 5 (Some true) "artist1" 1000 1001))))
    by (vm_compute; reflexivity).
  split; [exact Hcreated|].
  destruct (proj1 (post_artworks_upload_creates_for_artists_only trim_ascii
                     like_ascii (session_of "artist1") "artist1"
                     (File "image/png" 4096 (Some ("https://img/9", "img9")))
                     late_form "L9" 1000 1001 world_members eq_refl
                     ltac:(discriminate)) _ Hcreated)
    as (u & mimetype & size & secure_url & public_id & Hu & Hrole & Hfile
        & Hfilter & Hsize & _).
  exists u, mimetype, size, secure_url, public_id. repeat split; assumption.
Defined.

Lemma post_routes_error_answers_witness :
  auth_userId (session_of "artist1") = Some "artist1"
  ∧ "artist1" ≠ ""
  ∧ users (db world_members) !! "artist1" = Some artist_user
  ∧ (u_role artist_user = ARTIST ∨ u_role artist_user = ADMIN)
  ∧ fileFilter "image/png" = true
  ∧ 4096 ≤ fileSize
  ∧ (serve trim_ascii like_ascii (session_of "artist1")
       (POST_artworks (File "image/png" 4096 (Some ("https://img/9", "img9")))
          (mkArtworkForm (Some "Sunset") (Some "Oil on canvas") (Some "Paintings")
             (Some 10000) (Some (ValidDate 253402300800000)))
          "L9" 1000 1001) world_members).1
    = inr (Answer (ServerError "Failed to create artwork"))
  ∧ (serve trim_ascii like_ascii (session_of "artist1")
       (POST_bids (mkBidBody (Some "L1") None) "L9" 1000 1001) world_members).1
    = inr (Answer (ServerError "Failed to create bid")).
Proof.
  split; [reflexivity|]. split; [discriminate|].
  split; [vm_compute; reflexivity|]. split; [left; reflexivity|].
  split; [reflexivity|]. split; [discriminate|].
  pose proof (post_routes_error_answers trim_ascii like_ascii
                (session_of "artist1") "artist1" artist_user "image/png" 4096
                "https://img/9" "img9"
                (mkArtworkForm (Some "Sunset") (Some "Oil on canvas")
                   (Some "Paintings") (Some 10000)
                   (Some (ValidDate 253402300800000)))
                (mkBidBody (Some "L1") None) "L9" 1000 1001 world_members
                eq_refl ltac:(discriminate)) as [Hartwork Hbid].
  split.
  - destruct Hartwork as [_ Hfailed];
      [vm_compute; reflexivity|left; reflexivity|reflexivity|discriminate|].
    apply (Hfailed "Sunset" "Oil on canvas" "Paintings" 10000
             (ValidDate 253402300800000));
      [reflexivity|discriminate..|].
    right. left. exists 253402300800000. split; reflexivity.
  - apply Hbid. right. left. reflexivity.
Defined.

Lemma post_bids_accepts_without_price_check_witness :
  auth_userId (session_of "bob") = Some "bob"
  ∧ "bob" ≠ ""
  ∧ artworks (db world_members) !! "L1" = Some listing100
  ∧ bids (db world_members) !! "b2" = None
  ∧ fits_decimal 9999 = true
  ∧ (∃ w',
       serve trim_ascii like_ascii (session_of "bob")
         (POST_bids (mkBidBody (Some "L1") (Some 9999)) "b2" 10 11) world_members
       = (inr (Answer (Created_bid ("b2", mkBid "L1" "bob" 9999 (Some 10)))), w')
       ∧ bids (db w')
         = <["b2" := mkBid "L1" "bob" 9999 (Some 10)]> (bids (db world_members))
       ∧ artworks (db w')
         = <["L1" := with_currentPrice 9999 11 listing100]>
             (artworks (db world_members))
       ∧ a_currentPrice (with_currentPrice 9999 11 listing100) = 9999)
  ∧ handleSubmit (decimal_text 9999) (decimal_text (a_currentPrice listing100))
    = None.
Proof.
  split; [reflexivity|]. split; [discriminate|].
  split; [vm_compute; reflexivity|]. split; [vm_compute; reflexivity|].
  split; [reflexivity|].
  destruct (post_bids_accepts_without_price_check trim_ascii like_ascii
              (session_of "bob") world_members "bob" "L1" "b2" 9999 10 11
              listing100)
    as ((w' & Hrun & Hbids & Hartworks & Hprice & _) & _ & Hform & _);
    [reflexivity|discriminate|vm_compute; reflexivity|vm_compute; reflexivity
    |reflexivity|].
  split.
  - exists w'. repeat split; assumption.
  - rewrite Hform by reflexivity. reflexivity.
Defined.

(** * Properties of the temporary files and of the expiration service *)

Lemma cleanup_fold_dir (unlink_ok : string → bool) (now : string → Time)
    (l : list (string * Time)) (st : gmap string Time * nat * list string)
    (name : string) :
  (foldl (cleanup_file unlink_ok now) st l).1.1 !! name
  = if decide (name ∈ (filter (λ file : string * Time,
                                 TEMP_FILE_MAX_AGE < now file.1 - file.2
                                 ∧ unlink_ok file.1 = true) l).*1)
    then None else st.1.1 !! name.
Proof.
  revert st. induction l as [|[file mtime] l IH]; intros st.
  - cbn. destruct (decide (name ∈ [])) as [Hin|]; [|reflexivity].
    apply elem_of_nil in Hin. contradiction.
  - cbn [foldl]. rewrite IH. unfold cleanup_file. cbn [fst snd].
    destruct (Z.ltb_spec TEMP_FILE_MAX_AGE (now file - mtime)) as [Hold|Hyoung].
    + destruct (unlink_ok file) eqn:Hok.
      * rewrite filter_cons_True by (cbn; split; [lia|exact Hok]).
        rewrite fmap_cons. cbn [fst snd].
        destruct (decide (name = file)) as [->|Hne].
        -- destruct (decide (file ∈ file :: _)) as [_|Hout];
             [|exfalso; apply Hout; left].
           destruct (decide (file ∈ _)); [reflexivity|apply lookup_delete_eq].
        -- rewrite lookup_delete_ne by congruence.
           destruct (decide (name ∈ _)) as [Hin|Hout].
           ++ destruct (decide (name ∈ file :: _)) as [_|Hout];
                [reflexivity|exfalso; apply Hout; right; exact Hin].
           ++ destruct (decide (name ∈ file :: _)) as [Hin|_]; [|reflexivity].
              apply elem_of_cons in Hin as [->|Hin]; contradiction.
      * rewrite filter_cons_False; [reflexivity|].
        cbn. intros [_ Hyes]. congruence.
    + rewrite filter_cons_False; [reflexivity|]. cbn. intros [Hold _]. lia.
Qed.

Lemma prefix_temp (rest : string) : String.prefix "temp_" ("temp_" +:+ rest) = true.
Proof. cbn. destruct rest; reflexivity. Qed.

(** X20: [cleanupOrphanedTempFiles] removes from the uploads directory
    exactly the entries whose name starts with [temp_], whose last change
    lies more than an hour before the clock reading, and that can be
    unlinked; every other entry stays with its time.  Without the
    directory nothing happens.  Every file name that the upload storage
    makes starts with [temp_]. *)
Theorem cleanupOrphanedTempFiles_removes_old_temp_files
    (unlink_ok : string → bool) (now : string → Time) (disk : Disk) :
  match uploadsDir disk with
  | None => cleanupOrphanedTempFiles unlink_ok now disk = disk
  | Some dir =>
      ∃ dir',
        uploadsDir (cleanupOrphanedTempFiles unlink_ok now disk) = Some dir'
        ∧ ∀ name mtime,
            dir' !! name = Some mtime
            ↔ dir !! name = Some mtime
              ∧ ¬ (String.prefix "temp_" name = true
                   ∧ TEMP_FILE_MAX_AGE < now name - mtime
                   ∧ unlink_ok name = true)
  end
  ∧ ∀ id t extname, String.prefix "temp_" (filename id t extname) = true.
Proof.
  split; [|intros id t extname; apply prefix_temp].
  unfold cleanupOrphanedTempFiles.
  destruct (uploadsDir disk) as [dir|] eqn:Hdir; [|reflexivity].
  destruct (decide (length (filter (λ file : string * Time,
                                      String.prefix "temp_" file.1 = true)
                              (map_to_list dir)) = 0%nat)) as [Hnone|_].
  - exists dir. split; [exact Hdir|]. intros name mtime.
    split; [|intros [H _]; exact H]. intros Hname. split; [exact Hname|].
    intros (Htemp & _).
    assert (Hlen : ∀ (l : list (string * Time)) x, x ∈ l → length l ≠ 0%nat).
    { intros [|y l] x Hx; [apply elem_of_nil in Hx; contradiction|discriminate]. }
    assert (Hin : (name, mtime) ∈ filter (λ file : string * Time,
                                            String.prefix "temp_" file.1 = true)
                                     (map_to_list dir)).
    { apply list_elem_of_filter. split; [exact Htemp|].
      apply elem_of_map_to_list. exact Hname. }
    exact (Hlen _ _ Hin Hnone).
  - eexists. split; [reflexivity|]. intros name mtime.
    rewrite cleanup_fold_dir. cbn [fst snd].
    destruct (decide (name ∈ _)) as [Hin|Hout].
    + split; [discriminate|]. intros [Hname Hkeep]. exfalso. apply Hkeep.
      apply list_elem_of_fmap in Hin as ([name' mtime'] & -> & Hin).
      apply list_elem_of_filter in Hin as [[Hold Hok] Hin].
      apply list_elem_of_filter in Hin as [Htemp Hin].
      apply elem_of_map_to_list in Hin. cbn [fst snd] in *.
      pose proof (eq_trans (eq_sym Hin) Hname) as Heq. injection Heq as ->.
      repeat split; assumption.
    + split; [|intros [H _]; exact H]. intros Hname. split; [exact Hname|].
      intros (Htemp & Hold & Hok). apply Hout.
      apply list_elem_of_fmap. exists (name, mtime). split; [reflexivity|].
      apply list_elem_of_filter. split; [split; assumption|].
      apply list_elem_of_filter. split; [exact Htemp|].
      apply elem_of_map_to_list. exact Hname.
Qed.

(** ** The expiration service *)

Lemma service_step_keeps_one_interval (p : Process) (e : ServiceEvent) :
  intervals p = match intervalId p with Some handle => {[ handle ]} | None => ∅ end →
  intervals (service_step p e)
  = match intervalId (service_step p e) with
    | Some handle => {[ handle ]}
    | None => ∅
    end.
Proof.
  intros Hinv. destruct e as [now stamp| |handle now stamp]; cbn [service_step].
  - unfold start. destruct (intervalId p) as [handle|] eqn:Hid.
    + cbn. exact Hinv.
    + cbn. rewrite Hinv. apply union_empty_r_L.
  - unfold stop. destruct (intervalId p) as [handle|] eqn:Hid.
    + cbn. rewrite Hinv. apply difference_diag_L.
    + rewrite Hid. exact Hinv.
  - unfold tick. destruct (decide (handle ∈ intervals p)); [|exact Hinv].
    cbn. exact Hinv.
Qed.

(** X21: the expiration service never has two intervals: after any
    sequence of [start()], [stop()] and firings of intervals since the
    server came up, the only interval that is set is the one that
    [intervalId] holds, and none is set when [intervalId] is [null]; so a
    second [start()] adds no sweep, and after [stop()] no firing
    sweeps. *)
Theorem service_keeps_one_interval (events : list ServiceEvent) (w : World) :
  let p := foldl service_step (process_at_boot w) events in
  intervals p = match intervalId p with Some handle => {[ handle ]} | None => ∅ end
  ∧ (∀ now stamp, intervals (start now stamp (start now stamp p))
                  = intervals (start now stamp p))
  ∧ (∀ handle now stamp, tick handle now stamp (stop p) = stop p).
Proof.
  intros p.
  assert (Hinv : intervals p
                 = match intervalId p with Some handle => {[ handle ]} | None => ∅ end).
  { subst p. induction events as [|e events IH] using rev_ind; [reflexivity|].
    rewrite foldl_app. cbn [foldl]. apply service_step_keeps_one_interval.
    exact IH. }
  split; [exact Hinv|]. split.
  - intros now stamp. unfold start.
    destruct (intervalId p) as [handle|] eqn:Hid; cbn; rewrite ?Hid; reflexivity.
  - intros handle now stamp. unfold tick.
    destruct (decide (handle ∈ intervals (stop p))) as [Hin|]; [|reflexivity].
    exfalso. unfold stop in Hin. destruct (intervalId p) as [h|] eqn:Hid.
    + cbn in Hin. rewrite Hinv, difference_diag_L in Hin.
      apply elem_of_empty in Hin. exact Hin.
    + rewrite Hinv in Hin. apply elem_of_empty in Hin. exact Hin.
Qed.
(** * Properties of the client *)

(** ** Quotients of time values *)

Lemma div_between (x y n : Z) : 0 < y → n * y ≤ x < (n + 1) * y → x / y = n.
Proof.
  intros Hy Hx. symmetry. apply (Z.div_unique x y n (x - n * y)); lia.
Qed.

(** Below [2^52] the rounding of the quotient does not reach the next
    integer: the floor of the rounded quotient is the integer quotient. *)
Lemma Math_floor_quotient_exact (a b : Z) :
  0 ≤ a < 2 ^ 52 → 0 < b < 2 ^ 52 → Math_floor_quotient a b = a / b.
Proof.
  intros Ha Hb. unfold Math_floor_quotient, Number_of_ratio. cbv zeta.
  set (P := a * 2 ^ 1074).
  pose proof (pow2_pos 1074 ltac:(lia)) as H1074.
  assert (0 ≤ P) as HP by (unfold P; lia).
  set (sh := Z.max (Z.log2 (P / b) - 52) 0).
  destruct (shift_spec (P / b) sh) as (Hsh & Hhi & Hlo);
    [apply Z.div_pos; lia|reflexivity|].
  pose proof (Z.div_mod P b ltac:(lia)) as HPdm.
  pose proof (Z.mod_pos_bound P b ltac:(lia)) as HPr.
  assert (P < 2 ^ 52 * 2 ^ 1074) as HPup by (unfold P; nia).
  assert (sh < 1074) as Hsh'.
  { destruct (Z.eq_dec sh 0) as [->|Hne]; [lia|].
    specialize (Hlo ltac:(lia)).
    assert (2 ^ (52 + sh) < 2 ^ 1126) as Hpow.
    { replace (2 ^ 1126) with (2 ^ 52 * 2 ^ 1074)
        by (rewrite <- Z.pow_add_r by lia; reflexivity). nia. }
    apply Z.pow_lt_mono_r_iff in Hpow; lia. }
  set (k := 1074 - sh). assert (0 < k) as Hk by (unfold k; lia).
  pose proof (pow2_pos sh Hsh) as Hpsh.
  pose proof (pow2_pos k ltac:(lia)) as Hpk.
  assert (2 ^ 1074 = 2 ^ k * 2 ^ sh) as Hsplit.
  { rewrite <- Z.pow_add_r by lia. f_equal. unfold k. lia. }
  assert (b * 2 ^ sh < 2 ^ 1074) as Hsmall.
  { destruct (Z.eq_dec sh 0) as [Hz|Hne].
    - rewrite Hz, Z.pow_0_r.
      assert (2 ^ 52 < 2 ^ 1074) by (apply Z.pow_lt_mono_r; lia). lia.
    - specialize (Hlo ltac:(lia)). rewrite Z.pow_add_r in Hlo by lia. nia. }
  pose proof (Z.div_mod a b ltac:(lia)) as Hdm.
  pose proof (Z.mod_pos_bound a b ltac:(lia)) as Hr.
  set (n := a / b) in *. set (r := a mod b) in *.
  assert (0 ≤ n) as Hn by (apply Z.div_pos; lia).
  set (d := b * 2 ^ sh). assert (0 < d) as Hd by (unfold d; nia).
  assert (n * 2 ^ k ≤ round_half_even P d ≤ (n + 1) * 2 ^ k - 1)%Z as Hm.
  { apply round_half_even_bounds; [exact Hd| |].
    - unfold d, P. rewrite Hsplit. nia.
    - unfold d, P.
      assert (1 ≤ (n + 1) * b - a) by lia.
      assert ((n + 1) * 2 ^ k * (b * 2 ^ sh) = (n + 1) * b * 2 ^ 1074)
        by (rewrite Hsplit; ring).
      nia. }
  set (m := round_half_even P d) in *.
  destruct (Z.eqb_spec m (2 ^ 53)) as [Hcarry|Hplain].
  - destruct (Z.ltb_spec 2045 (sh + 1)); [lia|].
    assert (2 ^ k = 2 * 2 ^ (k - 1)) as Hhalf.
    { rewrite <- Z.pow_succ_r by lia. f_equal. lia. }
    pose proof (pow2_pos (k - 1) ltac:(lia)) as Hpk1.
    unfold ratio. destruct (Z.leb_spec 0 (sh + 1 - 1074)) as [He|He].
    + assert (k = 1) as Hk1 by (unfold k; lia). rewrite Hk1 in *. cbn in Hm.
      exfalso. assert (n < 2 ^ 52) by (unfold n; apply Z.div_lt_upper_bound; nia).
      lia.
    + cbn [fst snd]. replace (- (sh + 1 - 1074)) with (k - 1) by (unfold k; lia).
      apply div_between; [exact Hpk1|]. nia.
  - destruct (Z.ltb_spec 2045 sh); [lia|].
    unfold ratio. destruct (Z.leb_spec 0 (sh - 1074)) as [He|He]; [lia|].
    cbn [fst snd]. replace (- (sh - 1074)) with k by (unfold k; lia).
    apply div_between; [exact Hpk|]. lia.
Qed.

Lemma time_difference_exact (t now : Time) :
  Z.abs (t - now) < 2 ^ 52 → time_difference t now = t - now.
Proof.
  intros Hd. unfold time_difference.
  assert (0 < 1 < 2 ^ 52) as H1 by (split; [lia|reflexivity]).
  destruct (Z.ltb_spec (t - now) 0).
  - rewrite Math_floor_quotient_exact by lia. rewrite Z.div_1_r. lia.
  - rewrite Math_floor_quotient_exact by lia. apply Z.div_1_r.
Qed.

(** X25: the time left that the listing card and the listing page show
    is exact: for two time values less than [2^52] milliseconds apart
    the Number arithmetic of [getTimeLeft] loses nothing, the card shows
    the whole hours and the minutes of the time that is left, the page
    shows its days, hours, minutes and seconds, with hours below 24 and
    minutes and seconds below 60, and both show the end once the clock
    reading has reached the end time. *)
Theorem getTimeLeft_counts_exactly (t now : Time) :
  Z.abs (t - now) < 2 ^ 52 →
  let d := t - now in
  let days := d / 86400000 in
  let hours := d mod 86400000 / 3600000 in
  let minutes := d mod 3600000 / 60000 in
  let seconds := d mod 60000 / 1000 in
  (d ≤ 0 →
   ArtworkCard.getTimeLeft (ValidDate t) now = "Ended"
   ∧ ArtworkDetail.getTimeLeft (ValidDate t) now = "Auction Ended")
  ∧ (0 < d →
     ArtworkCard.getTimeLeft (ValidDate t) now
     = pretty (d / 3600000) +:+ "h " +:+ pretty minutes +:+ "m"
     ∧ ArtworkDetail.getTimeLeft (ValidDate t) now
       = (if 0 <? days
          then pretty days +:+ "d " +:+ pretty hours +:+ "h " +:+ pretty minutes
               +:+ "m"
          else if 0 <? hours
          then pretty hours +:+ "h " +:+ pretty minutes +:+ "m "
               +:+ pretty seconds +:+ "s"
          else pretty minutes +:+ "m " +:+ pretty seconds +:+ "s")
     ∧ d / 3600000 = 24 * days + hours
     ∧ d = 86400000 * days + 3600000 * hours + 60000 * minutes
           + 1000 * seconds + d mod 1000
     ∧ 0 ≤ hours < 24 ∧ 0 ≤ minutes < 60 ∧ 0 ≤ seconds < 60).
Proof.
  intros Hd d days hours minutes seconds.
  assert (2 ^ 52 = 4503599627370496) as Hpow by reflexivity.
  unfold ArtworkCard.getTimeLeft, ArtworkDetail.getTimeLeft.
  rewrite (time_difference_exact t now Hd). fold d. split.
  - intros Hle. destruct (Z.leb_spec d 0); [split; reflexivity|lia].
  - intros Hpos. destruct (Z.leb_spec d 0); [lia|].
    assert (Z.abs d < 2 ^ 52) as Hd' by exact Hd.
    pose proof (Z.mod_pos_bound d (1000 * 60 * 60 * 24) ltac:(lia)) as Hm1.
    pose proof (Z.mod_pos_bound d (1000 * 60 * 60) ltac:(lia)) as Hm2.
    pose proof (Z.mod_pos_bound d (1000 * 60) ltac:(lia)) as Hm3.
    rewrite !Math_floor_quotient_exact by lia.
    change (1000 * 60 * 60 * 24) with 86400000.
    change (1000 * 60 * 60) with 3600000. change (1000 * 60) with 60000.
    fold days hours minutes seconds.
    split; [reflexivity|]. split; [reflexivity|].
    subst days hours minutes seconds. clear Hm1 Hm2 Hm3 Hd Hd' Hpow.
    repeat split; Z.div_mod_to_equations; lia.
Qed.

Lemma getTimeLeft_counts_exactly_witness :
  Z.abs (97230000 - 1000) < 2 ^ 52
  ∧ ArtworkCard.getTimeLeft (ValidDate 97230000) 1000 = "27h 0m"
  ∧ ArtworkDetail.getTimeLeft (ValidDate 97230000) 1000 = "1d 3h 0m".
Proof.
  assert (H : Z.abs (97230000 - 1000) < 2 ^ 52) by (vm_compute; reflexivity).
  split; [exact H|].
  destruct (getTimeLeft_counts_exactly 97230000 1000 H) as [_ Hleft].
  destruct (Hleft ltac:(lia)) as (Hcard & Hpage & _).
  split; [rewrite Hcard|rewrite Hpage]; vm_compute; reflexivity.
Defined.

(** ** The status of a listing on the card, the page and the dashboard *)

(** X23: the listing card offers "Place Bid" only under the label
    "Active", and for a valid end time exactly then; it offers it exactly
    when the listing page lets a signed-in user bid; and for a listing
    that is on the public list and not PENDING the dashboard shows the
    label of the card.  With an end time that is no date the card shows
    "Active" and offers no bid. *)
Theorem card_page_dashboard_agree (status : option ArtworkStatus)
    (endTime : JSDate) (artwork : Artwork) (now : Time) :
  (ArtworkCard.canBid status endTime now = true →
   ArtworkCard.getArtworkStatus status endTime now = "Active")
  ∧ (endTime ≠ InvalidDate →
     ArtworkCard.getArtworkStatus status endTime now = "Active" →
     ArtworkCard.canBid status endTime now = true)
  ∧ ArtworkCard.canBid (Some (a_status artwork)) (ValidDate (a_endTime artwork)) now
    = bid_form_rendered true artwork now
  ∧ (a_isActive artwork = Some true → a_status artwork ≠ PENDING →
     Dashboard.getArtworkStatus artwork now
     = ArtworkCard.getArtworkStatus (Some (a_status artwork))
         (ValidDate (a_endTime artwork)) now)
  ∧ ArtworkCard.getArtworkStatus (Some ACTIVE) InvalidDate now = "Active"
  ∧ ArtworkCard.canBid (Some ACTIVE) InvalidDate now = false.
Proof.
  split; [|split; [|split; [|split; [|split; reflexivity]]]].
  - unfold ArtworkCard.canBid, ArtworkCard.getArtworkStatus.
    intros Hcan. apply andb_prop in Hcan as [Hstatus Hopen].
    apply bool_decide_eq_true in Hstatus. subst status.
    destruct endTime as [t|]; [|discriminate]. apply Z.ltb_lt in Hopen.
    destruct (Z.leb_spec t now); [lia|]. reflexivity.
  - unfold ArtworkCard.canBid, ArtworkCard.getArtworkStatus.
    intros Hvalid. destruct endTime as [t|]; [|contradiction].
    destruct status as [[]|]; cbn; destruct (Z.leb_spec t now);
      try discriminate; intros _; cbn; apply Z.ltb_lt; lia.
  - unfold ArtworkCard.canBid, bid_form_rendered, showBidForm, canPlaceBid.
    destruct (a_status artwork); cbn;
      destruct (Z.leb_spec (a_endTime artwork) now);
      destruct (Z.ltb_spec now (a_endTime artwork)); try reflexivity; lia.
  - unfold Dashboard.getArtworkStatus, ArtworkCard.getArtworkStatus.
    intros Hactive Hstatus.
    destruct (a_status artwork); [contradiction|..]; cbn;
      destruct (Z.leb_spec (a_endTime artwork) now); try reflexivity.
    destruct (decide (a_isActive artwork = Some true)); [reflexivity|contradiction].
Qed.

(** ** Prices *)

(** X24: the client writes a price as the server does: on a string
    [formatPrice] is [formatDecimal]; a price text as the database hands
    it out for a number is shown unchanged behind the currency sign; and
    the text "NaN", which the database hands out for the special value of
    the column, is shown as "0.00", as a number that is [NaN] is. *)
Theorem formatCurrency_shows_column_value (x : jsstring) (c : Z)
    (currency : jsstring) :
  Z.abs c < 10 ^ 10 →
  priceUtils.formatPrice (inl x) = formatDecimal x
  ∧ priceUtils.formatCurrency (inl (decimal_text c)) currency
    = currency ++ decimal_text c
  ∧ priceUtils.formatCurrency (inl (js "NaN")) currency = currency ++ js "0.00"
  ∧ priceUtils.formatCurrency (inr NaN) currency = currency ++ js "0.00".
Proof.
  intros Hc. split; [reflexivity|]. split; [|split; reflexivity].
  unfold priceUtils.formatCurrency. f_equal.
  change (priceUtils.formatPrice (inl (decimal_text c)))
    with (formatDecimal (decimal_text c)).
  apply formatDecimal_column_value. exact Hc.
Qed.

Lemma formatCurrency_shows_column_value_witness :
  Z.abs 15000 < 10 ^ 10
  ∧ priceUtils.formatPrice (inl (js "7")) = formatDecimal (js "7")
  ∧ priceUtils.formatCurrency (inl (decimal_text 15000)) (js "$")
    = js "$" ++ decimal_text 15000
  ∧ priceUtils.formatCurrency (inl (js "NaN")) (js "$") = js "$" ++ js "0.00"
  ∧ priceUtils.formatCurrency (inr NaN) (js "$") = js "$" ++ js "0.00".
Proof.
  split; [vm_compute; reflexivity|].
  apply (formatCurrency_shows_column_value (js "7") 15000 (js "$")).
  vm_compute. reflexivity.
Defined.
